(** * SERP tracker: position tracking and alerting engine

    A shallow embedding of [lib/serp-tracker.js] (class [SERPTracker]) and of
    the tables and views of [database/schema.sql] it talks to, followed by the
    properties of the tracking engine.

    Conventions.
    - JavaScript numbers that are data (ids, ranks, epoch milliseconds) are
      [Z]; counters and lengths are [nat].
    - [null]/[undefined] and SQL NULL are [None].
    - A DATE is the number of whole UTC days since the epoch, which is what
      [new Date().toISOString().split('T')[0]] denotes.
    - The PostgreSQL database, the tracker object ([cache], [stats]) and the
      wall clock live in one [World]; every method is a state-passing
      computation that returns, throws, or runs out of loop fuel.
    - The outside world is three parameters: the parsed configuration file,
      the DataForSEO HTTP endpoint and the availability of the database. *)

From stdpp Require Import base gmap list strings pretty sorting.
From Stdlib Require Import ZArith Lia.

(** ** JavaScript and SQL value helpers *)

(** Truthiness of a possibly-missing string: [undefined], [null] and [''] are falsy. *)
Definition truthy_str (s : option string) : bool :=
  match s with
  | Some s => negb (bool_decide (s = ""))
  | None => false
  end.

(** Truthiness of a possibly-missing number: [undefined], [null] and [0] are falsy. *)
Definition truthy_num (n : option Z) : bool :=
  match n with
  | Some n => negb (n =? 0)%Z
  | None => false
  end.

(** [x || null] on a number. *)
Definition num_or_null (n : option Z) : option Z :=
  if truthy_num n then n else None.

(** Relational operators coerce [null] to [0]. *)
Definition js_num (n : option Z) : Z := default 0%Z n.
Definition js_ge (a : option Z) (b : Z) : bool := (b <=? js_num a)%Z.
Definition js_le (a : option Z) (b : Z) : bool := (js_num a <=? b)%Z.
Definition js_gt (a : option Z) (b : Z) : bool := (b <? js_num a)%Z.

(** Template-literal interpolation of nullable values. *)
Definition tpl_num (n : option Z) : string :=
  match n with Some n => pretty n | None => "null" end.
Definition tpl_str (s : option string) : string := default "null" s.

(** [String.prototype.includes]. *)
Fixpoint includes (s sub : string) : bool :=
  String.prefix sub s ||
  match s with
  | EmptyString => false
  | String _ s' => includes s' sub
  end.

Fixpoint drop_chars (n : nat) (s : string) : string :=
  match n, s with
  | S n', String _ s' => drop_chars n' s'
  | _, _ => s
  end.

(** [String.prototype.replace] with a string pattern: first occurrence only. *)
Fixpoint replace_first (pat rep s : string) : string :=
  if String.prefix pat s then rep +:+ drop_chars (String.length pat) s
  else match s with
       | EmptyString => EmptyString
       | String c s' => String c (replace_first pat rep s')
       end.

(** [[...new Set(xs)]]: duplicates removed, first occurrences kept in order. *)
Fixpoint dedupe (seen xs : list string) : list string :=
  match xs with
  | [] => []
  | x :: xs' =>
      if bool_decide (x ∈ seen) then dedupe seen xs'
      else x :: dedupe (x :: seen) xs'
  end.

(** SQL subtraction: NULL if either operand is NULL. *)
Definition sql_sub (a b : option Z) : option Z :=
  match a, b with
  | Some a, Some b => Some (a - b)%Z
  | _, _ => None
  end.

(** Column equality as a UNIQUE constraint sees it. The schema declares plain
    [UNIQUE (...)], i.e. PostgreSQL's default NULLS DISTINCT: a NULL never
    collides with anything, not even with another NULL. *)
Definition unique_col_eq {A} `{EqDecision A} (a b : option A) : bool :=
  match a, b with
  | Some x, Some y => bool_decide (x = y)
  | _, _ => false
  end.

(** [VARCHAR(n)] accepts at most [n] characters. *)
Definition varchar (n : nat) (s : string) : bool := String.length s <=? n.
Definition varchar_null (n : nat) (s : option string) : bool :=
  match s with Some s => varchar n s | None => true end.

Definition ms_per_day : Z := 86400000.

(** The calendar day of an instant given in epoch milliseconds. *)
Definition date_of (ms : Z) : Z := (ms / ms_per_day)%Z.

(** ** Configuration ([config/tracking-config.json], key [trackingConfig]) *)

Record KeywordSpec := {
  kw_keyword : string;
  kw_searchVolume : option Z;
  kw_targetPosition : option Z;
  kw_trackingFrequency : option string
}.

Record Location := {
  loc_code : option Z;
  loc_name : option string
}.

Record Project := {
  p_name : string;
  p_siteUrl : string;
  p_location : option Location;
  (* priority tier |-> keywords, in file order *)
  p_keywords : list (string * list KeywordSpec)
}.

(** The keys of an object are distinct; entries are in file order. *)
Record Config := {
  projects : list (string * Project);
  ds_locationCode : Z;            (* defaultSettings.locationCode *)
  ds_locationName : string;       (* defaultSettings.locationName *)
  ds_device : string;             (* defaultSettings.device *)
  batchSize : nat;                (* apiLimits.dataForSEO.batchSize *)
  delayBetweenBatches : Z;        (* apiLimits.dataForSEO.delayBetweenBatches *)
  critical_positionDrop : Z;      (* alertThresholds.critical.positionDrop *)
  warning_positionDrop : Z;       (* alertThresholds.warning.positionDrop *)
  opportunity_enterTopN : Z       (* alertThresholds.opportunity.enterTopN *)
}.

(** Lookup among the own properties of a parsed JSON object. *)
Fixpoint assoc {A} (k : string) (l : list (string * A)) : option A :=
  match l with
  | [] => None
  | (k', v) :: l' => if bool_decide (k = k') then Some v else assoc k l'
  end.

(** ** Tables of [schema.sql] *)

Record TrackedKeyword := {
  tk_id : Z;
  tk_keyword : string;
  tk_project_id : string;
  tk_project_name : option string;
  tk_priority : string;
  tk_search_volume : option Z;
  tk_target_position : option Z;
  tk_tracking_frequency : string;
  tk_location_code : option Z;
  tk_location_name : option string;
  tk_device : option string;
  tk_is_active : bool;
  tk_created_at : Z;
  tk_updated_at : Z
}.

Record Item := {
  it_type : string;
  it_domain : option string;
  it_rank_absolute : option Z;
  it_url : option string
}.

(** One element of [task.result]; kept whole as the raw payload. *)
Record SerpResult := {
  sr_items : option (list Item)
}.

Record PositionRow := {
  ph_id : Z;
  ph_keyword_id : Z;
  ph_position : option Z;
  ph_url : option string;
  ph_date : Z;
  ph_device : option string;
  ph_location : option string;
  ph_serp_features : list string;
  ph_data_source : string;
  ph_raw_data : option SerpResult;
  ph_created_at : Z
}.

Inductive AlertType := critical | warning | opportunity | competitor.

Record Alert := {
  al_id : Z;
  al_keyword_id : Z;
  al_alert_type : AlertType;
  al_position_change : option Z;
  al_old_position : option Z;
  al_new_position : option Z;
  al_message : string;
  al_is_read : bool;
  al_triggered_at : Z
}.

Inductive SyncStatus := running | completed | failed.

(** An entry of [results.errors]. *)
Record BatchError := {
  be_batch : nat;
  be_error : string
}.

Record SyncLog := {
  sl_id : Z;
  sl_sync_type : string;
  sl_project_id : option string;
  sl_keywords_processed : option nat;
  sl_keywords_success : option nat;
  sl_keywords_failed : option nat;
  sl_errors : option (list BatchError);
  sl_started_at : Z;
  sl_completed_at : option Z;
  sl_duration_seconds : option Z;
  sl_status : SyncStatus
}.

(** The four tables, and the SERIAL sequences behind their [id] columns. *)
Record Db := {
  tracked_keywords : list TrackedKeyword;
  position_history : list PositionRow;
  tracking_alerts : list Alert;
  sync_log : list SyncLog;
  tk_seq : Z;
  ph_seq : Z;
  al_seq : Z;
  sl_seq : Z
}.

#[global] Instance AlertType_eq_dec : EqDecision AlertType.
Proof. solve_decision. Defined.
#[global] Instance SyncStatus_eq_dec : EqDecision SyncStatus.
Proof. solve_decision. Defined.

(** ** The tracker object *)

(** What [fetchPositionFromDataForSEO] resolves to. *)
Record PositionData := {
  pd_position : option Z;
  pd_url : option string;
  pd_serpFeatures : list string;
  pd_rawData : SerpResult
}.

Record CacheEntry := {
  ce_data : PositionData;
  ce_timestamp : Z
}.

(** An entry of [stats.errors]. *)
Record KeywordError := {
  ke_keyword : string;
  ke_error : string
}.

Record Stats := {
  keywordsTracked : nat;
  positionsUpdated : nat;
  alertsGenerated : nat;
  apiCallsMade : nat;
  errors : list KeywordError
}.

Record World := {
  db : Db;
  cache : gmap string CacheEntry;
  cacheTimeout : Z;
  stats : Stats;
  clock : Z;             (* Date.now(), and NOW() on the database side *)
  storage_calls : nat    (* connections and statements attempted so far *)
}.

(** The state right after [new SERPTracker()], against a given database. *)
Definition new_tracker (d : Db) (now : Z) : World :=
  {| db := d;
     cache := ∅;
     cacheTimeout := 3600000;
     stats := {| keywordsTracked := 0; positionsUpdated := 0;
                 alertsGenerated := 0; apiCallsMade := 0; errors := [] |};
     clock := now;
     storage_calls := 0 |}.

Definition empty_db : Db :=
  {| tracked_keywords := []; position_history := []; tracking_alerts := [];
     sync_log := []; tk_seq := 1; ph_seq := 1; al_seq := 1; sl_seq := 1 |}.

Definition set_db (d : Db) (w : World) : World :=
  {| db := d; cache := cache w; cacheTimeout := cacheTimeout w;
     stats := stats w; clock := clock w; storage_calls := storage_calls w |}.

Definition set_cache (c : gmap string CacheEntry) (w : World) : World :=
  {| db := db w; cache := c; cacheTimeout := cacheTimeout w;
     stats := stats w; clock := clock w; storage_calls := storage_calls w |}.

Definition set_stats (s : Stats) (w : World) : World :=
  {| db := db w; cache := cache w; cacheTimeout := cacheTimeout w;
     stats := s; clock := clock w; storage_calls := storage_calls w |}.

Definition set_clock (t : Z) (w : World) : World :=
  {| db := db w; cache := cache w; cacheTimeout := cacheTimeout w;
     stats := stats w; clock := t; storage_calls := storage_calls w |}.

Definition count_storage_call (w : World) : World :=
  {| db := db w; cache := cache w; cacheTimeout := cacheTimeout w;
     stats := stats w; clock := clock w; storage_calls := S (storage_calls w) |}.

(** ** Computations: state, exceptions, loop fuel *)

Inductive Outcome (A : Type) : Type :=
  | Returned (a : A)
  | Thrown (message : string)
  | OutOfFuel.
Arguments Returned {A} a.
Arguments Thrown {A} message.
Arguments OutOfFuel {A}.

Definition M (A : Type) : Type := World -> Outcome A * World.

Definition ret {A} (a : A) : M A := fun w => (Returned a, w).

Definition bind {A B} (m : M A) (k : A -> M B) : M B :=
  fun w =>
    match m w with
    | (Returned a, w') => k a w'
    | (Thrown e, w') => (Thrown e, w')
    | (OutOfFuel, w') => (OutOfFuel, w')
    end.

Definition throw {A} (e : string) : M A := fun w => (Thrown e, w).

(** [try { m } catch (error) { handler(error.message) }]. *)
Definition try_catch {A} (m : M A) (handler : string -> M A) : M A :=
  fun w =>
    match m w with
    | (Thrown e, w') => handler e w'
    | r => r
    end.

Definition get : M World := fun w => (Returned w, w).
Definition modify (f : World -> World) : M unit := fun w => (Returned tt, f w).

Notation "'do' x <- m ; k" := (bind m (fun x => k))
  (at level 10, x name, m at level 100, k at level 200).
Notation "'exec' m ; k" := (bind m (fun _ => k))
  (at level 10, m at level 100, k at level 200).

(** The repository methods, as far as database availability is concerned. *)
Inductive StorageOp :=
  | OpImport | OpGetKeywords | OpCreateSyncLog | OpCompleteSyncLog
  | OpSavePosition | OpGenerateAlerts | OpCreateAlert.

(** What the DataForSEO endpoint sends back. *)
Record Task := {
  task_status_code : Z;
  task_status_message : string;
  task_result : option (list SerpResult)
}.

Inductive HttpOutcome :=
  | HttpFailed (message : string)               (* axios rejects, or no body *)
  | HttpResponse (tasks : option (list Task)).  (* response.data.tasks *)

Record SerpRequest := {
  rq_keyword : string;
  rq_location_code : option Z;
  rq_language_code : string;
  rq_device : option string;
  rq_os : option string;
  rq_depth : Z
}.

(** ** SQL statements

    A statement either fails as a whole (the table contents are untouched,
    though a SERIAL default it evaluated stays consumed) or takes effect. *)

Definition Sql (A : Type) : Type := Db -> (string + A) * Db.

Definition set_tracked_keywords (l : list TrackedKeyword) (seq : Z) (d : Db) : Db :=
  {| tracked_keywords := l; position_history := position_history d;
     tracking_alerts := tracking_alerts d; sync_log := sync_log d;
     tk_seq := seq; ph_seq := ph_seq d; al_seq := al_seq d; sl_seq := sl_seq d |}.

Definition set_position_history (l : list PositionRow) (seq : Z) (d : Db) : Db :=
  {| tracked_keywords := tracked_keywords d; position_history := l;
     tracking_alerts := tracking_alerts d; sync_log := sync_log d;
     tk_seq := tk_seq d; ph_seq := seq; al_seq := al_seq d; sl_seq := sl_seq d |}.

Definition set_tracking_alerts (l : list Alert) (seq : Z) (d : Db) : Db :=
  {| tracked_keywords := tracked_keywords d; position_history := position_history d;
     tracking_alerts := l; sync_log := sync_log d;
     tk_seq := tk_seq d; ph_seq := ph_seq d; al_seq := seq; sl_seq := sl_seq d |}.

Definition set_sync_log (l : list SyncLog) (seq : Z) (d : Db) : Db :=
  {| tracked_keywords := tracked_keywords d; position_history := position_history d;
     tracking_alerts := tracking_alerts d; sync_log := l;
     tk_seq := tk_seq d; ph_seq := ph_seq d; al_seq := al_seq d; sl_seq := seq |}.

(** The first row satisfying [conflicts] is rewritten by [f]; [None] when no
    row does. *)
Fixpoint update_first {A} (conflicts : A -> bool) (f : A -> A) (l : list A)
  : option (list A * A) :=
  match l with
  | [] => None
  | r :: l' =>
      if conflicts r then Some (f r :: l', f r)
      else match update_first conflicts f l' with
           | Some (l'', r') => Some (r :: l'', r')
           | None => None
           end
  end.

(** *** tracked_keywords *)

(** CHECK and length constraints of [tracked_keywords]. *)
Definition tracked_keyword_checks (r : TrackedKeyword) : bool :=
  varchar 50 (tk_project_id r)
  && varchar_null 255 (tk_project_name r)
  && bool_decide (tk_priority r ∈ ["high"; "medium"; "low"])
  && bool_decide (tk_tracking_frequency r ∈ ["daily"; "weekly"; "monthly"])
  && varchar_null 100 (tk_location_name r)
  && match tk_device r with
     | Some dv => bool_decide (dv ∈ ["desktop"; "mobile"])
     | None => true
     end.

(** [UNIQUE(keyword, project_id, device, location_code)]. *)
Definition same_identity (a b : TrackedKeyword) : bool :=
  bool_decide (tk_keyword a = tk_keyword b)
  && bool_decide (tk_project_id a = tk_project_id b)
  && unique_col_eq (tk_device a) (tk_device b)
  && unique_col_eq (tk_location_code a) (tk_location_code b).

(** The [DO UPDATE SET] list of the import statement, with the
    [update_tracked_keywords_updated_at] trigger. *)
Definition apply_excluded (excluded : TrackedKeyword) (now : Z) (r : TrackedKeyword)
  : TrackedKeyword :=
  {| tk_id := tk_id r;
     tk_keyword := tk_keyword r;
     tk_project_id := tk_project_id r;
     tk_project_name := tk_project_name r;
     tk_priority := tk_priority excluded;
     tk_search_volume := tk_search_volume excluded;
     tk_target_position := tk_target_position excluded;
     tk_tracking_frequency := tk_tracking_frequency excluded;
     tk_location_code := tk_location_code r;
     tk_location_name := tk_location_name r;
     tk_device := tk_device r;
     tk_is_active := tk_is_active r;
     tk_created_at := tk_created_at r;
     tk_updated_at := now |}.

(** The values of a row proposed for insertion; [id] and the timestamps are
    filled in by the column defaults. *)
Record NewKeyword := {
  nk_keyword : string;
  nk_project_id : string;
  nk_project_name : option string;
  nk_priority : string;
  nk_search_volume : option Z;
  nk_target_position : option Z;
  nk_tracking_frequency : string;
  nk_location_code : option Z;
  nk_location_name : option string;
  nk_device : option string;
  nk_is_active : bool
}.

Definition proposed_keyword (p : NewKeyword) (id now : Z) : TrackedKeyword :=
  {| tk_id := id;
     tk_keyword := nk_keyword p;
     tk_project_id := nk_project_id p;
     tk_project_name := nk_project_name p;
     tk_priority := nk_priority p;
     tk_search_volume := nk_search_volume p;
     tk_target_position := nk_target_position p;
     tk_tracking_frequency := nk_tracking_frequency p;
     tk_location_code := nk_location_code p;
     tk_location_name := nk_location_name p;
     tk_device := nk_device p;
     tk_is_active := nk_is_active p;
     tk_created_at := now;
     tk_updated_at := now |}.

(** [INSERT INTO tracked_keywords (...) VALUES (...)
     ON CONFLICT (keyword, project_id, device, location_code) DO UPDATE SET ...
     RETURNING id, (xmax = 0) AS inserted]. *)
Definition upsert_tracked_keyword (p : NewKeyword) (now : Z) : Sql (Z * bool) :=
  fun d =>
    let row := proposed_keyword p (tk_seq d) now in
    let seq := (tk_seq d + 1)%Z in
    if negb (tracked_keyword_checks row) then
      (inl "violates check constraint", set_tracked_keywords (tracked_keywords d) seq d)
    else
      match update_first (same_identity row) (apply_excluded row now) (tracked_keywords d) with
      | Some (rows, updated) =>
          (inr (tk_id updated, false), set_tracked_keywords rows seq d)
      | None =>
          (inr (tk_id row, true), set_tracked_keywords (tracked_keywords d ++ [row]) seq d)
      end.

(** [UPDATE tracked_keywords SET updated_at = NOW() WHERE id = $1]. *)
Definition touch_tracked_keyword (id now : Z) : Sql unit :=
  fun d =>
    let touch r :=
      if bool_decide (tk_id r = id) then
        {| tk_id := tk_id r; tk_keyword := tk_keyword r;
           tk_project_id := tk_project_id r; tk_project_name := tk_project_name r;
           tk_priority := tk_priority r; tk_search_volume := tk_search_volume r;
           tk_target_position := tk_target_position r;
           tk_tracking_frequency := tk_tracking_frequency r;
           tk_location_code := tk_location_code r;
           tk_location_name := tk_location_name r;
           tk_device := tk_device r; tk_is_active := tk_is_active r;
           tk_created_at := tk_created_at r; tk_updated_at := now |}
      else r in
    (inr tt, set_tracked_keywords (touch <$> tracked_keywords d) (tk_seq d) d).

(** [ORDER BY priority DESC, search_volume DESC]: does [a] sort no later than
    [b]? Descending order puts NULLs first. *)
Definition due_leb (a b : TrackedKeyword) : bool :=
  match String.compare (tk_priority a) (tk_priority b) with
  | Gt => true
  | Lt => false
  | Eq =>
      match tk_search_volume a, tk_search_volume b with
      | None, _ => true
      | Some _, None => false
      | Some x, Some y => (y <=? x)%Z
      end
  end.

Definition due_before (a b : TrackedKeyword) : Prop := due_leb a b = true.

#[global] Instance due_before_dec : RelDecision due_before.
Proof. intros a b. unfold due_before. apply _. Defined.

(** [SELECT * FROM tracked_keywords WHERE is_active = true
     [AND priority = $1] [AND project_id = $2]
     ORDER BY priority DESC, search_volume DESC]. *)
Definition select_keywords_to_track (priority projectId : option string) (d : Db)
  : list TrackedKeyword :=
  let wanted r :=
    tk_is_active r
    && (if truthy_str priority then bool_decide (Some (tk_priority r) = priority) else true)
    && (if truthy_str projectId then bool_decide (Some (tk_project_id r) = projectId) else true) in
  merge_sort due_before (filter (fun r => wanted r = true) (tracked_keywords d)).

(** *** position_history *)

(** [ORDER BY date DESC LIMIT 1]; among rows of the same date the one stored
    first is taken. *)
Fixpoint latest (rows : list PositionRow) : option PositionRow :=
  match rows with
  | [] => None
  | r :: rest =>
      match latest rest with
      | Some r' => if (ph_date r <? ph_date r')%Z then Some r' else Some r
      | None => Some r
      end
  end.

Definition history_of (keyword_id : Z) (d : Db) : list PositionRow :=
  filter (fun r => ph_keyword_id r = keyword_id) (position_history d).

(** [SELECT position FROM position_history WHERE keyword_id = $1
     ORDER BY date DESC LIMIT 1]. *)
Definition select_latest_position (keyword_id : Z) (d : Db) : option PositionRow :=
  latest (history_of keyword_id d).

(** [UNIQUE(keyword_id, date, device, location, data_source)]. *)
Definition same_observation (a b : PositionRow) : bool :=
  bool_decide (ph_keyword_id a = ph_keyword_id b)
  && bool_decide (ph_date a = ph_date b)
  && unique_col_eq (ph_device a) (ph_device b)
  && unique_col_eq (ph_location a) (ph_location b)
  && bool_decide (ph_data_source a = ph_data_source b).

(** Constraints of [position_history]: the foreign key to [tracked_keywords],
    the width of [device] and the CHECK on [data_source]. *)
Definition position_row_checks (r : PositionRow) (d : Db) : bool :=
  bool_decide (ph_keyword_id r ∈ tk_id <$> tracked_keywords d)
  && varchar_null 10 (ph_device r)
  && varchar_null 100 (ph_location r)
  && bool_decide (ph_data_source r ∈ ["gsc"; "dataforseo"]).

(** The [DO UPDATE SET] list of [savePosition]'s statement. *)
Definition overwrite_observation (excluded r : PositionRow) : PositionRow :=
  {| ph_id := ph_id r;
     ph_keyword_id := ph_keyword_id r;
     ph_position := ph_position excluded;
     ph_url := ph_url excluded;
     ph_date := ph_date r;
     ph_device := ph_device r;
     ph_location := ph_location r;
     ph_serp_features := ph_serp_features excluded;
     ph_data_source := ph_data_source r;
     ph_raw_data := ph_raw_data excluded;
     ph_created_at := ph_created_at r |}.

(** [INSERT INTO position_history (keyword_id, position, url, date, device,
       serp_features, data_source, raw_data) VALUES ($1, ..., $8)
     ON CONFLICT (keyword_id, date, device, location, data_source)
     DO UPDATE SET position, url, serp_features, raw_data].
    The column list has no [location], so the proposed row carries NULL there. *)
Definition upsert_position
    (keyword_id : Z) (position : option Z) (url : option string) (date : Z)
    (device : option string) (serp_features : list string) (data_source : string)
    (raw_data : option SerpResult) (now : Z) : Sql unit :=
  fun d =>
    let row :=
      {| ph_id := ph_seq d; ph_keyword_id := keyword_id; ph_position := position;
         ph_url := url; ph_date := date; ph_device := device; ph_location := None;
         ph_serp_features := serp_features; ph_data_source := data_source;
         ph_raw_data := raw_data; ph_created_at := now |} in
    let seq := (ph_seq d + 1)%Z in
    if negb (position_row_checks row d) then
      (inl "violates constraint", set_position_history (position_history d) seq d)
    else
      match update_first (same_observation row) (overwrite_observation row) (position_history d) with
      | Some (rows, _) => (inr tt, set_position_history rows seq d)
      | None => (inr tt, set_position_history (position_history d ++ [row]) seq d)
      end.

(** *** v_position_changes_7d *)

Inductive Trend := improved | declined | stable.

Record PositionChange := {
  pc_id : Z;
  pc_keyword : string;
  pc_project_id : string;
  current_position : option Z;
  current_date : option Z;
  previous_position : option Z;
  previous_date : option Z;
  position_change : option Z;
  trend : Trend
}.

(** The [CASE] of the view; a NULL difference falls to [ELSE 'stable']. *)
Definition classify (change : option Z) : Trend :=
  match change with
  | Some c => if (c <? 0)%Z then improved else if (0 <? c)%Z then declined else stable
  | None => stable
  end.

(** The second lateral join: the latest row dated at least seven days before
    the current one. Without a current row the date bound is NULL and nothing
    qualifies. *)
Definition previous_row (keyword_id : Z) (current : option PositionRow) (d : Db)
  : option PositionRow :=
  match current with
  | Some cur =>
      latest (filter (fun r => (ph_date r <= ph_date cur - 7)%Z) (history_of keyword_id d))
  | None => None
  end.

Definition position_change_row (tk : TrackedKeyword) (d : Db) : PositionChange :=
  let current_pos := select_latest_position (tk_id tk) d in
  let prev_pos := previous_row (tk_id tk) current_pos d in
  let cur := current_pos ≫= ph_position in
  let prev := prev_pos ≫= ph_position in
  {| pc_id := tk_id tk;
     pc_keyword := tk_keyword tk;
     pc_project_id := tk_project_id tk;
     current_position := cur;
     current_date := ph_date <$> current_pos;
     previous_position := prev;
     previous_date := ph_date <$> prev_pos;
     position_change := sql_sub cur prev;
     trend := classify (sql_sub cur prev) |}.

(** [SELECT * FROM v_position_changes_7d WHERE id = $1]. *)
Definition v_position_changes_7d (id : Z) (d : Db) : list PositionChange :=
  (fun tk => position_change_row tk d)
    <$> filter (fun tk => tk_is_active tk = true ∧ tk_id tk = id) (tracked_keywords d).

(** *** tracking_alerts *)

(** [INSERT INTO tracking_alerts (keyword_id, alert_type, position_change,
     old_position, new_position, message) VALUES (...)]. *)
Definition insert_alert
    (keyword_id : Z) (alert_type : AlertType) (change old_position new_position : option Z)
    (message : string) (now : Z) : Sql unit :=
  fun d =>
    let row :=
      {| al_id := al_seq d; al_keyword_id := keyword_id; al_alert_type := alert_type;
         al_position_change := change; al_old_position := old_position;
         al_new_position := new_position; al_message := message;
         al_is_read := false; al_triggered_at := now |} in
    let seq := (al_seq d + 1)%Z in
    if bool_decide (keyword_id ∈ tk_id <$> tracked_keywords d) then
      (inr tt, set_tracking_alerts (tracking_alerts d ++ [row]) seq d)
    else
      (inl "violates foreign key constraint", set_tracking_alerts (tracking_alerts d) seq d).

(** *** sync_log *)

(** [INSERT INTO sync_log (sync_type, project_id, keywords_processed,
     started_at, status) VALUES (...) RETURNING id]. *)
Definition insert_sync_log
    (sync_type : string) (project_id : option string) (keywords_processed : nat)
    (started_at : Z) (status : SyncStatus) : Sql Z :=
  fun d =>
    let row :=
      {| sl_id := sl_seq d; sl_sync_type := sync_type; sl_project_id := project_id;
         sl_keywords_processed := Some keywords_processed;
         sl_keywords_success := None; sl_keywords_failed := None; sl_errors := None;
         sl_started_at := started_at; sl_completed_at := None;
         sl_duration_seconds := None; sl_status := status |} in
    let seq := (sl_seq d + 1)%Z in
    if varchar 50 sync_type && varchar_null 50 project_id then
      (inr (sl_id row), set_sync_log (sync_log d ++ [row]) seq d)
    else
      (inl "value too long for type character varying(50)", set_sync_log (sync_log d) seq d).

(** [UPDATE sync_log SET keywords_success = $1, keywords_failed = $2,
     errors = $3, completed_at = $4,
     duration_seconds = EXTRACT(EPOCH FROM ($4 - started_at)), status = $5
     WHERE id = $6]; the duration is rounded to whole seconds. *)
Definition update_sync_log
    (success failed : nat) (errs : list BatchError) (completed_at : Z)
    (status : SyncStatus) (id : Z) : Sql unit :=
  fun d =>
    let close r :=
      if bool_decide (sl_id r = id) then
        {| sl_id := sl_id r; sl_sync_type := sl_sync_type r;
           sl_project_id := sl_project_id r;
           sl_keywords_processed := sl_keywords_processed r;
           sl_keywords_success := Some success;
           sl_keywords_failed := Some failed;
           sl_errors := Some errs;
           sl_started_at := sl_started_at r;
           sl_completed_at := Some completed_at;
           sl_duration_seconds := Some ((completed_at - sl_started_at r + 500) / 1000)%Z;
           sl_status := status |}
      else r in
    (inr tt, set_sync_log (close <$> sync_log d) (sl_seq d) d).

(** What [trackKeywordsByPriority] resolves to: [success], [failed] and
    [errors]; the early return for an empty due list carries no [errors]. *)
Record Results := {
  success : nat;
  failed_count : nat;
  batch_errors : option (list BatchError)
}.

(** What [importKeywordsFromConfig] resolves to. *)
Record ImportResult := {
  imported : nat;
  skipped : nat
}.

(** ** The methods of [SERPTracker] *)

Section Tracker.

(** [this.config], as loaded by [init]. *)
Variable config : Config.
(** [this.dataForSEOClient.post('/serp/google/organic/live/advanced', ...)];
    the first argument numbers the calls made so far. *)
Variable http_post : nat -> SerpRequest -> HttpOutcome.
(** Is the database reachable for the [n]-th round trip, made by [op]? *)
Variable storage_ok : StorageOp -> nat -> bool.

(** One round trip to the database: it is counted, and throws when the
    database is unreachable. *)
Definition storage_call (op : StorageOp) : M unit :=
  fun w =>
    if storage_ok op (storage_calls w) then (Returned tt, count_storage_call w)
    else (Thrown "Connection terminated unexpectedly", count_storage_call w).

(** [await this.db.connect()]; [client.release()] has no effect on the model. *)
Definition connect (op : StorageOp) : M unit := storage_call op.

(** [await client.query(stmt, params)]. *)
Definition query {A} (op : StorageOp) (stmt : Sql A) : M A :=
  exec storage_call op;
  fun w =>
    match stmt (db w) with
    | (inr a, d) => (Returned a, set_db d w)
    | (inl e, d) => (Thrown e, set_db d w)
    end.

(** A statement without effect on the four tables (BEGIN, COMMIT, ROLLBACK). *)
Definition control_statement : Sql unit := fun d => (inr tt, d).

Definition sleep (ms : Z) : M unit :=
  modify (fun w => set_clock (clock w + ms)%Z w).

(** *** importKeywordsFromConfig *)

(** [kw.trackingFrequency || priority === 'high' ? 'daily' : 'weekly']:
    the conditional operator binds loosest, so the whole disjunction is its
    condition. *)
Definition tracking_frequency_param (kw : KeywordSpec) (priority : string) : string :=
  if truthy_str (kw_trackingFrequency kw) || bool_decide (priority = "high")
  then "daily" else "weekly".

(** [projectData.location?.code || this.config.defaultSettings.locationCode]. *)
Definition location_code_param (projectData : Project) : Z :=
  let code := p_location projectData ≫= loc_code in
  if truthy_num code then js_num code else ds_locationCode config.

(** [projectData.location?.name || this.config.defaultSettings.locationName]. *)
Definition location_name_param (projectData : Project) : string :=
  let name := p_location projectData ≫= loc_name in
  if truthy_str name then default "" name else ds_locationName config.

(** The parameter array [$1 .. $11] of the import statement. *)
Definition import_params (pid : string) (projectData : Project) (priority : string)
    (kw : KeywordSpec) : NewKeyword :=
  {| nk_keyword := kw_keyword kw;
     nk_project_id := pid;
     nk_project_name := Some (p_name projectData);
     nk_priority := priority;
     nk_search_volume := num_or_null (kw_searchVolume kw);
     nk_target_position := num_or_null (kw_targetPosition kw);
     nk_tracking_frequency := tracking_frequency_param kw priority;
     nk_location_code := Some (location_code_param projectData);
     nk_location_name := Some (location_name_param projectData);
     nk_device := Some (ds_device config);
     nk_is_active := true |}.

Definition count_row (inserted : bool) (counts : ImportResult) : ImportResult :=
  if inserted
  then {| imported := S (imported counts); skipped := skipped counts |}
  else {| imported := imported counts; skipped := S (skipped counts) |}.

(** Body of the innermost loop: one upsert, one counter bumped. *)
Definition import_keyword (pid : string) (projectData : Project) (priority : string)
    (kw : KeywordSpec) (counts : ImportResult) : M ImportResult :=
  do w <- get;
  do result <- query OpImport
                 (upsert_tracked_keyword (import_params pid projectData priority kw) (clock w));
  ret (count_row (snd result) counts).

Fixpoint import_keywords (pid : string) (projectData : Project) (priority : string)
    (keywords : list KeywordSpec) (counts : ImportResult) : M ImportResult :=
  match keywords with
  | [] => ret counts
  | kw :: rest =>
      do counts' <- import_keyword pid projectData priority kw counts;
      import_keywords pid projectData priority rest counts'
  end.

Fixpoint import_tiers (pid : string) (projectData : Project)
    (tiers : list (string * list KeywordSpec)) (counts : ImportResult) : M ImportResult :=
  match tiers with
  | [] => ret counts
  | (priority, keywords) :: rest =>
      do counts' <- import_keywords pid projectData priority keywords counts;
      import_tiers pid projectData rest counts'
  end.

(** The names every object inherits from [Object.prototype]. Under one of
    them [this.config.projects[projectId]] is not [undefined] even when the
    file has no such project: it is a built-in function or, for [__proto__],
    the prototype itself. *)
Definition object_prototype_keys : list string :=
  ["constructor"; "__defineGetter__"; "__defineSetter__"; "hasOwnProperty";
   "__lookupGetter__"; "__lookupSetter__"; "isPrototypeOf"; "propertyIsEnumerable";
   "toString"; "valueOf"; "__proto__"; "toLocaleString"].

(** What the loop body throws for a [projectId] that is no project of the
    file. An [undefined] value fails at [projectData.name]; an inherited
    member can be asked for its [name], and fails one line later, at
    [Object.entries(projectData.keywords)], because it has no [keywords]. *)
Definition no_project_error (pid : string) : string :=
  if bool_decide (pid ∈ object_prototype_keys)
  then "Cannot convert undefined or null to object"
  else "Cannot read properties of undefined (reading 'name')".

(** The outer loop. An entry [(pid, None)] is one whose value is no project
    of the file; only a given [projectId] can produce it. *)
Fixpoint import_projects (entries : list (string * option Project))
    (counts : ImportResult) : M ImportResult :=
  match entries with
  | [] => ret counts
  | (pid, Some projectData) :: rest =>
      do counts' <- import_tiers pid projectData (p_keywords projectData) counts;
      import_projects rest counts'
  | (pid, None) :: _ => throw (no_project_error pid)
  end.

(** ROLLBACK, or the loss of the connection, discards every row change made
    since BEGIN; sequences are not transactional. *)
Definition rollback_to (snapshot : Db) (w : World) : World :=
  set_db {| tracked_keywords := tracked_keywords snapshot;
            position_history := position_history snapshot;
            tracking_alerts := tracking_alerts snapshot;
            sync_log := sync_log snapshot;
            tk_seq := tk_seq (db w); ph_seq := ph_seq (db w);
            al_seq := al_seq (db w); sl_seq := sl_seq (db w) |} w.

Definition importKeywordsFromConfig (projectId : option string) : M ImportResult :=
  exec connect OpImport;
  do before <- get;
  try_catch
    (exec query OpImport control_statement;   (* BEGIN *)
     let entries :=
       match projectId with
       | Some pid =>
           if truthy_str projectId then [(pid, assoc pid (projects config))]
           else prod_map id Some <$> projects config
       | None => prod_map id Some <$> projects config
       end in
     do counts <- import_projects entries {| imported := 0; skipped := 0 |};
     exec query OpImport control_statement;   (* COMMIT *)
     ret counts)
    (fun error =>
       exec modify (rollback_to (db before));
       exec query OpImport control_statement; (* ROLLBACK *)
       throw error).

(** *** Helper functions *)

Definition getKeywordsToTrack (priority projectId : option string)
  : M (list TrackedKeyword) :=
  exec connect OpGetKeywords;
  query OpGetKeywords (fun d => (inr (select_keywords_to_track priority projectId d), d)).

Definition createSyncLog (syncType : string) (projectId : option string)
    (keywordsCount : nat) : M Z :=
  exec connect OpCreateSyncLog;
  do w <- get;
  query OpCreateSyncLog (insert_sync_log syncType projectId keywordsCount (clock w) running).

Definition completeSyncLog (logId : Z) (succeeded failed_n : nat)
    (errs : list BatchError) : M unit :=
  exec connect OpCompleteSyncLog;
  do w <- get;
  query OpCompleteSyncLog
    (update_sync_log succeeded failed_n errs (clock w)
       (if 0 <? length errs then completed else completed) logId).

Definition project_keywords (project : Project) : list KeywordSpec :=
  default [] (assoc "high" (p_keywords project))
  ++ default [] (assoc "medium" (p_keywords project))
  ++ default [] (assoc "low" (p_keywords project)).

Fixpoint find_project_domain (keyword : string) (entries : list (string * Project))
  : option string :=
  match entries with
  | [] => None
  | (_, project) :: rest =>
      if existsb (fun kw => bool_decide (kw_keyword kw = keyword)) (project_keywords project)
      then Some (replace_first "sc-domain:" "" (p_siteUrl project))
      else find_project_domain keyword rest
  end.

Definition getProjectDomain (keyword : string) : option string :=
  find_project_domain keyword (projects config).

(** [languageMap[locationCode] || 'en']. *)
Definition getLanguageCode (locationCode : option Z) : string :=
  match locationCode with
  | Some 2840%Z => "en"
  | Some 2528%Z => "nl"
  | Some 2705%Z => "sl"
  | _ => "en"
  end.

(** *** fetchPositionFromDataForSEO *)

Definition serp_request (keyword : string) (locationCode : option Z)
    (device : option string) : SerpRequest :=
  {| rq_keyword := keyword;
     rq_location_code := locationCode;
     rq_language_code := getLanguageCode locationCode;
     rq_device := device;
     rq_os := if bool_decide (device = Some "mobile") then Some "android" else None;
     rq_depth := 100 |}.

(** [item.domain && item.domain.includes(projectDomain)]; a [null] needle is
    searched for as the text ["null"]. *)
Definition domain_matches (projectDomain : option string) (item : Item) : bool :=
  truthy_str (it_domain item)
  && includes (default "" (it_domain item)) (tpl_str projectDomain).

Definition feature_tags (item : Item) : list string :=
  (if bool_decide (it_type item = "featured_snippet") then ["Featured Snippet"] else [])
  ++ (if bool_decide (it_type item = "local_pack") then ["Local Pack"] else [])
  ++ (if bool_decide (it_type item = "people_also_ask") then ["People Also Ask"] else [])
  ++ (if bool_decide (it_type item = "images") then ["Image Pack"] else [])
  ++ (if bool_decide (it_type item = "video") then ["Video Results"] else []).

Definition parse_result (keyword : string) (result : SerpResult) : PositionData :=
  let projectDomain := getProjectDomain keyword in
  let domainMatch := sr_items result ≫= List.find (domain_matches projectDomain) in
  let serpFeatures :=
    match sr_items result with
    | Some items => flat_map feature_tags items
    | None => []
    end in
  {| pd_position := domainMatch ≫= it_rank_absolute;
     pd_url := domainMatch ≫= it_url;
     pd_serpFeatures := dedupe [] serpFeatures;
     pd_rawData := result |}.

Definition fetchPositionFromDataForSEO (keyword : string) (locationCode : option Z)
    (device : option string) : M PositionData :=
  do w <- get;
  exec modify (set_stats
                 {| keywordsTracked := keywordsTracked (stats w);
                    positionsUpdated := positionsUpdated (stats w);
                    alertsGenerated := alertsGenerated (stats w);
                    apiCallsMade := S (apiCallsMade (stats w));
                    errors := errors (stats w) |});
  match http_post (apiCallsMade (stats w)) (serp_request keyword locationCode device) with
  | HttpFailed e => throw e
  | HttpResponse None | HttpResponse (Some []) =>
      throw "No data returned from DataForSEO"
  | HttpResponse (Some (task :: _)) =>
      if negb (task_status_code task =? 20000)%Z
      then throw ("DataForSEO error: " +:+ task_status_message task)
      else match task_result task with
           | Some (result :: _) => ret (parse_result keyword result)
           | _ => throw "Cannot read properties of undefined"
           end
  end.

(** *** savePosition *)

Definition savePosition (keywordId : Z) (positionData : PositionData)
  : M (option Z * option Z) :=
  exec connect OpSavePosition;
  do prevResult <- query OpSavePosition
                     (fun d => (inr (select_latest_position keywordId d), d));
  let previousPosition := num_or_null (prevResult ≫= ph_position) in
  do w <- get;
  exec query OpSavePosition
         (upsert_position keywordId
            (pd_position positionData)
            (pd_url positionData)
            (date_of (clock w))
            (Some (ds_device config))
            (pd_serpFeatures positionData)
            "dataforseo"
            (Some (pd_rawData positionData))
            (clock w));
  exec query OpSavePosition (touch_tracked_keyword keywordId (clock w));
  ret (previousPosition, pd_position positionData).

(** *** trackKeywordBatch *)

Definition cache_key (keyword : TrackedKeyword) : string :=
  tk_keyword keyword +:+ ":" +:+ tpl_num (tk_location_code keyword)
    +:+ ":" +:+ tpl_str (tk_device keyword).

Definition bump_positionsUpdated (w : World) : World :=
  set_stats {| keywordsTracked := keywordsTracked (stats w);
               positionsUpdated := S (positionsUpdated (stats w));
               alertsGenerated := alertsGenerated (stats w);
               apiCallsMade := apiCallsMade (stats w);
               errors := errors (stats w) |} w.

Definition push_keyword_error (e : KeywordError) (w : World) : World :=
  set_stats {| keywordsTracked := keywordsTracked (stats w);
               positionsUpdated := positionsUpdated (stats w);
               alertsGenerated := alertsGenerated (stats w);
               apiCallsMade := apiCallsMade (stats w);
               errors := errors (stats w) ++ [e] |} w.

(** The cache-miss path of the loop body. *)
Definition fetch_and_save (keyword : TrackedKeyword) : M unit :=
  do position <- fetchPositionFromDataForSEO
                   (tk_keyword keyword) (tk_location_code keyword) (tk_device keyword);
  exec modify (fun w =>
                 set_cache (<[cache_key keyword :=
                                {| ce_data := position; ce_timestamp := clock w |}]>
                              (cache w)) w);
  exec savePosition (tk_id keyword) position;
  modify bump_positionsUpdated.

(** The [try] block of the loop body. *)
Definition track_keyword (keyword : TrackedKeyword) : M unit :=
  do w <- get;
  match cache w !! cache_key keyword with
  | Some cached =>
      if (clock w - ce_timestamp cached <? cacheTimeout w)%Z
      then exec savePosition (tk_id keyword) (ce_data cached); ret tt
      else fetch_and_save keyword
  | None => fetch_and_save keyword
  end.

Fixpoint trackKeywordBatch (keywords : list TrackedKeyword) : M unit :=
  match keywords with
  | [] => ret tt
  | keyword :: rest =>
      exec try_catch (track_keyword keyword)
             (fun error =>
                modify (push_keyword_error
                          {| ke_keyword := tk_keyword keyword; ke_error := error |}));
      trackKeywordBatch rest
  end.

(** *** createAlert and generateAlerts *)

Definition alert_message (alertType : AlertType) (positionChange : option Z) : string :=
  match alertType with
  | critical =>
      "🔴 Critical: Position dropped " +:+ pretty (Z.abs (js_num positionChange)) +:+ " places"
  | warning =>
      "⚠️ Warning: Position dropped " +:+ pretty (Z.abs (js_num positionChange)) +:+ " places"
  | opportunity =>
      "💡 Opportunity: Keyword entered top " +:+ pretty (opportunity_enterTopN config)
  | competitor =>
      "👁️ Competitor alert: New competitor in top 3"
  end.

Definition createAlert (keywordId : Z) (alertType : AlertType)
    (positionChange : option Z) (changeData : PositionChange) : M unit :=
  exec connect OpCreateAlert;
  do w <- get;
  query OpCreateAlert
    (insert_alert keywordId alertType positionChange
       (previous_position changeData) (current_position changeData)
       (alert_message alertType positionChange) (clock w)).

(** Body of the loop of [generateAlerts]; yields the new [alertsCreated]. *)
Definition evaluate_keyword (keywordId : Z) (alertsCreated : nat) : M nat :=
  do rows <- query OpGenerateAlerts
               (fun d => (inr (v_position_changes_7d keywordId d), d));
  match rows with
  | [] => ret alertsCreated
  | change :: _ =>
      let positionChange := position_change change in
      (* Critical: large position drop *)
      if js_ge positionChange (critical_positionDrop config) then
        exec createAlert keywordId critical positionChange change;
        ret (S alertsCreated)
      (* Warning: moderate position drop *)
      else if js_ge positionChange (warning_positionDrop config) then
        exec createAlert keywordId warning positionChange change;
        ret (S alertsCreated)
      (* Opportunity: entered the top N *)
      else if js_le (current_position change) (opportunity_enterTopN config)
              && js_gt (previous_position change) (opportunity_enterTopN config) then
        exec createAlert keywordId opportunity positionChange change;
        ret (S alertsCreated)
      else ret alertsCreated
  end.

Fixpoint evaluate_keywords (keywordIds : list Z) (alertsCreated : nat) : M nat :=
  match keywordIds with
  | [] => ret alertsCreated
  | keywordId :: rest =>
      do alertsCreated' <- evaluate_keyword keywordId alertsCreated;
      evaluate_keywords rest alertsCreated'
  end.

Definition add_alertsGenerated (n : nat) (w : World) : World :=
  set_stats {| keywordsTracked := keywordsTracked (stats w);
               positionsUpdated := positionsUpdated (stats w);
               alertsGenerated := alertsGenerated (stats w) + n;
               apiCallsMade := apiCallsMade (stats w);
               errors := errors (stats w) |} w.

Definition generateAlerts (keywordIds : list Z) : M nat :=
  exec connect OpGenerateAlerts;
  do alertsCreated <- evaluate_keywords keywordIds 0;
  exec (if 0 <? alertsCreated then modify (add_alertsGenerated alertsCreated) else ret tt);
  ret alertsCreated.

(** *** trackKeywordsByPriority *)

Definition batch_succeeded (n : nat) (results : Results) : Results :=
  {| success := success results + n;
     failed_count := failed_count results;
     batch_errors := batch_errors results |}.

Definition batch_failed (n : nat) (e : BatchError) (results : Results) : Results :=
  {| success := success results;
     failed_count := failed_count results + n;
     batch_errors := Some (default [] (batch_errors results) ++ [e]) |}.

(** [for (let i = 0; i < keywords.length; i += batchSize) { ... }], entered
    at index [i]. Each iteration costs one unit of fuel; a batch size of
    zero never advances [i]. *)
Fixpoint batch_loop (fuel : nat) (keywords : list TrackedKeyword) (i : nat)
    (results : Results) : M Results :=
  if i <? length keywords then
    match fuel with
    | 0 => fun w => (OutOfFuel, w)
    | S fuel' =>
        let batch := take (batchSize config) (drop i keywords) in
        do results' <-
          try_catch
            (exec trackKeywordBatch batch;
             ret (batch_succeeded (length batch) results))
            (fun error =>
               ret (batch_failed (length batch)
                      {| be_batch := i / batchSize config + 1; be_error := error |}
                      results));
        exec (if i + batchSize config <? length keywords
              then sleep (delayBetweenBatches config) else ret tt);
        batch_loop fuel' keywords (i + batchSize config) results'
    end
  else ret results.

(** [fuel] bounds the number of batches the loop may start. *)
Definition trackKeywordsByPriority (fuel : nat) (priority projectId : option string)
  : M Results :=
  try_catch
    (do keywords <- getKeywordsToTrack priority projectId;
     if length keywords =? 0 then
       ret {| success := 0; failed_count := 0; batch_errors := None |}
     else
       do syncLogId <- createSyncLog "dataforseo" projectId (length keywords);
       do results <- batch_loop fuel keywords 0
                       {| success := 0; failed_count := 0; batch_errors := Some [] |};
       exec completeSyncLog syncLogId (success results) (failed_count results)
              (default [] (batch_errors results));
       exec generateAlerts (tk_id <$> keywords);
       ret results)
    (fun error => throw error).

End Tracker.

(** *** getStats and close *)

(** What [getStats] returns: the counters of [this.stats] and the number of
    cached lookups. ([uptime] is the age of the process, which is no part of
    the tracker's state.) *)
Record StatsReport := {
  report_stats : Stats;
  cacheSize : nat
}.

Definition getStats : M StatsReport :=
  do w <- get;
  ret {| report_stats := stats w; cacheSize := size (cache w) |}.

(** [await this.db.end(); this.cache.clear()]. *)
Definition close : M unit := modify (set_cache ∅).

(** ** The tracking script ([scripts/track-priority-keywords.js]) *)

(** What [parseArgs] hands to [main]. A value-taking option that comes last
    on the command line leaves [undefined] in its field. *)
Record Options := {
  opt_priority : option string;
  opt_project : option string;
  opt_dryRun : bool;
  opt_import : bool
}.

(** The options [parseArgs] starts from. *)
Definition default_options : Options :=
  {| opt_priority := Some "high"; opt_project := None;
     opt_dryRun := false; opt_import := false |}.

(** How the [try] block of [main] ends: by running to its end, or by a call
    of [process.exit], which skips the [finally] block. *)
Inductive Ending :=
  | RanToEnd
  | ProcessExit (code : Z).

Section Script.

Variable config : Config.
Variable http_post : nat -> SerpRequest -> HttpOutcome.
Variable storage_ok : StorageOp -> nat -> bool.
(** How [tracker.init()] ends: [None] when the configuration file was read
    and the database answered the test query, otherwise the message of the
    error it rethrows. *)
Variable init_error : option string.

Definition init : M bool :=
  match init_error with
  | Some e => throw e
  | None => ret true
  end.

(** The [else] branch of [main]: live tracking. *)
Definition live_tracking (fuel : nat) (options : Options) : M Ending :=
  do results <- trackKeywordsByPriority config http_post storage_ok fuel
                  (opt_priority options) (opt_project options);
  do report <- getStats;
  if 0 <? success results then ret RanToEnd   (* TRACKING COMPLETED SUCCESSFULLY *)
  else ret (ProcessExit 1).                   (* TRACKING COMPLETED WITH ERRORS *)

(** The dry run only prints the keywords that are due. *)
Definition dry_run (options : Options) : M Ending :=
  exec getKeywordsToTrack storage_ok (opt_priority options) (opt_project options);
  ret RanToEnd.

(** [main], after [parseArgs]; the result is the exit status of the process.
    The banner reads [options.priority.toUpperCase()] before the [try] block
    is entered, so an [undefined] priority rejects the promise of [main] and
    the [unhandledRejection] handler exits with status 1. *)
Definition main (fuel : nat) (options : Options) : M Z :=
  match opt_priority options with
  | None => ret 1%Z
  | Some _ =>
      do ending <-
        try_catch
          (exec init;
           exec (if opt_import options
                 then exec importKeywordsFromConfig config storage_ok (opt_project options);
                      ret tt
                 else ret tt);
           if opt_dryRun options then dry_run options
           else live_tracking fuel options)
          (fun error => ret (ProcessExit 1));
      match ending with
      | RanToEnd => exec close; ret 0%Z
      | ProcessExit code => ret code
      end
  end.

End Script.

(** ** Read-only views of [schema.sql] *)

(** *** v_latest_positions *)






(** ** Specification-side definitions *)

(** Modelled from the spec: the earlier observation of [recentChange], "the
    most recent position at-or-before [now - windowDays]". A row dated [D]
    is at or before that instant when [D <= date_of now - windowDays]. *)
Definition previous_position_by_spec (now windowDays keyword_id : Z) (d : Db)
  : option PositionRow :=
  latest (filter (fun r => (ph_date r <= date_of now - windowDays)%Z)
            (history_of keyword_id d)).


(** The same decision on a row of the view, with JavaScript's comparisons. *)
Definition expected_alert (config : Config) (change : PositionChange)
  : option AlertType :=
  if js_ge (position_change change) (critical_positionDrop config) then Some critical
  else if js_ge (position_change change) (warning_positionDrop config) then Some warning
  else if js_le (current_position change) (opportunity_enterTopN config)
          && js_gt (previous_position change) (opportunity_enterTopN config)
       then Some opportunity
  else None.

(** The alert that [createAlert] stores for a row of the view. *)
Definition alert_row (config : Config) (id keywordId : Z) (alertType : AlertType)
    (change : PositionChange) (now : Z) : Alert :=
  {| al_id := id; al_keyword_id := keywordId; al_alert_type := alertType;
     al_position_change := position_change change;
     al_old_position := previous_position change;
     al_new_position := current_position change;
     al_message := alert_message config alertType (position_change change);
     al_is_read := false; al_triggered_at := now |}.

(** What one pass of [generateAlerts] over [ids] is expected to append,
    starting with alert id [seq]. *)
Fixpoint expected_alerts (config : Config) (d : Db) (now seq : Z) (ids : list Z)
  : list Alert :=
  match ids with
  | [] => []
  | k :: rest =>
      match v_position_changes_7d k d with
      | change :: _ =>
          match expected_alert config change with
          | Some ty =>
              alert_row config seq k ty change now
                :: expected_alerts config d now (seq + 1)%Z rest
          | None => expected_alerts config d now seq rest
          end
      | [] => expected_alerts config d now seq rest
      end
  end.

(** The UNIQUE constraint of [tracked_keywords] as a property of its rows. *)
Definition unique_identities (rows : list TrackedKeyword) : Prop :=
  forall i j ri rj,
    rows !! i = Some ri -> rows !! j = Some rj ->
    same_identity ri rj = true -> i = j.

(** The statement "a SyncRun opened by this invocation is never left running". *)
Definition sync_run_never_left_running (before after : World) : Prop :=
  forall run,
    run ∈ sync_log (db after) -> run ∉ sync_log (db before) ->
    sl_status run <> running.

(** The statement "this invocation opened a SyncRun and closed it". *)
Definition sync_run_opened_and_closed (before after : World) : Prop :=
  exists run,
    run ∈ sync_log (db after) /\ (run ∉ sync_log (db before)) /\
    sl_status run = completed.

(** [keeps R m]: running [m] relates the state before to the state after by
    [R], whatever the outcome, and [m] does not run out of fuel. *)
Definition keeps (R : relation World) {A} (m : M A) : Prop :=
  forall w, R w (snd (m w)) /\ fst (m w) <> OutOfFuel.

(** The history only grows, and every new row carries device [dev]. *)
Definition history_grows_with (dev : string) (w w' : World) : Prop :=
  exists added,
    position_history (db w') = position_history (db w) ++ added
    /\ Forall (fun r => ph_device r = Some dev) added.

(** Nothing but [createSyncLog] and [completeSyncLog] touches the sync log. *)
Definition sync_log_untouched (w w' : World) : Prop :=
  sync_log (db w') = sync_log (db w) /\ sl_seq (db w') = sl_seq (db w).

(** What a lookup leaves alone apart from history rows and statistics. *)
Definition lookup_frame (w w' : World) : Prop :=
  cache w' = cache w /\ clock w' = clock w /\ cacheTimeout w' = cacheTimeout w
  /\ apiCallsMade (stats w') = apiCallsMade (stats w)
  /\ tk_id <$> tracked_keywords (db w') = tk_id <$> tracked_keywords (db w).

(** The row [savePosition] proposes, given the next id and the time. *)
Definition saved_row (config : Config) (keywordId : Z) (positionData : PositionData) (id now : Z)
  : PositionRow :=
  {| ph_id := id; ph_keyword_id := keywordId;
     ph_position := pd_position positionData; ph_url := pd_url positionData;
     ph_date := date_of now; ph_device := Some (ds_device config);
     ph_location := None; ph_serp_features := pd_serpFeatures positionData;
     ph_data_source := "dataforseo"; ph_raw_data := Some (pd_rawData positionData);
     ph_created_at := now |}.

(** What a pass over [ids] leaves behind: the expected alerts appended, the
    other tables and the clock untouched. *)
Definition alerts_appended (config : Config) (ids : list Z) (w w' : World) : Prop :=
  let added := expected_alerts config (db w) (clock w) (al_seq (db w)) ids in
  tracking_alerts (db w') = tracking_alerts (db w) ++ added
  /\ al_seq (db w') = (al_seq (db w) + Z.of_nat (length added))%Z
  /\ tracked_keywords (db w') = tracked_keywords (db w)
  /\ position_history (db w') = position_history (db w)
  /\ sync_log (db w') = sync_log (db w)
  /\ clock w' = clock w.

(** Every tracked keyword is stored with frequency daily or weekly, unless it
    is a row that was there before, unchanged. *)
Definition frequencies_daily_or_weekly (w w' : World) : Prop :=
  forall row,
    row ∈ tracked_keywords (db w') ->
    (tk_tracking_frequency row = "daily" \/ tk_tracking_frequency row = "weekly")
    \/ row ∈ tracked_keywords (db w).

(** *** Definitions for the further properties *)

(** The entries the outer loop of [importKeywordsFromConfig] walks over. *)
Definition import_entries (config : Config) (projectId : option string)
  : list (string * option Project) :=
  match projectId with
  | Some pid =>
      if truthy_str projectId then [(pid, assoc pid (projects config))]
      else prod_map id Some <$> projects config
  | None => prod_map id Some <$> projects config
  end.

(** The parameter arrays the three loops hand to the import statement, in
    the order of the configuration file. *)
Definition project_params (config : Config) (pid : string) (projectData : Project)
  : list NewKeyword :=
  flat_map (fun tier => import_params config pid projectData (fst tier) <$> snd tier)
    (p_keywords projectData).

Definition import_plan (config : Config) (projectId : option string) : list NewKeyword :=
  flat_map (fun entry =>
              match snd entry with
              | Some projectData => project_params config (fst entry) projectData
              | None => []
              end)
    (import_entries config projectId).

(** A run of successful upserts, one round trip each, with the counters. *)
Fixpoint import_steps (params : list NewKeyword) (counts : ImportResult) (w : World)
    (counts' : ImportResult) (w' : World) : Prop :=
  match params with
  | [] => counts' = counts /\ w' = w
  | p :: rest =>
      exists res d,
        upsert_tracked_keyword p (clock w) (db w) = (inr res, d)
        /\ import_steps rest (count_row (snd res) counts)
             (set_db d (count_storage_call w)) counts' w'
  end.

(** The columns of the UNIQUE constraint of [tracked_keywords]. *)
Definition identity_of (r : TrackedKeyword) : string * string * option string * option Z :=
  (tk_keyword r, tk_project_id r, tk_device r, tk_location_code r).

Definition identity_of_params (p : NewKeyword) : string * string * option string * option Z :=
  (nk_keyword p, nk_project_id p, nk_device p, nk_location_code p).

Definition params_keyed (p : NewKeyword) : Prop :=
  is_Some (nk_device p) /\ is_Some (nk_location_code p).

(** The columns of a tracked keyword that the import statement never
    rewrites. *)
Definition kept_columns (r : TrackedKeyword)
  : Z * string * string * option string * option Z * option string * option string
    * bool * Z :=
  (tk_id r, tk_keyword r, tk_project_id r, tk_project_name r, tk_location_code r,
   tk_location_name r, tk_device r, tk_is_active r, tk_created_at r).

(** [relates R m]: running [m] takes every state to an [R]-related one,
    whatever the outcome. *)
Definition relates (R : relation World) {A} (m : M A) : Prop :=
  forall w, R w (snd (m w)).

(** [this.stats.apiCallsMade++]. *)
Definition count_api_call (w : World) : World :=
  set_stats {| keywordsTracked := keywordsTracked (stats w);
               positionsUpdated := positionsUpdated (stats w);
               alertsGenerated := alertsGenerated (stats w);
               apiCallsMade := S (apiCallsMade (stats w));
               errors := errors (stats w) |} w.

(** What [n] lookups leave behind. *)
Definition accounted (n : nat) (w w' : World) : Prop :=
  exists rows errs,
    position_history (db w') = position_history (db w) ++ rows
    /\ errors (stats w') = errors (stats w) ++ errs
    /\ length rows <= n /\ length errs <= n /\ n <= length rows + length errs
    /\ apiCallsMade (stats w) <= apiCallsMade (stats w') <= apiCallsMade (stats w) + n
    /\ positionsUpdated (stats w) <= positionsUpdated (stats w')
    /\ positionsUpdated (stats w') + apiCallsMade (stats w)
       <= positionsUpdated (stats w) + apiCallsMade (stats w')
    /\ positionsUpdated (stats w') <= positionsUpdated (stats w) + length rows
    /\ size (cache w') + apiCallsMade (stats w)
       <= size (cache w) + apiCallsMade (stats w')
    /\ clock w' = clock w.

(** The place of a priority in [ORDER BY priority DESC]: as text,
    'medium' > 'low' > 'high'. *)
Definition priority_rank (priority : string) : nat :=
  if bool_decide (priority = "medium") then 0
  else if bool_decide (priority = "low") then 1
  else 2.

Definition known_priority (r : TrackedKeyword) : Prop :=
  tk_priority r ∈ ["high"; "medium"; "low"].

(** The feature a result item of a given type stands for. *)
Definition feature_labels : list (string * string) :=
  [ ("featured_snippet", "Featured Snippet"); ("local_pack", "Local Pack");
    ("people_also_ask", "People Also Ask"); ("images", "Image Pack");
    ("video", "Video Results") ].

(** A tracked keyword without its [updated_at]. *)
Definition forget_updated_at (r : TrackedKeyword) : TrackedKeyword :=
  {| tk_id := tk_id r; tk_keyword := tk_keyword r;
     tk_project_id := tk_project_id r; tk_project_name := tk_project_name r;
     tk_priority := tk_priority r; tk_search_volume := tk_search_volume r;
     tk_target_position := tk_target_position r;
     tk_tracking_frequency := tk_tracking_frequency r;
     tk_location_code := tk_location_code r;
     tk_location_name := tk_location_name r;
     tk_device := tk_device r; tk_is_active := tk_is_active r;
     tk_created_at := tk_created_at r; tk_updated_at := 0 |}.

(** The table of tracked keywords is the same but for [updated_at], and the
    constants of the tracker are untouched. *)
Definition keywords_kept (w w' : World) : Prop :=
  forget_updated_at <$> tracked_keywords (db w')
  = forget_updated_at <$> tracked_keywords (db w)
  /\ tk_seq (db w') = tk_seq (db w)
  /\ cacheTimeout w' = cacheTimeout w
  /\ keywordsTracked (stats w') = keywordsTracked (stats w).

(** Stored rows and recorded errors stay, new ones come after them; the
    counters do not go down and no cached entry is dropped. *)
Definition only_appended (w w' : World) : Prop :=
  position_history (db w) `prefix_of` position_history (db w')
  /\ tracking_alerts (db w) `prefix_of` tracking_alerts (db w')
  /\ sl_id <$> sync_log (db w) `prefix_of` sl_id <$> sync_log (db w')
  /\ errors (stats w) `prefix_of` errors (stats w')
  /\ apiCallsMade (stats w) <= apiCallsMade (stats w')
  /\ positionsUpdated (stats w) <= positionsUpdated (stats w')
  /\ alertsGenerated (stats w) <= alertsGenerated (stats w')
  /\ dom (cache w) ⊆ dom (cache w').

(** Positions are updated, and cache entries made, only after a provider
    call. *)
Definition within_calls (w w' : World) : Prop :=
  positionsUpdated (stats w') + apiCallsMade (stats w)
  <= positionsUpdated (stats w) + apiCallsMade (stats w')
  /\ size (cache w') + apiCallsMade (stats w)
     <= size (cache w) + apiCallsMade (stats w').

Definition same_clock (w w' : World) : Prop := clock w' = clock w.

(** What an alert says, as opposed to its id and the time it was raised. *)
Definition alert_content (a : Alert)
  : Z * AlertType * option Z * option Z * option Z * string :=
  (al_keyword_id a, al_alert_type a, al_position_change a,
   al_old_position a, al_new_position a, al_message a).

Definition same_alerts (w w' : World) : Prop :=
  tracking_alerts (db w') = tracking_alerts (db w).

Definition same_tracker (w w' : World) : Prop :=
  stats w' = stats w /\ cache w' = cache w /\ clock w' = clock w.

(** ** Sample data *)

Module Sample.

Definition keyword (k : string) : KeywordSpec :=
  {| kw_keyword := k; kw_searchVolume := Some 100%Z;
     kw_targetPosition := Some 3%Z; kw_trackingFrequency := None |}.

Definition project (tiers : list (string * list KeywordSpec)) : Project :=
  {| p_name := "Project P"; p_siteUrl := "sc-domain:example.com";
     p_location := Some {| loc_code := Some 2840%Z; loc_name := Some "United States" |};
     p_keywords := tiers |}.

Definition config_of (tiers : list (string * list KeywordSpec)) : Config :=
  {| projects := [("P", project tiers)];
     ds_locationCode := 2840; ds_locationName := "United States";
     ds_device := "desktop";
     batchSize := 10; delayBetweenBatches := 1000;
     critical_positionDrop := 10; warning_positionDrop := 5;
     opportunity_enterTopN := 20 |}.

(** Ten high-priority keywords. *)
Definition config : Config :=
  config_of [("high", keyword <$> ["k0"; "k1"; "k2"; "k3"; "k4";
                                   "k5"; "k6"; "k7"; "k8"; "k9"])].

(** A single keyword, as in the "best coffee" scenario. *)
Definition coffee : Config :=
  config_of [("high", [keyword "best coffee"])].

(** A well-formed DataForSEO answer ranking the project's site at [rank]. *)
Definition ranked (rank : Z) : HttpOutcome :=
  HttpResponse
    (Some [ {| task_status_code := 20000; task_status_message := "Ok.";
               task_result :=
                 Some [ {| sr_items :=
                             Some [ {| it_type := "organic";
                                       it_domain := Some "www.example.com";
                                       it_rank_absolute := Some rank;
                                       it_url := Some "https://www.example.com/" |} ] |} ] |} ]).

(** The provider answers every request with rank 7. *)
Definition provider_up (n : nat) (rq : SerpRequest) : HttpOutcome := ranked 7.

(** The provider rejects three of the ten keywords. *)
Definition provider_flaky (n : nat) (rq : SerpRequest) : HttpOutcome :=
  if bool_decide (rq_keyword rq ∈ ["k2"; "k5"; "k7"])
  then HttpFailed "Request failed with status code 429"
  else ranked 7.

(** The provider is down. *)
Definition provider_down (n : nat) (rq : SerpRequest) : HttpOutcome :=
  HttpFailed "timeout of 30000ms exceeded".

Definition storage_up (op : StorageOp) (n : nat) : bool := true.

(** The database is lost exactly when the sync log is to be closed. *)
Definition storage_lost_at_close (op : StorageOp) (n : nat) : bool :=
  match op with OpCompleteSyncLog => false | _ => true end.

Definition t0 : Z := 1700000000000.

(** The state after importing [cfg] into an empty database. *)
Definition imported_world (cfg : Config) : World :=
  snd (importKeywordsFromConfig cfg storage_up None (new_tracker empty_db t0)).

Definition observation (rank : Z) : PositionData :=
  {| pd_position := Some rank; pd_url := Some "https://www.example.com/";
     pd_serpFeatures := []; pd_rawData := {| sr_items := None |} |}.

(** A history row for keyword 1 as [savePosition] writes it. *)
Definition history_row (id rank date : Z) : PositionRow :=
  {| ph_id := id; ph_keyword_id := 1; ph_position := Some rank;
     ph_url := None; ph_date := date; ph_device := Some "desktop";
     ph_location := None; ph_serp_features := [];
     ph_data_source := "dataforseo"; ph_raw_data := None;
     ph_created_at := (date * ms_per_day)%Z |}.

(** The coffee keyword with two observations a week apart. *)
Definition world_with_history (old_rank new_rank : Z) : World :=
  let w := imported_world coffee in
  set_db (set_position_history
            [history_row 1 old_rank (date_of t0 - 7); history_row 2 new_rank (date_of t0)]
            3 (db w)) w.

(** A keyword tracked on mobile, as the setup wizard or a manual insert
    may store it, in an otherwise empty database. *)
Definition mobile_params : NewKeyword :=
  {| nk_keyword := "best coffee"; nk_project_id := "P";
     nk_project_name := Some "Project P"; nk_priority := "high";
     nk_search_volume := Some 100%Z; nk_target_position := Some 3%Z;
     nk_tracking_frequency := "daily"; nk_location_code := Some 2840%Z;
     nk_location_name := Some "United States"; nk_device := Some "mobile";
     nk_is_active := true |}.

Definition mobile_world : World :=
  new_tracker (snd (upsert_tracked_keyword mobile_params t0 empty_db)) t0.

(** The row the import stores for the coffee keyword. *)
Definition coffee_row : TrackedKeyword :=
  {| tk_id := 1; tk_keyword := "best coffee"; tk_project_id := "P";
     tk_project_name := Some "Project P"; tk_priority := "high";
     tk_search_volume := Some 100%Z; tk_target_position := Some 3%Z;
     tk_tracking_frequency := "daily"; tk_location_code := Some 2840%Z;
     tk_location_name := Some "United States"; tk_device := Some "desktop";
     tk_is_active := true; tk_created_at := t0; tk_updated_at := t0 |}.

(** Ten minutes before midnight (UTC) of day 19675. *)
Definition late_evening : Z := (19676 * ms_per_day - 600000)%Z.

(** A configuration whose second tier is not one the schema allows. *)
Definition bad_tier : Config :=
  config_of [("high", [keyword "a"]); ("urgent", [keyword "b"])].


(** The provider answers, but the project's site is not among the results. *)
Definition provider_elsewhere (n : nat) (rq : SerpRequest) : HttpOutcome :=
  HttpResponse
    (Some [ {| task_status_code := 20000; task_status_message := "Ok.";
               task_result :=
                 Some [ {| sr_items :=
                             Some [ {| it_type := "organic";
                                       it_domain := Some "www.other.org";
                                       it_rank_absolute := Some 1%Z;
                                       it_url := Some "https://www.other.org/" |} ] |} ] |} ]).

(** One keyword in each tier. *)
Definition mixed_tiers : Config :=
  config_of [("high", [keyword "a"]); ("medium", [keyword "b"]); ("low", [keyword "c"])].

(** The database rejects every statement of the alert pass. *)
Definition storage_lost_at_alerts (op : StorageOp) (n : nat) : bool :=
  match op with OpGenerateAlerts => false | _ => true end.

(** The coffee keyword with one observation only, made today. *)
Definition world_with_one_observation (rank : Z) : World :=
  let w := imported_world coffee in
  set_db (set_position_history [history_row 1 rank (date_of t0)] 2 (db w)) w.

(** The coffee keyword, last seen at [old_rank] a week ago and not found in
    today's results. *)
Definition world_with_lost_keyword (old_rank : Z) : World :=
  let w := imported_world coffee in
  set_db (set_position_history
            [history_row 1 old_rank (date_of t0 - 7);
             {| ph_id := 2; ph_keyword_id := 1; ph_position := None;
                ph_url := None; ph_date := date_of t0; ph_device := Some "desktop";
                ph_location := None; ph_serp_features := [];
                ph_data_source := "dataforseo"; ph_raw_data := None;
                ph_created_at := t0 |}]
            3 (db w)) w.

(** The coffee keyword, seen at [old_rank] twenty days ago and at
    [new_rank] ten days ago, and not since. *)
Definition world_with_old_history (old_rank new_rank : Z) : World :=
  let w := Sample.imported_world Sample.coffee in
  set_db (set_position_history
            [Sample.history_row 1 old_rank (date_of Sample.t0 - 20);
             Sample.history_row 2 new_rank (date_of Sample.t0 - 10)]
            3 (db w)) w.
End Sample.

(** ** Properties *)

(** *** Rows and statements *)

Lemma update_first_none {A} (conflicts : A -> bool) (f : A -> A) (l : list A) :
  (forall r, r ∈ l -> conflicts r = false) ->
  update_first conflicts f l = None.
Proof.
  induction l as [|r l IH]; intros H; simpl; [done|].
  rewrite (H r) by left.
  rewrite IH; [done|]. intros r' Hr'. apply H. by right.
Qed.

Lemma update_first_none_inv {A} (conflicts : A -> bool) (f : A -> A) (l : list A) :
  update_first conflicts f l = None ->
  forall r, r ∈ l -> conflicts r = false.
Proof.
  induction l as [|x l IH]; intros H r Hr; simpl in H.
  - by apply elem_of_nil in Hr.
  - destruct (conflicts x) eqn:Hx; [done|].
    destruct (update_first conflicts f l) as [[]|] eqn:Hl; [done|].
    apply elem_of_cons in Hr as [->|Hr]; [done|]. by apply IH.
Qed.

Lemma update_first_at {A} (conflicts : A -> bool) (f : A -> A) (l : list A) i r :
  l !! i = Some r ->
  conflicts r = true ->
  (forall j rj, j < i -> l !! j = Some rj -> conflicts rj = false) ->
  update_first conflicts f l = Some (<[i := f r]> l, f r).
Proof.
  revert i. induction l as [|x l IH]; intros i Hi Hc Hbefore; [done|].
  destruct i as [|i]; simpl in *.
  - injection Hi as ->. by rewrite Hc.
  - rewrite (Hbefore 0 x) by (done || lia).
    rewrite (IH i Hi Hc); [done|].
    intros j rj Hj Hrj. apply (Hbefore (S j) rj); [lia|done].
Qed.

Lemma update_first_some {A} (conflicts : A -> bool) (f : A -> A) (l l' : list A) r' :
  update_first conflicts f l = Some (l', r') ->
  exists i r, l !! i = Some r /\ conflicts r = true /\ r' = f r /\ l' = <[i := f r]> l.
Proof.
  revert l'. induction l as [|x l IH]; intros l' H; simpl in H; [done|].
  destruct (conflicts x) eqn:Hx.
  - injection H as <- <-. by exists 0, x.
  - destruct (update_first conflicts f l) as [[l'' r'']|] eqn:Hrec; [|done].
    injection H as <- <-.
    destruct (IH l'' eq_refl) as (i & r & Hi & Hc & -> & ->).
    by exists (S i), r.
Qed.

(** A proposed observation never collides with a stored one: [savePosition]
    leaves [location] NULL, and NULLs are distinct under the constraint. *)
Lemma same_observation_null_location (row r : PositionRow) :
  ph_location row = None -> same_observation row r = false.
Proof.
  intros H. unfold same_observation. rewrite H. simpl.
  by rewrite !andb_false_r.
Qed.

(** The statement of [savePosition] therefore always takes its INSERT arm. *)
Lemma upsert_position_appends keyword_id position url date device features source raw now d :
  let row := {| ph_id := ph_seq d; ph_keyword_id := keyword_id; ph_position := position;
                ph_url := url; ph_date := date; ph_device := device; ph_location := None;
                ph_serp_features := features; ph_data_source := source;
                ph_raw_data := raw; ph_created_at := now |} in
  upsert_position keyword_id position url date device features source raw now d
  = if position_row_checks row d
    then (inr tt, set_position_history (position_history d ++ [row]) (ph_seq d + 1) d)
    else (inl "violates constraint", set_position_history (position_history d) (ph_seq d + 1) d).
Proof.
  intros row. unfold upsert_position. fold row.
  destruct (position_row_checks row d); simpl; [|done].
  rewrite update_first_none; [done|].
  intros r _. by apply same_observation_null_location.
Qed.

Lemma same_identity_true (a b : TrackedKeyword) :
  same_identity a b = true ->
  tk_keyword a = tk_keyword b /\ tk_project_id a = tk_project_id b /\
  (exists dv, tk_device a = Some dv /\ tk_device b = Some dv) /\
  (exists lc, tk_location_code a = Some lc /\ tk_location_code b = Some lc).
Proof.
  unfold same_identity, unique_col_eq. intros H.
  repeat (apply andb_prop in H as [H ?]).
  destruct (tk_device a) as [da|], (tk_device b) as [db|]; try done.
  destruct (tk_location_code a) as [la|], (tk_location_code b) as [lb|]; try done.
  repeat match goal with
         | H : bool_decide _ = true |- _ => apply bool_decide_eq_true in H
         end.
  simplify_eq. eauto 10.
Qed.

Lemma same_identity_sym (a b : TrackedKeyword) :
  same_identity a b = same_identity b a.
Proof.
  unfold same_identity, unique_col_eq.
  destruct (tk_device a), (tk_device b), (tk_location_code a), (tk_location_code b);
    simpl; f_equal; try (f_equal; try f_equal); apply bool_decide_ext; naive_solver.
Qed.

(** Conflict detection only reads the identity columns. *)
Lemma same_identity_ext_r (a b b' : TrackedKeyword) :
  tk_keyword b = tk_keyword b' -> tk_project_id b = tk_project_id b' ->
  tk_device b = tk_device b' -> tk_location_code b = tk_location_code b' ->
  same_identity a b = same_identity a b'.
Proof. unfold same_identity. by intros -> -> -> ->. Qed.

Lemma same_identity_ext_l (a a' b : TrackedKeyword) :
  tk_keyword a = tk_keyword a' -> tk_project_id a = tk_project_id a' ->
  tk_device a = tk_device a' -> tk_location_code a = tk_location_code a' ->
  same_identity a b = same_identity a' b.
Proof. unfold same_identity. by intros -> -> -> ->. Qed.

Lemma same_identity_trans (a b c : TrackedKeyword) :
  same_identity a b = true -> same_identity b c = true -> same_identity a c = true.
Proof.
  intros Hab Hbc.
  destruct (same_identity_true _ _ Hab) as (Hk & Hp & (dv & Hd1 & Hd2) & (lc & Hl1 & Hl2)).
  rewrite <- Hbc. apply same_identity_ext_l; congruence.
Qed.

Lemma unique_identities_nil : unique_identities [].
Proof. intros i j ri rj Hi. by rewrite lookup_nil in Hi. Qed.

(** The import statement maintains the UNIQUE constraint. *)
Lemma upsert_preserves_unique_identities (p : NewKeyword) (now : Z) (d : Db) :
  unique_identities (tracked_keywords d) ->
  unique_identities (tracked_keywords (snd (upsert_tracked_keyword p now d))).
Proof.
  intros Huniq. unfold upsert_tracked_keyword.
  set (row := proposed_keyword p (tk_seq d) now).
  destruct (tracked_keyword_checks row); simpl; [|done].
  destruct (update_first _ _ _) as [[rows updated]|] eqn:Hup; simpl.
  - apply update_first_some in Hup as (i & r & Hi & Hc & -> & ->).
    assert (Hkeep : forall x, same_identity x (apply_excluded row now r) = same_identity x r)
      by (intros x; by apply same_identity_ext_r).
    intros a b ra rb Ha Hb Hsame.
    assert (Hat : forall n x, <[i := apply_excluded row now r]> (tracked_keywords d) !! n = Some x ->
              exists y, tracked_keywords d !! n = Some y /\ forall z, same_identity z x = same_identity z y).
    { intros n x Hn. destruct (decide (n = i)) as [->|Hne].
      - rewrite list_lookup_insert_eq in Hn by (by eapply lookup_lt_Some).
        injection Hn as <-. eauto.
      - rewrite list_lookup_insert_ne in Hn by done. eauto. }
    destruct (Hat _ _ Ha) as (ya & Hya & Hsa), (Hat _ _ Hb) as (yb & Hyb & Hsb).
    apply (Huniq a b ya yb Hya Hyb).
    rewrite <- Hsb, same_identity_sym, <- Hsa, same_identity_sym. done.
  - intros a b ra rb Ha Hb Hsame.
    pose proof (update_first_none_inv _ _ _ Hup) as Hfresh.
    apply lookup_snoc_Some in Ha as [[Hla Ha]|[-> <-]];
      apply lookup_snoc_Some in Hb as [[Hlb Hb]|[-> <-]]; try done.
    + by eapply Huniq.
    + rewrite same_identity_sym, Hfresh in Hsame; [done|].
      apply list_elem_of_lookup. eauto.
    + rewrite Hfresh in Hsame; [done|]. apply list_elem_of_lookup. eauto.
Qed.

(** C6. Re-upserting a tracked keyword whose identity tuple (keyword, project,
    device, location) is already stored takes the update arm: the stored row
    keeps its place, id and creation timestamp, takes over the new priority,
    search volume, target position and tracking frequency, no row is added,
    and the statement reports [inserted = false]. *)
Theorem C6_reupsert_updates_existing_row
    (p : NewKeyword) (now : Z) (d : Db) (i : nat) (r : TrackedKeyword) :
  tracked_keywords d !! i = Some r ->
  tk_keyword r = nk_keyword p ->
  tk_project_id r = nk_project_id p ->
  tk_device r = nk_device p -> is_Some (nk_device p) ->
  tk_location_code r = nk_location_code p -> is_Some (nk_location_code p) ->
  unique_identities (tracked_keywords d) ->
  tracked_keyword_checks (proposed_keyword p (tk_seq d) now) = true ->
  let r' := {| tk_id := tk_id r;
               tk_keyword := tk_keyword r;
               tk_project_id := tk_project_id r;
               tk_project_name := tk_project_name r;
               tk_priority := nk_priority p;
               tk_search_volume := nk_search_volume p;
               tk_target_position := nk_target_position p;
               tk_tracking_frequency := nk_tracking_frequency p;
               tk_location_code := tk_location_code r;
               tk_location_name := tk_location_name r;
               tk_device := tk_device r;
               tk_is_active := tk_is_active r;
               tk_created_at := tk_created_at r;
               tk_updated_at := now |} in
  upsert_tracked_keyword p now d
  = (inr (tk_id r, false),
     set_tracked_keywords (<[i := r']> (tracked_keywords d)) (tk_seq d + 1) d)
  /\ length (<[i := r']> (tracked_keywords d)) = length (tracked_keywords d)
  /\ (forall j, j <> i -> <[i := r']> (tracked_keywords d) !! j = tracked_keywords d !! j).
Proof.
  intros Hi Hk Hp Hd [dv Hdv] Hl [lc Hlc] Huniq Hchecks r'.
  set (row := proposed_keyword p (tk_seq d) now) in *.
  assert (Hsame : same_identity row r = true).
  { unfold same_identity, row. simpl. rewrite Hk, Hp, Hd, Hl, Hdv, Hlc. simpl.
    by rewrite !bool_decide_eq_true_2. }
  split; [|split].
  - unfold upsert_tracked_keyword. fold row. rewrite Hchecks. simpl.
    rewrite (update_first_at _ _ _ i r Hi Hsame).
    + done.
    + intros j rj Hj Hrj. destruct (same_identity row rj) eqn:Hc; [|done].
      exfalso. assert (j = i); [|lia].
      apply (Huniq j i rj r Hrj Hi).
      eapply same_identity_trans; [|exact Hsame]. by rewrite same_identity_sym.
  - apply length_insert.
  - intros j Hj. by apply list_lookup_insert_ne.
Qed.

(** C6, witness: the imported "best coffee" row is re-upserted with another
    priority, frequency and target. *)
Lemma C6_reupsert_witness :
  let d := db (Sample.imported_world Sample.coffee) in
  let p := {| nk_keyword := "best coffee"; nk_project_id := "P";
              nk_project_name := Some "Renamed"; nk_priority := "low";
              nk_search_volume := Some 50%Z; nk_target_position := Some 1%Z;
              nk_tracking_frequency := "weekly"; nk_location_code := Some 2840%Z;
              nk_location_name := None; nk_device := Some "desktop";
              nk_is_active := true |} in
  exists r updated,
    tracked_keywords d = [r]
    /\ fst (upsert_tracked_keyword p (Sample.t0 + 5000) d) = inr (1%Z, false)
    /\ tracked_keywords (snd (upsert_tracked_keyword p (Sample.t0 + 5000) d)) = [updated]
    /\ (tk_priority r, tk_tracking_frequency r, tk_target_position r)
       = ("high", "daily", Some 3%Z)
    /\ (tk_priority updated, tk_tracking_frequency updated, tk_target_position updated)
       = ("low", "weekly", Some 1%Z)
    /\ tk_created_at updated = tk_created_at r.
Proof.
  intros d p.
  assert (Hd : exists r, tracked_keywords d = [r]
                 /\ (tk_id r, tk_priority r, tk_tracking_frequency r, tk_target_position r)
                    = (1%Z, "high", "daily", Some 3%Z)
                 /\ tk_keyword r = nk_keyword p /\ tk_project_id r = nk_project_id p
                 /\ tk_device r = nk_device p /\ tk_location_code r = nk_location_code p).
  { eexists. vm_compute. repeat split; reflexivity. }
  destruct Hd as (r & Hrows & Hvals & Hk & Hp & Hdv & Hlc).
  assert (Hi : tracked_keywords d !! 0 = Some r) by (by rewrite Hrows).
  assert (Huniq : unique_identities (tracked_keywords d)).
  { rewrite Hrows. intros [|i] [|j] ri rj; simpl; try done; by rewrite ?lookup_nil. }
  destruct (C6_reupsert_updates_existing_row p (Sample.t0 + 5000) d 0 r
              Hi Hk Hp Hdv (mk_is_Some _ _ eq_refl) Hlc (mk_is_Some _ _ eq_refl) Huniq eq_refl)
    as (Hup & _ & _).
  eexists r, _. rewrite Hup, Hrows. simpl.
  injection Hvals as Hid Hpr Hfr Htg.
  repeat split; try reflexivity; congruence.
Defined.

(** *** Stepping through computations *)

Lemma bind_returned {A B} (m : M A) (k : A -> M B) w a w1 :
  m w = (Returned a, w1) -> bind m k w = k a w1.
Proof. intros H. unfold bind. by rewrite H. Qed.

Lemma bind_thrown {A B} (m : M A) (k : A -> M B) w e w1 :
  m w = (Thrown e, w1) -> bind m k w = (Thrown e, w1).
Proof. intros H. unfold bind. by rewrite H. Qed.

Lemma bind_returned_inv {A B} (m : M A) (k : A -> M B) w b w' :
  bind m k w = (Returned b, w') ->
  exists a w1, m w = (Returned a, w1) /\ k a w1 = (Returned b, w').
Proof.
  unfold bind. destruct (m w) as [[a| |] w1]; intros H; try done. eauto.
Qed.

Lemma bind_get {B} (k : World -> M B) w : bind get k w = k w w.
Proof. done. Qed.

Lemma bind_ret {A B} (a : A) (k : A -> M B) w : bind (ret a) k w = k a w.
Proof. done. Qed.

Lemma bind_modify {B} (f : World -> World) (k : unit -> M B) w :
  bind (modify f) k w = k tt (f w).
Proof. done. Qed.

(** *** Frame reasoning for computations *)

Section Frame.

Context (R : relation World) `{!PreOrder R}.

Lemma keeps_ret {A} (a : A) : keeps R (ret a).
Proof. intros w. by split. Qed.

Lemma keeps_throw {A} (e : string) : keeps R (@throw A e).
Proof. intros w. by split. Qed.

Lemma keeps_get : keeps R get.
Proof. intros w. by split. Qed.

Lemma keeps_modify (f : World -> World) :
  (forall w, R w (f w)) -> keeps R (modify f).
Proof. intros H w. by split; [apply H|]. Qed.

Lemma keeps_bind {A B} (m : M A) (k : A -> M B) :
  keeps R m -> (forall a, keeps R (k a)) -> keeps R (bind m k).
Proof.
  intros Hm Hk w. unfold bind.
  destruct (Hm w) as [HR Hfuel]. destruct (m w) as [[a| |] w']; simpl in *; try done.
  destruct (Hk a w') as [HR' Hfuel']. split; [|done]. by etrans.
Qed.

Lemma keeps_try_catch {A} (m : M A) (handler : string -> M A) :
  keeps R m -> (forall e, keeps R (handler e)) -> keeps R (try_catch m handler).
Proof.
  intros Hm Hh w. unfold try_catch.
  destruct (Hm w) as [HR Hfuel]. destruct (m w) as [[a| |] w']; simpl in *; try done.
  destruct (Hh message w') as [HR' Hfuel']. split; [|done]. by etrans.
Qed.

Lemma keeps_if {A} (b : bool) (m1 m2 : M A) :
  keeps R m1 -> keeps R m2 -> keeps R (if b then m1 else m2).
Proof. by destruct b. Qed.

Context (config : Config) (http_post : nat -> SerpRequest -> HttpOutcome)
        (storage_ok : StorageOp -> nat -> bool).

Hypothesis R_count : forall w, R w (count_storage_call w).
Hypothesis R_stats : forall s w, R w (set_stats s w).
Hypothesis R_cache : forall c w, R w (set_cache c w).
Hypothesis R_clock : forall t w, R w (set_clock t w).
Hypothesis R_touch : forall id now w,
  R w (set_db (snd (touch_tracked_keyword id now (db w))) w).
Hypothesis R_alert : forall k ty change old new message now w,
  R w (set_db (snd (insert_alert k ty change old new message now (db w))) w).
Hypothesis R_position : forall k position url date features source raw now w,
  R w (set_db (snd (upsert_position k position url date (Some (ds_device config))
                      features source raw now (db w))) w).
Hypothesis R_same_db : forall w, R w (set_db (db w) w).

Lemma keeps_storage_call op : keeps R (storage_call storage_ok op).
Proof.
  intros w. unfold storage_call. destruct (storage_ok op _); simpl; by split.
Qed.

Lemma keeps_query {A} op (stmt : Sql A) :
  (forall w, R w (set_db (snd (stmt (db w))) w)) ->
  keeps R (query storage_ok op stmt).
Proof.
  intros H. apply keeps_bind; [apply keeps_storage_call|].
  intros _ w. specialize (H w). destruct (stmt (db w)) as [[e|a] d]; by split.
Qed.

Lemma keeps_read {A} op (f : Db -> A) :
  keeps R (query storage_ok op (fun d => (inr (f d), d))).
Proof. apply keeps_query. intros w. apply R_same_db. Qed.

Lemma keeps_sleep ms : keeps R (sleep ms).
Proof. apply keeps_modify. intros w. apply R_clock. Qed.

Lemma keeps_savePosition keywordId positionData :
  keeps R (savePosition config storage_ok keywordId positionData).
Proof.
  unfold savePosition, connect.
  apply keeps_bind; [apply keeps_storage_call|intros _].
  apply keeps_bind; [apply keeps_read|intros prev].
  apply keeps_bind; [apply keeps_get|intros w0].
  apply keeps_bind; [apply keeps_query; intros w; apply R_position|intros _].
  apply keeps_bind; [apply keeps_query; intros w; apply R_touch|intros _].
  apply keeps_ret.
Qed.

Lemma keeps_fetchPosition keyword locationCode device :
  keeps R (fetchPositionFromDataForSEO config http_post keyword locationCode device).
Proof.
  unfold fetchPositionFromDataForSEO.
  apply keeps_bind; [apply keeps_get|intros w0].
  apply keeps_bind; [apply keeps_modify; intros w; apply R_stats|intros _].
  destruct (http_post _ _) as [e|[[|task tasks]|]];
    try apply keeps_throw.
  destruct (negb _); [apply keeps_throw|].
  destruct (task_result task) as [[|result results]|];
    try apply keeps_throw.
  apply keeps_ret.
Qed.

Lemma keeps_fetch_and_save keyword :
  keeps R (fetch_and_save config http_post storage_ok keyword).
Proof.
  unfold fetch_and_save.
  apply keeps_bind; [apply keeps_fetchPosition|intros position].
  apply keeps_bind; [apply keeps_modify; intros w; apply R_cache|intros _].
  apply keeps_bind; [apply keeps_savePosition|intros _].
  apply keeps_modify. intros w. apply R_stats.
Qed.

Lemma keeps_track_keyword keyword :
  keeps R (track_keyword config http_post storage_ok keyword).
Proof.
  unfold track_keyword.
  apply keeps_bind; [apply keeps_get|intros w0].
  destruct (cache w0 !! _) as [cached|]; [|apply keeps_fetch_and_save].
  destruct (_ <? _)%Z; [|apply keeps_fetch_and_save].
  apply keeps_bind; [apply keeps_savePosition|intros _]. apply keeps_ret.
Qed.

Lemma keeps_trackKeywordBatch keywords :
  keeps R (trackKeywordBatch config http_post storage_ok keywords).
Proof.
  induction keywords as [|keyword rest IH]; simpl; [apply keeps_ret|].
  apply keeps_bind; [|by intros _].
  apply keeps_try_catch; [apply keeps_track_keyword|].
  intros e. apply keeps_modify. intros w. apply R_stats.
Qed.

Lemma keeps_createAlert keywordId alertType positionChange changeData :
  keeps R (createAlert config storage_ok keywordId alertType positionChange changeData).
Proof.
  unfold createAlert, connect.
  apply keeps_bind; [apply keeps_storage_call|intros _].
  apply keeps_bind; [apply keeps_get|intros w0].
  apply keeps_query. intros w. apply R_alert.
Qed.

Lemma keeps_evaluate_keyword keywordId alertsCreated :
  keeps R (evaluate_keyword config storage_ok keywordId alertsCreated).
Proof.
  unfold evaluate_keyword.
  apply keeps_bind; [apply keeps_read|intros [|change rows]]; [apply keeps_ret|].
  repeat (apply keeps_if;
          [apply keeps_bind; [apply keeps_createAlert|intros _; apply keeps_ret]|]).
  apply keeps_ret.
Qed.

Lemma keeps_evaluate_keywords keywordIds alertsCreated :
  keeps R (evaluate_keywords config storage_ok keywordIds alertsCreated).
Proof.
  revert alertsCreated.
  induction keywordIds as [|k rest IH]; intros n; simpl; [apply keeps_ret|].
  apply keeps_bind; [apply keeps_evaluate_keyword|by intros n'].
Qed.

Lemma keeps_generateAlerts keywordIds :
  keeps R (generateAlerts config storage_ok keywordIds).
Proof.
  unfold generateAlerts, connect.
  apply keeps_bind; [apply keeps_storage_call|intros _].
  apply keeps_bind; [apply keeps_evaluate_keywords|intros n].
  apply keeps_bind; [|intros _; apply keeps_ret].
  apply keeps_if; [|apply keeps_ret].
  apply keeps_modify. intros w. apply R_stats.
Qed.

(** The per-keyword handler swallows every exception: a batch always
    runs to its end and returns. *)
Lemma trackKeywordBatch_returns keywords w :
  exists w',
    trackKeywordBatch config http_post storage_ok keywords w = (Returned tt, w')
    /\ R w w'.
Proof.
  revert w. induction keywords as [|keyword rest IH]; intros w; simpl.
  { exists w. by split. }
  destruct (keeps_track_keyword keyword w) as [HR Hfuel].
  assert (Hstep : exists w1,
            try_catch (track_keyword config http_post storage_ok keyword)
              (fun error =>
                 modify (push_keyword_error
                           {| ke_keyword := tk_keyword keyword; ke_error := error |})) w
            = (Returned tt, w1) /\ R w w1).
  { unfold try_catch.
    destruct (track_keyword config http_post storage_ok keyword w) as [[[]|e|] w1];
      simpl in *; [by eauto| |done].
    eexists. split; [reflexivity|]. etrans; [exact HR|]. apply R_stats. }
  destruct Hstep as (w1 & Hstep & HR1). destruct (IH w1) as (w' & Hrest & HR').
  exists w'. rewrite (bind_returned _ _ _ _ _ Hstep). split; [done|]. by etrans.
Qed.

(** With a positive batch size the loop over the batches ends within
    [length keywords - i] iterations, and since no batch ever throws, every
    keyword of every batch is counted as a success. *)
Lemma batch_loop_returns fuel keywords i results w :
  0 < batchSize config ->
  length keywords - i <= fuel ->
  exists w',
    batch_loop config http_post storage_ok fuel keywords i results w
    = (Returned {| success := success results + (length keywords - i);
                   failed_count := failed_count results;
                   batch_errors := batch_errors results |}, w')
    /\ R w w'.
Proof.
  intros Hsize. revert i results w.
  induction fuel as [|fuel IH]; intros i results w Hfuel.
  - exists w. simpl. rewrite (proj2 (Nat.ltb_ge _ _)) by lia.
    replace (length keywords - i) with 0 by lia.
    destruct results. simpl. by rewrite Nat.add_0_r.
  - simpl. destruct (i <? length keywords) eqn:Hlt.
    2:{ apply Nat.ltb_ge in Hlt. exists w.
        replace (length keywords - i) with 0 by lia.
        destruct results. simpl. by rewrite Nat.add_0_r. }
    apply Nat.ltb_lt in Hlt.
    set (batch := take (batchSize config) (drop i keywords)).
    destruct (trackKeywordBatch_returns batch w) as (w1 & Hbatch & HR1).
    erewrite bind_returned; cycle 1.
    { unfold try_catch. rewrite (bind_returned _ _ _ _ _ Hbatch). reflexivity. }
    assert (Hsleep : exists w2,
              (if i + batchSize config <? length keywords
               then sleep (delayBetweenBatches config) else ret tt) w1
              = (Returned tt, w2) /\ R w1 w2).
    { destruct (_ <? _); eexists; (split; [reflexivity|]); [apply R_clock|done]. }
    destruct Hsleep as (w2 & Hsleep & HR2).
    rewrite (bind_returned _ _ _ _ _ Hsleep).
    destruct (IH (i + batchSize config) (batch_succeeded (length batch) results) w2)
      as (w' & Hloop & HR'); [lia|].
    exists w'. rewrite Hloop. split; [|by do 2 (etrans; [eassumption|])].
    assert (Hsum : success results + length batch
                          + (length keywords - (i + batchSize config))
                   = success results + (length keywords - i)).
    { unfold batch. rewrite length_take, length_drop. lia. }
    unfold batch_succeeded. simpl. by rewrite Hsum.
Qed.

End Frame.

(** *** History rows and the device column *)

#[global] Instance history_grows_with_preorder dev : PreOrder (history_grows_with dev).
Proof.
  split.
  - intros w. exists []. by rewrite app_nil_r.
  - intros w1 w2 w3 (a1 & H1 & F1) (a2 & H2 & F2). exists (a1 ++ a2).
    rewrite H2, H1, app_assoc. split; [done|]. by apply Forall_app.
Qed.

Lemma history_grows_same dev (w w' : World) :
  position_history (db w') = position_history (db w) -> history_grows_with dev w w'.
Proof. intros H. exists []. by rewrite app_nil_r. Qed.

Lemma history_grows_position dev k position url date features source raw now w :
  history_grows_with dev w
    (set_db (snd (upsert_position k position url date (Some dev)
                    features source raw now (db w))) w).
Proof.
  rewrite upsert_position_appends. destruct (position_row_checks _ _); simpl.
  - eexists [_]. split; [done|]. by repeat constructor.
  - by apply history_grows_same.
Qed.

Lemma insert_alert_history k ty change old new message now d :
  position_history (snd (insert_alert k ty change old new message now d))
  = position_history d.
Proof. unfold insert_alert. by destruct (bool_decide _). Qed.

Lemma insert_alert_keywords k ty change old new message now d :
  tracked_keywords (snd (insert_alert k ty change old new message now d))
  = tracked_keywords d.
Proof. unfold insert_alert. by destruct (bool_decide _). Qed.

Lemma insert_alert_sync_log k ty change old new message now d :
  sync_log (snd (insert_alert k ty change old new message now d)) = sync_log d
  /\ sl_seq (snd (insert_alert k ty change old new message now d)) = sl_seq d.
Proof. unfold insert_alert. by destruct (bool_decide _). Qed.

(** The mobile keyword of the sample: its lookup is made for mobile, and the
    row written for it says desktop. *)
Example mobile_keyword_saved_as_desktop :
  let w := Sample.mobile_world in
  let w' := snd (trackKeywordBatch Sample.coffee Sample.provider_up Sample.storage_up
                   (tracked_keywords (db w)) w) in
  (tk_device <$> tracked_keywords (db w)) = [Some "mobile"]
  /\ (ph_keyword_id <$> position_history (db w')) = [1%Z]
  /\ (ph_device <$> position_history (db w')) = [Some "desktop"].
Proof. vm_compute. repeat split; reflexivity. Qed.

Section Steps.

Context (config : Config) (http_post : nat -> SerpRequest -> HttpOutcome)
        (storage_ok : StorageOp -> nat -> bool).

Lemma storage_call_up op w :
  storage_ok op (storage_calls w) = true ->
  storage_call storage_ok op w = (Returned tt, count_storage_call w).
Proof. intros H. unfold storage_call. by rewrite H. Qed.

Lemma storage_call_down op w :
  storage_ok op (storage_calls w) = false ->
  storage_call storage_ok op w
  = (Thrown "Connection terminated unexpectedly", count_storage_call w).
Proof. intros H. unfold storage_call. by rewrite H. Qed.

Lemma storage_call_returned_inv op w u w' :
  storage_call storage_ok op w = (Returned u, w') ->
  storage_ok op (storage_calls w) = true /\ w' = count_storage_call w.
Proof.
  unfold storage_call. destruct (storage_ok op _); intros H; by simplify_eq.
Qed.

Lemma query_up {A} op (stmt : Sql A) w :
  storage_ok op (storage_calls w) = true ->
  query storage_ok op stmt w
  = match stmt (db w) with
    | (inr a, d) => (Returned a, set_db d (count_storage_call w))
    | (inl e, d) => (Thrown e, set_db d (count_storage_call w))
    end.
Proof.
  intros H. unfold query. rewrite (bind_returned _ _ _ _ _ (storage_call_up op w H)).
  done.
Qed.

Lemma query_returned_inv {A} op (stmt : Sql A) w a w' :
  query storage_ok op stmt w = (Returned a, w') ->
  storage_ok op (storage_calls w) = true
  /\ exists d, stmt (db w) = (inr a, d) /\ w' = set_db d (count_storage_call w).
Proof.
  intros H. unfold query in H.
  apply bind_returned_inv in H as (u & w1 & Hcall & H).
  apply storage_call_returned_inv in Hcall as [Hok ->]. split; [done|].
  simpl in H. destruct (stmt (db w)) as [[e|a'] d]; simplify_eq. eauto.
Qed.

(** A [savePosition] that returns has added exactly one row, and has
    rewritten none. *)
Lemma savePosition_returned keywordId positionData w res w' :
  savePosition config storage_ok keywordId positionData w = (Returned res, w') ->
  position_history (db w')
  = position_history (db w)
      ++ [saved_row config keywordId positionData (ph_seq (db w)) (clock w)]
  /\ stats w' = stats w /\ cache w' = cache w /\ clock w' = clock w
  /\ cacheTimeout w' = cacheTimeout w
  /\ sync_log (db w') = sync_log (db w).
Proof.
  intros H. unfold savePosition, connect in H.
  apply bind_returned_inv in H as (u & w1 & Hcall & H).
  apply storage_call_returned_inv in Hcall as [_ ->].
  apply bind_returned_inv in H as (prev & w2 & Hq & H).
  apply query_returned_inv in Hq as [_ (d2 & Hd2 & ->)]. simplify_eq.
  apply bind_returned_inv in H as (w3 & w3' & Hget & H).
  unfold get in Hget. simplify_eq.
  apply bind_returned_inv in H as (u2 & w4 & Hq & H).
  apply query_returned_inv in Hq as [_ (d4 & Hd4 & ->)].
  apply bind_returned_inv in H as (u3 & w5 & Hq & H).
  apply query_returned_inv in Hq as [_ (d5 & Hd5 & ->)].
  unfold ret in H. simplify_eq.
  rewrite upsert_position_appends in Hd4. simpl in Hd4.
  destruct (position_row_checks _ _); simplify_eq.
  unfold touch_tracked_keyword in Hd5. simplify_eq.
  done.
Qed.

(** With the database reachable, the keyword present and the default
    device short enough for the column, [savePosition] does return. *)
Lemma savePosition_healthy keywordId positionData w :
  (forall n, storage_ok OpSavePosition n = true) ->
  keywordId ∈ tk_id <$> tracked_keywords (db w) ->
  String.length (ds_device config) <= 10 ->
  exists res w',
    savePosition config storage_ok keywordId positionData w = (Returned res, w').
Proof.
  intros Hok Hfk Hlen. unfold savePosition, connect.
  rewrite (bind_returned _ _ _ _ _ (storage_call_up _ _ (Hok _))).
  erewrite bind_returned; cycle 1.
  { rewrite (query_up _ _ _ (Hok _)). reflexivity. }
  rewrite bind_get.
  erewrite bind_returned; cycle 1.
  { rewrite (query_up _ _ _ (Hok _)). rewrite upsert_position_appends. simpl.
    unfold position_row_checks. simpl.
    rewrite bool_decide_eq_true_2 by done.
    unfold varchar. rewrite (proj2 (Nat.leb_le _ _) Hlen). simpl.
    reflexivity. }
  erewrite bind_returned; cycle 1.
  { rewrite (query_up _ _ _ (Hok _)). reflexivity. }
  unfold ret. eauto.
Qed.

End Steps.

(** C10. [savePosition] stores the device of the global default settings,
    not the keyword's own. With the database reachable and the default
    device fitting its column, saving an observation for a tracked keyword
    returns and has appended exactly one history row: the observation, for
    that keyword, under the default device; so for a keyword tracked on
    another device the row does not carry the keyword's device. And whatever
    the outcome of a save or of a whole batch, every row it has added
    carries the default device. *)
Theorem C10_history_rows_carry_default_device
    (config : Config) (http_post : nat -> SerpRequest -> HttpOutcome)
    (storage_ok : StorageOp -> nat -> bool) :
  (forall keyword positionData w,
     (forall n, storage_ok OpSavePosition n = true) ->
     keyword ∈ tracked_keywords (db w) ->
     String.length (ds_device config) <= 10 ->
     exists res w' row,
       savePosition config storage_ok (tk_id keyword) positionData w = (Returned res, w')
       /\ position_history (db w') = position_history (db w) ++ [row]
       /\ ph_keyword_id row = tk_id keyword
       /\ ph_position row = pd_position positionData
       /\ ph_url row = pd_url positionData
       /\ ph_date row = date_of (clock w)
       /\ ph_device row = Some (ds_device config)
       /\ (tk_device keyword <> Some (ds_device config) ->
           ph_device row <> tk_device keyword))
  /\ (forall keywordId positionData w res w',
        savePosition config storage_ok keywordId positionData w = (Returned res, w') ->
        exists row,
          position_history (db w') = position_history (db w) ++ [row]
          /\ ph_keyword_id row = keywordId
          /\ ph_device row = Some (ds_device config))
  /\ (forall keywordId positionData w,
        exists added,
          position_history (db (snd (savePosition config storage_ok keywordId positionData w)))
          = position_history (db w) ++ added
          /\ Forall (fun r => ph_device r = Some (ds_device config)) added)
  /\ (forall keywords w,
        exists added,
          position_history (db (snd (trackKeywordBatch config http_post storage_ok keywords w)))
          = position_history (db w) ++ added
          /\ Forall (fun r =>
                       ph_device r = Some (ds_device config)
                       /\ forall keyword,
                            keyword ∈ keywords ->
                            tk_device keyword <> Some (ds_device config) ->
                            ph_device r <> tk_device keyword) added).
Proof.
  split; [|split; [|split]].
  - intros keyword positionData w Hok Hin Hlen.
    destruct (savePosition_healthy config storage_ok (tk_id keyword) positionData w Hok)
      as (res & w' & Hsave); [by apply list_elem_of_fmap_2|done|].
    exists res, w', (saved_row config (tk_id keyword) positionData (ph_seq (db w)) (clock w)).
    split; [exact Hsave|].
    apply savePosition_returned in Hsave as (Hrows & _).
    split; [exact Hrows|]. simpl. repeat split. congruence.
  - intros keywordId positionData w res w' Hsave.
    apply savePosition_returned in Hsave as (Hrows & _).
    eexists. split; [exact Hrows|]. done.
  - intros keywordId positionData w.
    assert (Hk : keeps (history_grows_with (ds_device config))
                   (savePosition config storage_ok keywordId positionData)).
    { apply keeps_savePosition; intros;
        first [apply _ | by apply history_grows_same | apply history_grows_position]. }
    exact (proj1 (Hk w)).
  - intros keywords w.
    assert (Hk : keeps (history_grows_with (ds_device config))
                   (trackKeywordBatch config http_post storage_ok keywords)).
    { apply keeps_trackKeywordBatch; intros;
        first [apply _ | by apply history_grows_same | apply history_grows_position]. }
    destruct (proj1 (Hk w)) as (added & Heq & Hall).
    exists added. split; [done|].
    eapply Forall_impl; [exact Hall|]. intros r Hr. split; [done|].
    intros keyword _ Hne. congruence.
Qed.

(** C10, witness: the sample's keyword is tracked on mobile and the default
    device is desktop; the row saved for it says desktop. *)
Lemma C10_witness :
  let w := Sample.mobile_world in
  tk_device <$> tracked_keywords (db w) = [Some "mobile"]
  /\ exists res w',
       savePosition Sample.coffee Sample.storage_up 1 (Sample.observation 7) w
       = (Returned res, w')
       /\ (fun r => (ph_keyword_id r, ph_position r, ph_device r))
            <$> position_history (db w')
          = [(1%Z, Some 7%Z, Some "desktop")].
Proof.
  intros w. split; [vm_compute; reflexivity|].
  assert (Hrow : exists keyword,
            tracked_keywords (db w) = [keyword] /\ tk_id keyword = 1%Z)
    by (eexists; vm_compute; split; reflexivity).
  destruct Hrow as (keyword & Hrows & Hid).
  destruct (proj1 (C10_history_rows_carry_default_device
                     Sample.coffee Sample.provider_up Sample.storage_up)
              keyword (Sample.observation 7) w)
    as (res & w' & row & Hsave & Hhistory & Hk & Hposition & _ & _ & Hdevice & _).
  - done.
  - rewrite Hrows. apply list_elem_of_here.
  - vm_compute. lia.
  - rewrite Hid in Hsave, Hk. exists res, w'. split; [exact Hsave|].
    rewrite Hhistory. assert (Hempty : position_history (db w) = []) by done.
    rewrite Hempty. simpl. by rewrite Hk, Hposition, Hdevice.
Defined.

(** C2. At the failing input: two observations of the same keyword saved on
    the same day, for the same device and data source, are stored as two
    rows; the first is not overwritten by the second. Neither row has a
    location, so the uniqueness constraint does not apply to them. *)
Theorem C2_same_day_saves_are_duplicated :
  let w0 := Sample.imported_world Sample.coffee in
  let w1 := snd (savePosition Sample.coffee Sample.storage_up 1 (Sample.observation 7) w0) in
  let w2 := snd (savePosition Sample.coffee Sample.storage_up 1 (Sample.observation 9) w1) in
  position_history (db w0) = []
  /\ (fun r => (ph_keyword_id r, ph_date r, ph_device r, ph_location r,
                ph_data_source r, ph_position r)) <$> position_history (db w2)
     = [ (1%Z, 19675%Z, Some "desktop", None, "dataforseo", Some 7%Z);
         (1%Z, 19675%Z, Some "desktop", None, "dataforseo", Some 9%Z) ].
Proof. vm_compute. split; reflexivity. Qed.

(** *** The seven-day view *)

Lemma latest_none rows : latest rows = None -> rows = [].
Proof.
  destruct rows as [|r rest]; [done|]. simpl.
  destruct (latest rest); [|done]. by destruct (_ <? _)%Z.
Qed.

(** [latest] yields a stored row of maximal date. *)
Lemma latest_some rows r :
  latest rows = Some r ->
  r ∈ rows /\ forall x, x ∈ rows -> (ph_date x <= ph_date r)%Z.
Proof.
  revert r. induction rows as [|y rest IH]; intros r H; [done|]. simpl in H.
  destruct (latest rest) as [r'|] eqn:Hrest.
  - destruct (IH r' eq_refl) as [Hin Hmax].
    destruct (ph_date y <? ph_date r')%Z eqn:Hlt; simplify_eq.
    + apply Z.ltb_lt in Hlt. split; [by right|].
      intros x [->|Hx]%elem_of_cons; [lia|by apply Hmax].
    + apply Z.ltb_ge in Hlt. split; [by left|].
      intros x [->|Hx]%elem_of_cons; [lia|]. specialize (Hmax x Hx). lia.
  - simplify_eq. apply latest_none in Hrest as ->. split; [by left|].
    intros x [->|Hx]%elem_of_cons; [lia|]. by apply elem_of_nil in Hx.
Qed.

Lemma elem_of_history_of r k d :
  r ∈ history_of k d <-> r ∈ position_history d /\ ph_keyword_id r = k.
Proof. unfold history_of. by rewrite list_elem_of_filter, (comm and). Qed.

Lemma v_position_changes_7d_ext k d d' :
  tracked_keywords d' = tracked_keywords d ->
  position_history d' = position_history d ->
  v_position_changes_7d k d' = v_position_changes_7d k d.
Proof.
  intros Hk Hh. unfold v_position_changes_7d. rewrite Hk.
  apply list_fmap_ext. intros _ tk _.
  unfold position_change_row, select_latest_position, previous_row, history_of.
  by rewrite Hh.
Qed.

Lemma expected_alerts_ext config d d' now seq ids :
  tracked_keywords d' = tracked_keywords d ->
  position_history d' = position_history d ->
  expected_alerts config d' now seq ids = expected_alerts config d now seq ids.
Proof.
  intros Hk Hh. revert seq. induction ids as [|k rest IH]; intros seq; simpl; [done|].
  rewrite (v_position_changes_7d_ext k d d' Hk Hh).
  destruct (v_position_changes_7d k d) as [|change ?]; [done|].
  destruct (expected_alert config change); by rewrite IH.
Qed.

(** A row of the view belongs to an active tracked keyword with that id. *)
Lemma v_position_changes_7d_row k d change :
  change ∈ v_position_changes_7d k d ->
  exists tk, tk ∈ tracked_keywords d /\ tk_id tk = k /\ tk_is_active tk = true
             /\ change = position_change_row tk d.
Proof.
  unfold v_position_changes_7d. intros (tk & -> & Htk)%list_elem_of_fmap.
  apply list_elem_of_filter in Htk as [[Hactive Hid] Hin]. eauto.
Qed.

Lemma v_position_changes_7d_keyword k d change rest :
  v_position_changes_7d k d = change :: rest ->
  k ∈ tk_id <$> tracked_keywords d.
Proof.
  intros H.
  destruct (v_position_changes_7d_row k d change) as (tk & Hin & <- & _);
    [rewrite H; by left|].
  by apply list_elem_of_fmap_2.
Qed.


Lemma position_change_row_change tk d :
  position_change (position_change_row tk d)
  = sql_sub (current_position (position_change_row tk d))
            (previous_position (position_change_row tk d))
  /\ trend (position_change_row tk d)
     = classify (position_change (position_change_row tk d)).
Proof. done. Qed.

Lemma latest_is_some rows r :
  r ∈ rows -> exists r', latest rows = Some r'.
Proof.
  intros Hr. destruct (latest rows) as [r'|] eqn:Hl; [by eexists|].
  apply latest_none in Hl. subst. by apply elem_of_nil in Hr.
Qed.

(** The first lateral join yields a row as soon as the keyword has history:
    one of its rows of the latest date. *)
Lemma current_row_some k d r :
  r ∈ position_history d -> ph_keyword_id r = k ->
  exists cur,
    select_latest_position k d = Some cur
    /\ cur ∈ position_history d /\ ph_keyword_id cur = k
    /\ forall x, x ∈ position_history d -> ph_keyword_id x = k ->
                 (ph_date x <= ph_date cur)%Z.
Proof.
  intros Hr Hk. unfold select_latest_position.
  destruct (latest_is_some (history_of k d) r) as (cur & Hcur);
    [by apply elem_of_history_of|].
  exists cur. split; [done|].
  destruct (latest_some _ _ Hcur) as [Hin Hmax].
  apply elem_of_history_of in Hin as [Hin Hid]. repeat split; try done.
  intros x Hx Hxk. apply Hmax. by apply elem_of_history_of.
Qed.

Lemma current_row_none k d :
  (forall r, r ∈ position_history d -> ph_keyword_id r <> k) ->
  select_latest_position k d = None.
Proof.
  intros Hnone. unfold select_latest_position.
  destruct (latest (history_of k d)) as [r|] eqn:Hl; [|done].
  apply latest_some in Hl as [Hin _].
  apply elem_of_history_of in Hin as [Hin Hid]. by destruct (Hnone r Hin).
Qed.

(** The second lateral join yields a row as soon as the keyword has a row
    dated seven days or more before the current one: one of the latest
    such rows. *)
Lemma previous_row_some k cur d r :
  r ∈ position_history d -> ph_keyword_id r = k ->
  (ph_date r <= ph_date cur - 7)%Z ->
  exists prev,
    previous_row k (Some cur) d = Some prev
    /\ prev ∈ position_history d /\ ph_keyword_id prev = k
    /\ (ph_date prev <= ph_date cur - 7)%Z
    /\ forall x, x ∈ position_history d -> ph_keyword_id x = k ->
                 (ph_date x <= ph_date cur - 7)%Z ->
                 (ph_date x <= ph_date prev)%Z.
Proof.
  intros Hr Hk Hdate. simpl.
  destruct (latest_is_some
              (filter (fun r => (ph_date r <= ph_date cur - 7)%Z) (history_of k d)) r)
    as (prev & Hprev).
  { apply list_elem_of_filter. split; [done|]. by apply elem_of_history_of. }
  exists prev. split; [done|].
  destruct (latest_some _ _ Hprev) as [Hin Hmax].
  apply list_elem_of_filter in Hin as [Hpdate Hin].
  apply elem_of_history_of in Hin as [Hin Hid]. repeat split; try done.
  intros x Hx Hxk Hxdate. apply Hmax.
  apply list_elem_of_filter. split; [done|]. by apply elem_of_history_of.
Qed.

Lemma previous_row_none k cur d :
  (forall r, r ∈ position_history d -> ph_keyword_id r = k ->
             (ph_date cur - 7 < ph_date r)%Z) ->
  previous_row k (Some cur) d = None.
Proof.
  intros Hnone. simpl.
  destruct (latest _) as [r|] eqn:Hl; [|done].
  apply latest_some in Hl as [Hin _].
  apply list_elem_of_filter in Hin as [Hdate Hin].
  apply elem_of_history_of in Hin as [Hin Hid].
  specialize (Hnone r Hin Hid). lia.
Qed.

(** The row of the view, read off the keyword's history. *)
Lemma position_change_row_history tk d :
  let change := position_change_row tk d in
  let mine r := r ∈ position_history d /\ ph_keyword_id r = tk_id tk in
  ((forall r, ~ mine r) ->
   current_position change = None /\ current_date change = None
   /\ previous_position change = None /\ previous_date change = None)
  /\ ((exists r, mine r) ->
      exists cur,
        mine cur
        /\ (forall r, mine r -> (ph_date r <= ph_date cur)%Z)
        /\ current_position change = ph_position cur
        /\ current_date change = Some (ph_date cur)
        /\ ((forall r, mine r -> (ph_date cur - 7 < ph_date r)%Z) ->
            previous_position change = None /\ previous_date change = None)
        /\ ((exists r, mine r /\ (ph_date r <= ph_date cur - 7)%Z) ->
            exists prev,
              mine prev
              /\ (ph_date prev <= ph_date cur - 7)%Z
              /\ (forall r, mine r -> (ph_date r <= ph_date cur - 7)%Z ->
                            (ph_date r <= ph_date prev)%Z)
              /\ previous_position change = ph_position prev
              /\ previous_date change = Some (ph_date prev))).
Proof.
  intros change mine. split.
  - intros Hnone. unfold change, position_change_row.
    rewrite current_row_none; [done|].
    intros r Hr Hk. by apply (Hnone r).
  - intros (r & Hr & Hk).
    destruct (current_row_some (tk_id tk) d r Hr Hk) as (cur & Hcur & Hin & Hid & Hmax).
    exists cur. split; [done|]. split; [by intros x [??]; apply Hmax|].
    unfold change, position_change_row. rewrite Hcur.
    cbn [mbind option_bind fmap option_fmap option_map current_position current_date
         previous_position previous_date].
    split; [done|]. split; [done|]. split.
    + intros Hnone. rewrite previous_row_none; [done|].
      intros x Hx Hxk. by apply Hnone.
    + intros (x & [Hx Hxk] & Hxdate).
      destruct (previous_row_some (tk_id tk) cur d x Hx Hxk Hxdate)
        as (prev & Hprev & Hpin & Hpid & Hpdate & Hpmax).
      exists prev. split; [done|]. split; [done|].
      split; [by intros y [??]; apply Hpmax|].
      by rewrite Hprev.
Qed.

(** *** generateAlerts with the database reachable *)

Section Alerts.

Context (config : Config) (storage_ok : StorageOp -> nat -> bool).
Hypothesis view_up : forall n, storage_ok OpGenerateAlerts n = true.
Hypothesis alerts_up : forall n, storage_ok OpCreateAlert n = true.

Lemma createAlert_healthy k ty change rest w :
  v_position_changes_7d k (db w) = change :: rest ->
  exists w',
    createAlert config storage_ok k ty (position_change change) change w
    = (Returned tt, w')
    /\ tracking_alerts (db w')
       = tracking_alerts (db w) ++ [alert_row config (al_seq (db w)) k ty change (clock w)]
    /\ al_seq (db w') = (al_seq (db w) + 1)%Z
    /\ tracked_keywords (db w') = tracked_keywords (db w)
    /\ position_history (db w') = position_history (db w)
    /\ sync_log (db w') = sync_log (db w)
    /\ clock w' = clock w.
Proof.
  intros Hview. apply v_position_changes_7d_keyword in Hview.
  unfold createAlert, connect.
  rewrite (bind_returned _ _ _ _ _ (storage_call_up _ _ _ (alerts_up _))).
  rewrite bind_get. rewrite (query_up _ _ _ _ (alerts_up _)).
  unfold insert_alert. simpl. rewrite bool_decide_eq_true_2 by done.
  eexists. split; [reflexivity|]. done.
Qed.

Lemma evaluate_keyword_healthy k n w :
  exists w',
    evaluate_keyword config storage_ok k n w
    = (Returned (n + length (expected_alerts config (db w) (clock w) (al_seq (db w)) [k])), w')
    /\ alerts_appended config [k] w w'.
Proof.
  unfold evaluate_keyword, alerts_appended.
  erewrite bind_returned; cycle 1.
  { rewrite (query_up _ _ _ _ (view_up _)). reflexivity. }
  simpl. destruct (v_position_changes_7d k (db w)) as [|change rest] eqn:Hview.
  { eexists. split; [unfold ret; simpl; by rewrite Nat.add_0_r|].
    simpl. rewrite app_nil_r. repeat split; try done. lia. }
  assert (Hview' : v_position_changes_7d k (db (set_db (db w) (count_storage_call w)))
                   = change :: rest) by done.
  unfold expected_alert.
  repeat match goal with
         | |- context [if ?b then _ else _] => destruct b
         end;
    try (match goal with
         | |- context [createAlert _ _ _ ?ty _ _] =>
             destruct (createAlert_healthy k ty change rest _ Hview')
               as (w' & Hrun & Ha & Hs & Hk & Hh & Hl & Hc)
         end;
         rewrite (bind_returned _ _ _ _ _ Hrun);
         eexists; split; [unfold ret; simpl; by rewrite Nat.add_1_r|];
         simpl; rewrite Ha, Hs, Hk, Hh, Hl, Hc; repeat split; try done; simpl; lia).
  eexists. split; [unfold ret; simpl; by rewrite Nat.add_0_r|].
  simpl. rewrite app_nil_r. repeat split; try done. lia.
Qed.

Lemma expected_alerts_cons d now seq k rest :
  expected_alerts config d now seq (k :: rest)
  = expected_alerts config d now seq [k]
      ++ expected_alerts config d now
           (seq + Z.of_nat (length (expected_alerts config d now seq [k])))%Z rest.
Proof.
  simpl. destruct (v_position_changes_7d k d) as [|change ?].
  - simpl. by rewrite Z.add_0_r.
  - destruct (expected_alert config change); simpl; [done|]. by rewrite Z.add_0_r.
Qed.

Lemma evaluate_keywords_healthy ids n w :
  exists w',
    evaluate_keywords config storage_ok ids n w
    = (Returned (n + length (expected_alerts config (db w) (clock w) (al_seq (db w)) ids)), w')
    /\ alerts_appended config ids w w'.
Proof.
  revert n w. induction ids as [|k rest IH]; intros n w.
  - exists w. simpl. split; [unfold ret; simpl; by rewrite Nat.add_0_r|].
    unfold alerts_appended. simpl. rewrite app_nil_r. repeat split; try done. lia.
  - destruct (evaluate_keyword_healthy k n w)
      as (w1 & Hstep & Ha1 & Hs1 & Hk1 & Hh1 & Hl1 & Hc1).
    destruct (IH (n + length (expected_alerts config (db w) (clock w) (al_seq (db w)) [k])) w1)
      as (w2 & Hrest & Ha2 & Hs2 & Hk2 & Hh2 & Hl2 & Hc2).
    exists w2. cbn [evaluate_keywords].
    rewrite (bind_returned _ _ _ _ _ Hstep), Hrest.
    rewrite (expected_alerts_ext config (db w) (db w1)) in * by done.
    rewrite Hc1, Hs1 in *.
    split.
    + f_equal. f_equal. rewrite (expected_alerts_cons _ _ _ k rest), length_app. lia.
    + unfold alerts_appended.
      rewrite (expected_alerts_cons _ _ _ k rest), length_app.
      rewrite Ha2, Ha1, Hs2, Hk2, Hk1, Hh2, Hh1, Hl2, Hl1, Hc2, app_assoc.
      repeat split; try done. lia.
Qed.

Lemma generateAlerts_healthy ids w :
  exists w',
    generateAlerts config storage_ok ids w
    = (Returned (length (expected_alerts config (db w) (clock w) (al_seq (db w)) ids)), w')
    /\ alerts_appended config ids w w'.
Proof.
  unfold generateAlerts, connect.
  rewrite (bind_returned _ _ _ _ _ (storage_call_up _ _ _ (view_up _))).
  destruct (evaluate_keywords_healthy ids 0 (count_storage_call w)) as (w1 & Hrun & Happ).
  rewrite (bind_returned _ _ _ _ _ Hrun). simpl in *.
  destruct (0 <? _); eexists; (split; [reflexivity|]); exact Happ.
Qed.


End Alerts.



(** C5. The seven-day view compares the most recent observation of a keyword
    with its most recent observation dated seven days or more before that
    one: the window is counted back from the date of the latest observation,
    and the current time plays no part. Both rows are read off the keyword's
    history: the current one exists as soon as the keyword has a row, the
    previous one as soon as it has a row that old, and without one the
    previous position is NULL. position_change is current minus previous,
    and the movement is declined when the position number went up, improved
    when it went down, stable otherwise (also when either is NULL). With
    position 5 seven days or more before the latest observation and 16 in
    the latest one the change is 11 and declined, and the alert engine raises
    a critical alert when the critical threshold is at most 11, else a
    warning when the warning threshold is at most 11. *)
Theorem C5_recent_change_anchored_at_latest_observation
    (config : Config) (storage_ok : StorageOp -> nat -> bool) :
  (forall tk d,
     let change := position_change_row tk d in
     let mine r := r ∈ position_history d /\ ph_keyword_id r = tk_id tk in
     ((forall r, ~ mine r) ->
      current_position change = None /\ current_date change = None
      /\ previous_position change = None /\ previous_date change = None)
     /\ ((exists r, mine r) ->
         exists cur,
           mine cur
           /\ (forall r, mine r -> (ph_date r <= ph_date cur)%Z)
           /\ current_position change = ph_position cur
           /\ current_date change = Some (ph_date cur)
           /\ ((forall r, mine r -> (ph_date cur - 7 < ph_date r)%Z) ->
               previous_position change = None /\ previous_date change = None)
           /\ ((exists r, mine r /\ (ph_date r <= ph_date cur - 7)%Z) ->
               exists prev,
                 mine prev
                 /\ (ph_date prev <= ph_date cur - 7)%Z
                 /\ (forall r, mine r -> (ph_date r <= ph_date cur - 7)%Z ->
                               (ph_date r <= ph_date prev)%Z)
                 /\ previous_position change = ph_position prev
                 /\ previous_date change = Some (ph_date prev)))
     /\ position_change change
        = sql_sub (current_position change) (previous_position change)
     /\ (forall cur prev,
           current_position change = Some cur ->
           previous_position change = Some prev ->
           position_change change = Some (cur - prev)%Z
           /\ ((prev < cur)%Z -> trend change = declined)
           /\ ((cur < prev)%Z -> trend change = improved)
           /\ (cur = prev -> trend change = stable))
     /\ (position_change change = None -> trend change = stable))
  /\ (forall k w change rest (latest_day earlier_day : Z),
        let mine r := r ∈ position_history (db w) /\ ph_keyword_id r = k in
        (forall n, storage_ok OpGenerateAlerts n = true) ->
        (forall n, storage_ok OpCreateAlert n = true) ->
        v_position_changes_7d k (db w) = change :: rest ->
        (exists r, mine r /\ ph_date r = latest_day) ->
        (forall r, mine r ->
                   (ph_date r <= latest_day)%Z
                   /\ (ph_date r = latest_day -> ph_position r = Some 16%Z)) ->
        (earlier_day <= latest_day - 7)%Z ->
        (exists r, mine r /\ ph_date r = earlier_day) ->
        (forall r, mine r -> (ph_date r <= latest_day - 7)%Z ->
                   (ph_date r <= earlier_day)%Z
                   /\ (ph_date r = earlier_day -> ph_position r = Some 5%Z)) ->
        current_position change = Some 16%Z
        /\ previous_position change = Some 5%Z
        /\ position_change change = Some 11%Z
        /\ trend change = declined
        /\ exists added w',
             generateAlerts config storage_ok [k] w = (Returned (length added), w')
             /\ tracking_alerts (db w') = tracking_alerts (db w) ++ added
             /\ ((critical_positionDrop config <= 11)%Z ->
                 al_alert_type <$> added = [critical])
             /\ ((11 < critical_positionDrop config)%Z ->
                 (warning_positionDrop config <= 11)%Z ->
                 al_alert_type <$> added = [warning])).
Proof.
  split.
  - intros tk d change mine.
    destruct (position_change_row_history tk d) as [Hnone Hsome].
    split; [exact Hnone|split; [exact Hsome|split; [done|split]]].
    + intros cur prev Hcur Hprev.
      destruct (position_change_row_change tk d) as [Hchange Htrend].
      fold change in Hchange, Htrend. rewrite Htrend, Hchange, Hcur, Hprev. simpl.
      split; [done|]. split; [|split]; intros H.
      * rewrite (proj2 (Z.ltb_ge _ _)) by lia. by rewrite (proj2 (Z.ltb_lt _ _)) by lia.
      * by rewrite (proj2 (Z.ltb_lt _ _)) by lia.
      * rewrite (proj2 (Z.ltb_ge _ _)) by lia. by rewrite (proj2 (Z.ltb_ge _ _)) by lia.
    + intros Hnull. destruct (position_change_row_change tk d) as [_ Htrend].
      fold change in Htrend. by rewrite Htrend, Hnull.
  - intros k w change rest latest_day earlier_day mine Hview Halerts Hrow
      (r1 & Hr1 & Hd1) Hlatest Hweek (r0 & Hr0 & Hd0) Hearlier.
    destruct (v_position_changes_7d_row k (db w) change) as (tk & _ & Hid & _ & Hc);
      [rewrite Hrow; by left|].
    subst k.
    destruct (position_change_row_history tk (db w)) as [_ Hsome].
    destruct Hsome as (cur & Hcur & Hmax & Hcp & _ & _ & Hprev); [by exists r1|].
    rewrite <- Hc in Hcp, Hprev.
    assert (Hday : ph_date cur = latest_day).
    { pose proof (Hmax r1 Hr1). pose proof (proj1 (Hlatest cur Hcur)). lia. }
    destruct Hprev as (prev & Hp & Hpdate & Hpmax & Hpp & _).
    { exists r0. split; [done|]. lia. }
    assert (Hday0 : ph_date prev = earlier_day).
    { pose proof (Hpmax r0 Hr0 ltac:(lia)).
      pose proof (proj1 (Hearlier prev Hp ltac:(lia))). lia. }
    assert (Hcur16 : current_position change = Some 16%Z).
    { rewrite Hcp. by apply (Hlatest cur Hcur). }
    assert (Hprev5 : previous_position change = Some 5%Z).
    { rewrite Hpp. apply (Hearlier prev Hp); lia. }
    assert (Hchange : position_change change = Some 11%Z /\ trend change = declined).
    { destruct (position_change_row_change tk (db w)) as [Hchange Htrend].
      rewrite <- Hc in Hchange, Htrend. rewrite Htrend, Hchange, Hcur16, Hprev5. done. }
    destruct Hchange as [Hchange Htrend].
    split; [done|]. split; [done|]. split; [done|]. split; [done|].
    destruct (generateAlerts_healthy config storage_ok Hview Halerts [tk_id tk] w)
      as (w' & Hrun & Happ & _).
    eexists _, w'. split; [exact Hrun|]. split; [exact Happ|].
    simpl. rewrite Hrow. unfold expected_alert, js_ge. rewrite Hchange. simpl.
    split.
    + intros Hcrit. by rewrite (proj2 (Z.leb_le _ _) Hcrit).
    + intros Hcrit Hwarn. rewrite (proj2 (Z.leb_gt _ _)) by lia.
      by rewrite (proj2 (Z.leb_le _ _) Hwarn).
Qed.

(** C5, witness: the coffee keyword was at 5 a week before its latest
    observation and is at 16 in that one; the sample's critical threshold is
    10. *)
Lemma C5_witness :
  let w := Sample.world_with_history 5 16 in
  exists change added w',
    v_position_changes_7d 1 (db w) = [change]
    /\ position_change change = Some 11%Z /\ trend change = declined
    /\ generateAlerts Sample.coffee Sample.storage_up [1%Z] w = (Returned (length added), w')
    /\ tracking_alerts (db w') = added
    /\ al_alert_type <$> added = [critical].
Proof.
  intros w.
  assert (Hrow : exists change, v_position_changes_7d 1 (db w) = [change]).
  { eexists. vm_compute. reflexivity. }
  destruct Hrow as (change & Hrow).
  assert (Hhistory : position_history (db w)
                     = [Sample.history_row 1 5 (date_of Sample.t0 - 7);
                        Sample.history_row 2 16 (date_of Sample.t0)])
    by (vm_compute; reflexivity).
  destruct (proj2 (C5_recent_change_anchored_at_latest_observation
                     Sample.coffee Sample.storage_up)
              1%Z w change [] (date_of Sample.t0) (date_of Sample.t0 - 7)%Z
              (fun _ => eq_refl) (fun _ => eq_refl) Hrow)
    as (_ & _ & Hchange & Htrend & added & w' & Hrun & Happ & Hcritical & _).
  - eexists. rewrite Hhistory. split; [split; [apply list_elem_of_further, list_elem_of_here|]|];
      reflexivity.
  - rewrite Hhistory. intros r [Hr _].
    apply elem_of_cons in Hr as [->|Hr]; [vm_compute; split; [discriminate|done]|].
    apply elem_of_cons in Hr as [->|Hr]; [vm_compute; split; [discriminate|done]|].
    by apply elem_of_nil in Hr.
  - lia.
  - eexists. rewrite Hhistory. split; [split; [apply list_elem_of_here|]|]; reflexivity.
  - rewrite Hhistory. intros r [Hr _] Hdate.
    apply elem_of_cons in Hr as [->|Hr]; [vm_compute; split; [discriminate|done]|].
    apply elem_of_cons in Hr as [->|Hr]; [exfalso; revert Hdate; vm_compute; by intros []|].
    by apply elem_of_nil in Hr.
  - exists change, added, w'. repeat split; try done.
    apply Hcritical. vm_compute. discriminate.
Defined.

(** C5, counterexample to a window counted back from the current time. The
    coffee keyword was seen twenty days ago at 5 and ten days ago at 16, and
    not since. Counted from now, the most recent position at or before seven
    days ago is the 16 of ten days ago, the same observation as the current
    one: no movement. The view compares that observation with the one seven
    days or more before it, the 5 of twenty days ago: declined by 11, and the
    alert pass raises a critical alert. *)
Lemma C5_counterexample :
  let w := Sample.world_with_old_history 5 16 in
  let today := date_of (clock w) in
  (ph_date <$> select_latest_position 1 (db w)) = Some (today - 10)%Z
  /\ ((fun r => (ph_date r, ph_position r)) <$> previous_position_by_spec (clock w) 7 1 (db w))
     = Some ((today - 10)%Z, Some 16%Z)
  /\ ((fun change => (current_date change, current_position change,
                      previous_date change, previous_position change,
                      position_change change, trend change))
        <$> v_position_changes_7d 1 (db w))
     = [(Some (today - 10)%Z, Some 16%Z, Some (today - 20)%Z, Some 5%Z,
         Some 11%Z, declined)]
  /\ (al_alert_type
        <$> tracking_alerts
              (db (snd (generateAlerts Sample.coffee Sample.storage_up [1%Z] w))))
     = [critical].
Proof. vm_compute. repeat split; reflexivity. Qed.

(** *** Import *)

(** A successful import statement leaves a row with the proposed identity
    and the proposed mutable columns. *)
Lemma upsert_tracked_keyword_stores (p : NewKeyword) (now : Z) (d d' : Db) res :
  is_Some (nk_device p) -> is_Some (nk_location_code p) ->
  upsert_tracked_keyword p now d = (inr res, d') ->
  exists row,
    row ∈ tracked_keywords d'
    /\ tk_id row = fst res
    /\ tk_keyword row = nk_keyword p /\ tk_project_id row = nk_project_id p
    /\ tk_device row = nk_device p /\ tk_location_code row = nk_location_code p
    /\ tk_priority row = nk_priority p
    /\ tk_search_volume row = nk_search_volume p
    /\ tk_target_position row = nk_target_position p
    /\ tk_tracking_frequency row = nk_tracking_frequency p.
Proof.
  intros Hdev Hloc. unfold upsert_tracked_keyword.
  set (row := proposed_keyword p (tk_seq d) now).
  destruct (tracked_keyword_checks row); simpl; [|done].
  destruct (update_first _ _ _) as [[rows updated]|] eqn:Hup; intros H; simplify_eq; simpl.
  - apply update_first_some in Hup as (i & r & Hi & Hc & -> & ->).
    apply same_identity_true in Hc as (Hk & Hp & (dv & Hd1 & Hd2) & (lc & Hl1 & Hl2)).
    exists (apply_excluded row now r). split.
    { apply list_elem_of_lookup. exists i.
      apply list_lookup_insert_eq. by eapply lookup_lt_Some. }
    simpl in *. repeat split; congruence.
  - exists row. split; [apply elem_of_app; right; by left|]. done.
Qed.

(** C9. Every keyword the import writes is stored with tracking frequency
    'daily' or 'weekly': 'daily' exactly when the keyword supplies a truthy
    trackingFrequency or its tier is 'high', 'weekly' otherwise. The supplied
    value is only tested, never stored: whatever it is, unless it happens to
    be 'daily' itself, the stored value differs from it. *)
Theorem C9_import_stores_daily_or_weekly
    (config : Config) (storage_ok : StorageOp -> nat -> bool)
    (pid : string) (projectData : Project) (priority : string) (kw : KeywordSpec)
    (counts counts' : ImportResult) (w w' : World) :
  import_keyword config storage_ok pid projectData priority kw counts w
  = (Returned counts', w') ->
  exists row,
    row ∈ tracked_keywords (db w')
    /\ tk_keyword row = kw_keyword kw /\ tk_project_id row = pid
    /\ tk_device row = Some (ds_device config)
    /\ tk_location_code row = Some (location_code_param config projectData)
    /\ (tk_tracking_frequency row = "daily" \/ tk_tracking_frequency row = "weekly")
    /\ (tk_tracking_frequency row = "daily" <->
        truthy_str (kw_trackingFrequency kw) = true \/ priority = "high")
    /\ (forall supplied,
          kw_trackingFrequency kw = Some supplied -> supplied <> "daily" ->
          tk_tracking_frequency row <> supplied).
Proof.
  intros H. unfold import_keyword in H. rewrite bind_get in H.
  apply bind_returned_inv in H as (res & w1 & Hq & H).
  apply query_returned_inv in Hq as [_ (d & Hd & ->)].
  apply upsert_tracked_keyword_stores in Hd as (row & Hin & _ & Hk & Hp & Hdv & Hlc & _ & _ & _ & Hf);
    [|by eexists..].
  unfold ret in H. simplify_eq. exists row. simpl in *.
  split; [done|]. split; [done|]. split; [done|]. split; [done|]. split; [done|].
  rewrite Hf. unfold tracking_frequency_param.
  destruct (truthy_str (kw_trackingFrequency kw)) eqn:Htruthy; simpl.
  - split; [by left|]. split; [by intuition|].
    intros supplied Hs Hne. congruence.
  - destruct (bool_decide (priority = "high")) eqn:Hhigh.
    + apply bool_decide_eq_true in Hhigh. split; [by left|]. split; [by intuition|].
      intros supplied Hs Hne. congruence.
    + apply bool_decide_eq_false in Hhigh. split; [by right|]. split.
      * split; [done|]. by intros [?|?].
      * intros supplied Hs _ <-. rewrite Hs in Htruthy. done.
Qed.

(** C9, witness: a low-priority keyword asking for 'monthly' is stored as
    'daily'. *)
Lemma C9_witness :
  let kw := {| kw_keyword := "tea"; kw_searchVolume := None;
               kw_targetPosition := None; kw_trackingFrequency := Some "monthly" |} in
  let w := new_tracker empty_db Sample.t0 in
  exists counts' w' row,
    import_keyword Sample.coffee Sample.storage_up "P" (Sample.project []) "low" kw
      {| imported := 0; skipped := 0 |} w = (Returned counts', w')
    /\ tracked_keywords (db w') = [row]
    /\ tk_keyword row = "tea"
    /\ tk_priority row = "low"
    /\ tk_tracking_frequency row = "daily".
Proof.
  intros kw w.
  assert (Hrun : exists counts' w' row,
            import_keyword Sample.coffee Sample.storage_up "P" (Sample.project []) "low" kw
              {| imported := 0; skipped := 0 |} w = (Returned counts', w')
            /\ tracked_keywords (db w') = [row] /\ tk_priority row = "low").
  { eexists _, _, _. vm_compute. repeat split; reflexivity. }
  destruct Hrun as (counts' & w' & row & Hrun & Hrows & Hprio).
  destruct (C9_import_stores_daily_or_weekly _ _ _ _ _ _ _ _ _ _ Hrun)
    as (row' & Hin & Hk & _ & _ & _ & _ & Hdaily & _).
  rewrite Hrows in Hin. apply list_elem_of_singleton in Hin as ->.
  exists counts', w', row. repeat split; try done.
  apply Hdaily. by left.
Defined.

(** *** The sync log around a tracking run *)

#[global] Instance sync_log_untouched_preorder : PreOrder sync_log_untouched.
Proof.
  split.
  - by intros w.
  - intros w1 w2 w3 [H1 H1'] [H2 H2']. split; congruence.
Qed.

Lemma select_keywords_to_track_length priority projectId d :
  length (select_keywords_to_track priority projectId d) <= length (tracked_keywords d).
Proof.
  unfold select_keywords_to_track.
  rewrite (Permutation_length (merge_sort_Permutation _ _)).
  apply length_filter.
Qed.

Lemma try_catch_rethrow {A} (m : M A) w :
  try_catch m (fun error => throw error) w = m w.
Proof. unfold try_catch, throw. by destruct (m w) as [[| |] ?]. Qed.

Section SyncLog.

Context (config : Config) (http_post : nat -> SerpRequest -> HttpOutcome)
        (storage_ok : StorageOp -> nat -> bool).

Lemma getKeywordsToTrack_cases priority projectId w :
  let r := getKeywordsToTrack storage_ok priority projectId w in
  db (snd r) = db w /\ stats (snd r) = stats w /\ cache (snd r) = cache w
  /\ clock (snd r) = clock w
  /\ ((exists e, fst r = Thrown e)
      \/ fst r = Returned (select_keywords_to_track priority projectId (db w))).
Proof.
  unfold getKeywordsToTrack, connect, query, bind, storage_call. simpl.
  destruct (storage_ok OpGetKeywords (storage_calls w)); simpl; [|by eauto 10].
  destruct (storage_ok OpGetKeywords (S (storage_calls w))); simpl; by eauto 10.
Qed.

Lemma createSyncLog_cases syncType projectId n w :
  let r := createSyncLog storage_ok syncType projectId n w in
  ((exists e, fst r = Thrown e) /\ sync_log (db (snd r)) = sync_log (db w))
  \/ (exists run,
        fst r = Returned (sl_seq (db w))
        /\ sync_log (db (snd r)) = sync_log (db w) ++ [run]
        /\ sl_id run = sl_seq (db w)
        /\ sl_status run = running
        /\ sl_keywords_processed run = Some n
        /\ sl_seq (db (snd r)) = (sl_seq (db w) + 1)%Z).
Proof.
  unfold createSyncLog, connect, query, bind, storage_call, get. simpl.
  destruct (storage_ok OpCreateSyncLog (storage_calls w)); simpl; [|by eauto 10].
  destruct (storage_ok OpCreateSyncLog (S (storage_calls w))); simpl; [|by eauto 10].
  unfold insert_sync_log. simpl.
  destruct (varchar 50 syncType && varchar_null 50 projectId); simpl; [|by eauto 10].
  right. eexists. repeat split; reflexivity.
Qed.

Lemma completeSyncLog_healthy logId succeeded failed_n errs w :
  (forall n, storage_ok OpCompleteSyncLog n = true) ->
  exists w' close,
    completeSyncLog storage_ok logId succeeded failed_n errs w = (Returned tt, w')
    /\ sync_log (db w') = close <$> sync_log (db w)
    /\ (forall run, sl_id run <> logId -> close run = run)
    /\ (forall run, sl_id run = logId ->
          sl_id (close run) = logId
          /\ sl_status (close run) = completed
          /\ sl_completed_at (close run) = Some (clock w)
          /\ sl_keywords_success (close run) = Some succeeded
          /\ sl_keywords_failed (close run) = Some failed_n
          /\ sl_keywords_processed (close run) = sl_keywords_processed run).
Proof.
  intros Hok. unfold completeSyncLog, connect.
  rewrite (bind_returned _ _ _ _ _ (storage_call_up _ _ _ (Hok _))).
  rewrite bind_get. rewrite (query_up _ _ _ _ (Hok _)).
  unfold update_sync_log. simpl.
  eexists _, _. split; [reflexivity|]. split; [reflexivity|]. split.
  - intros run Hne. by rewrite bool_decide_eq_false_2.
  - intros run Heq. rewrite bool_decide_eq_true_2 by done. simpl.
    by destruct (0 <? length errs).
Qed.

End SyncLog.

(** C8. When no keyword is due, a tracking invocation is a no-op success: it
    returns zero successes and zero failures, processes no batch, makes no
    provider call and leaves the database as it was; in particular it opens
    no SyncRun. *)
Theorem C8_empty_due_list_is_noop
    (config : Config) (http_post : nat -> SerpRequest -> HttpOutcome)
    (storage_ok : StorageOp -> nat -> bool)
    (fuel : nat) (priority projectId : option string) (w : World) :
  select_keywords_to_track priority projectId (db w) = [] ->
  storage_ok OpGetKeywords (storage_calls w) = true ->
  storage_ok OpGetKeywords (S (storage_calls w)) = true ->
  exists w',
    trackKeywordsByPriority config http_post storage_ok fuel priority projectId w
    = (Returned {| success := 0; failed_count := 0; batch_errors := None |}, w')
    /\ db w' = db w
    /\ stats w' = stats w
    /\ cache w' = cache w
    /\ clock w' = clock w.
Proof.
  intros Hdue Hconnect Hquery.
  unfold trackKeywordsByPriority. rewrite try_catch_rethrow.
  unfold getKeywordsToTrack, connect, query, bind at 1 2 3, storage_call.
  rewrite Hconnect. simpl. rewrite Hquery. simpl. rewrite Hdue. simpl.
  eexists. split; [reflexivity|]. done.
Qed.

(** C8, witness: tracking the high tier of an empty database. *)
Lemma C8_witness :
  let w := new_tracker empty_db Sample.t0 in
  exists w',
    trackKeywordsByPriority Sample.coffee Sample.provider_up Sample.storage_up 1
      (Some "high") None w
    = (Returned {| success := 0; failed_count := 0; batch_errors := None |}, w')
    /\ sync_log (db w') = []
    /\ apiCallsMade (stats w') = 0.
Proof.
  intros w.
  destruct (C8_empty_due_list_is_noop Sample.coffee Sample.provider_up Sample.storage_up 1
              (Some "high") None w eq_refl eq_refl eq_refl)
    as (w' & Hrun & Hdb & Hstats & _).
  exists w'. split; [exact Hrun|]. by rewrite Hdb, Hstats.
Defined.

(** C8, counterexample: with no keyword due, the invocation returns before
    any SyncRun is opened, so it is not true that one is opened and closed. *)
Lemma C8_counterexample :
  let w := new_tracker empty_db Sample.t0 in
  let r := trackKeywordsByPriority Sample.coffee Sample.provider_up Sample.storage_up 1
             (Some "high") None w in
  select_keywords_to_track (Some "high") None (db w) = []
  /\ fst r = Returned {| success := 0; failed_count := 0; batch_errors := None |}
  /\ ~ sync_run_opened_and_closed w (snd r).
Proof.
  intros w r. split; [reflexivity|]. split; [reflexivity|].
  intros (run & Hin & _).
  assert (Hlog : sync_log (db (snd r)) = []) by reflexivity.
  rewrite Hlog in Hin. by apply elem_of_nil in Hin.
Qed.

Section Run.

Context (config : Config) (http_post : nat -> SerpRequest -> HttpOutcome)
        (storage_ok : StorageOp -> nat -> bool).

Lemma sync_log_untouched_position k position url date device features source raw now w :
  sync_log_untouched w
    (set_db (snd (upsert_position k position url date device
                    features source raw now (db w))) w).
Proof.
  rewrite upsert_position_appends. by destruct (position_row_checks _ _).
Qed.

Lemma sync_log_untouched_alert k ty change old new message now w :
  sync_log_untouched w
    (set_db (snd (insert_alert k ty change old new message now (db w))) w).
Proof. apply insert_alert_sync_log. Qed.

(** Batch processing leaves the sync log alone and, given a positive batch
    size and enough fuel, returns having counted every keyword a success. *)
Lemma batch_loop_sync fuel keywords results w :
  0 < batchSize config ->
  length keywords <= fuel ->
  exists w',
    batch_loop config http_post storage_ok fuel keywords 0 results w
    = (Returned {| success := success results + length keywords;
                   failed_count := failed_count results;
                   batch_errors := batch_errors results |}, w')
    /\ sync_log_untouched w w'.
Proof.
  intros Hsize Hfuel.
  rewrite <- (Nat.sub_0_r (length keywords)).
  apply batch_loop_returns; intros;
    first [apply _ | apply sync_log_untouched_position | done | lia].
Qed.

(** Alert generation leaves the sync log alone whatever its outcome. *)
Lemma generateAlerts_sync ids w :
  sync_log_untouched w (snd (generateAlerts config storage_ok ids w))
  /\ fst (generateAlerts config storage_ok ids w) <> OutOfFuel.
Proof.
  apply (keeps_generateAlerts sync_log_untouched config storage_ok);
    intros; first [apply sync_log_untouched_alert | done].
Qed.

(** C3. A tracking invocation with a positive batch size ends,
    and if it opened a SyncRun and the closing write reaches the database,
    the run is closed with status completed: no exception raised while the
    batches are processed, by the provider or by the database, can leave it
    running. The only way a run stays running is a failure of the closing
    write itself. *)
Theorem C3_sync_run_closed_when_closing_write_succeeds
    (fuel : nat) (priority projectId : option string) (w : World) :
  0 < batchSize config ->
  length (tracked_keywords (db w)) <= fuel ->
  (forall n, storage_ok OpCompleteSyncLog n = true) ->
  Forall (fun run => (sl_id run < sl_seq (db w))%Z) (sync_log (db w)) ->
  let r := trackKeywordsByPriority config http_post storage_ok fuel priority projectId w in
  fst r <> OutOfFuel
  /\ (sync_log (db (snd r)) = sync_log (db w)
      \/ exists run,
           sync_log (db (snd r)) = sync_log (db w) ++ [run]
           /\ sl_id run = sl_seq (db w)
           /\ sl_status run = completed
           /\ is_Some (sl_completed_at run))
  /\ sync_run_never_left_running w (snd r).
Proof.
  intros Hsize Hfuel Hclose Hfresh r.
  assert (Hmain : fst r <> OutOfFuel
            /\ (sync_log (db (snd r)) = sync_log (db w)
                \/ exists run,
                     sync_log (db (snd r)) = sync_log (db w) ++ [run]
                     /\ sl_id run = sl_seq (db w)
                     /\ sl_status run = completed
                     /\ is_Some (sl_completed_at run))).
  { subst r. unfold trackKeywordsByPriority. rewrite try_catch_rethrow.
    destruct (getKeywordsToTrack_cases storage_ok priority projectId w)
      as (Hdb & _ & _ & _ & Hcase).
    destruct (getKeywordsToTrack storage_ok priority projectId w)
      as [[keywords|e|] w0] eqn:Hget; simpl in Hdb, Hcase.
    2:{ rewrite (bind_thrown _ _ _ _ _ Hget). split; [done|]. left. simpl.
        by rewrite Hdb. }
    2:{ by destruct Hcase as [[? ?]|?]. }
    destruct Hcase as [[? ?]|Hks]; [done|]. injection Hks as ->.
    rewrite (bind_returned _ _ _ _ _ Hget). clear Hget.
    set (keywords := select_keywords_to_track priority projectId (db w)).
    assert (Hlen : length keywords <= fuel).
    { etrans; [apply select_keywords_to_track_length|done]. }
    destruct (length keywords =? 0).
    { split; [done|]. left. simpl. by rewrite Hdb. }
    destruct (createSyncLog_cases storage_ok "dataforseo" projectId (length keywords) w0)
      as [[[e He] Hlog]|(run & Hret & Hlog & Hid & Hst & _ & Hseq)].
    { destruct (createSyncLog storage_ok "dataforseo" projectId (length keywords) w0)
        as [[id|e'|] w1] eqn:Hcreate; simpl in *; try done.
      rewrite (bind_thrown _ _ _ _ _ Hcreate).
      split; [done|]. left. simpl. by rewrite Hlog, Hdb. }
    destruct (createSyncLog storage_ok "dataforseo" projectId (length keywords) w0)
      as [[id|e'|] w1] eqn:Hcreate; simpl in Hret, Hlog, Hseq; try done.
    injection Hret as ->.
    rewrite (bind_returned _ _ _ _ _ Hcreate). clear Hcreate.
    destruct (batch_loop_sync fuel keywords
                {| success := 0; failed_count := 0; batch_errors := Some [] |} w1
                Hsize Hlen) as (w2 & Hloop & Hlog2 & Hseq2).
    rewrite (bind_returned _ _ _ _ _ Hloop). clear Hloop.
    destruct (completeSyncLog_healthy storage_ok (sl_seq (db w0))
                (0 + length keywords) 0 [] w2 Hclose)
      as (w3 & close & Hdone & Hlog3 & Hother & Hmine).
    cbn [success failed_count batch_errors default].
    rewrite (bind_returned _ _ _ _ _ Hdone). clear Hdone.
    destruct (generateAlerts_sync (tk_id <$> keywords) w3) as [[Hlog4 _] Hfuel4].
    assert (Hclosed : sync_log (db w3) = sync_log (db w) ++ [close run]).
    { rewrite Hlog3, Hlog2, Hlog, Hdb, fmap_app. simpl. f_equal.
      rewrite <- (list_fmap_id (sync_log (db w))) at 2.
      apply list_fmap_ext. intros i old Hold. apply Hother.
      rewrite Forall_lookup in Hfresh. specialize (Hfresh i old Hold).
      unfold id. rewrite Hdb. lia. }
    destruct (Hmine run Hid) as (Hid' & Hst' & Hat & _).
    destruct (generateAlerts config storage_ok (tk_id <$> keywords) w3)
      as [[n|e|] w4] eqn:Halerts; simpl in Hlog4, Hfuel4; try done.
    - rewrite (bind_returned _ _ _ _ _ Halerts). simpl.
      split; [done|]. right. exists (close run).
      rewrite Hlog4, Hclosed, Hid', Hdb. by eauto.
    - rewrite (bind_thrown _ _ _ _ _ Halerts). simpl.
      split; [done|]. right. exists (close run).
      rewrite Hlog4, Hclosed, Hid', Hdb. by eauto. }
  destruct Hmain as [Hend Hlog]. split; [done|]. split; [done|].
  intros run Hin Hnew Hrunning.
  destruct Hlog as [Hlog|(closed & Hlog & _ & Hst & _)]; rewrite Hlog in Hin.
  - done.
  - apply elem_of_app in Hin as [Hin|Hin]; [done|].
    apply list_elem_of_singleton in Hin as ->. congruence.
Qed.

End Run.

(** C3, witness: all ten lookups fail because the provider is down; the run
    is still closed as completed. *)
Lemma C3_witness :
  let w := Sample.imported_world Sample.config in
  let r := trackKeywordsByPriority Sample.config Sample.provider_down Sample.storage_up 10
             (Some "high") None w in
  sync_log (db w) = []
  /\ exists run,
       sync_log (db (snd r)) = [run]
       /\ sl_status run = completed
       /\ is_Some (sl_completed_at run).
Proof.
  intros w r.
  assert (Hlog : sync_log (db w) = []) by (vm_compute; reflexivity).
  assert (Hrows : length (tracked_keywords (db w)) = 10) by (vm_compute; reflexivity).
  split; [exact Hlog|].
  destruct (C3_sync_run_closed_when_closing_write_succeeds
              Sample.config Sample.provider_down Sample.storage_up 10 (Some "high") None w)
    as (_ & [Hsame|(run & Hrun & _ & Hst & Hat)] & _).
  - simpl. lia.
  - rewrite Hrows. lia.
  - intros n. reflexivity.
  - rewrite Hlog. constructor.
  - exfalso.
    assert (Hone : length (sync_log (db (snd r))) = 1) by (vm_compute; reflexivity).
    unfold r in Hone. rewrite Hsame, Hlog in Hone. discriminate Hone.
  - exists run. rewrite Hlog in Hrun. exact (conj Hrun (conj Hst Hat)).
Defined.

(** C3, counterexample: the database becomes unreachable when the run is to
    be closed. [completeSyncLog] throws, nothing catches it on behalf of the
    sync log, and the run opened by this invocation stays in status running. *)
Lemma C3_counterexample :
  let w := Sample.imported_world Sample.coffee in
  let r := trackKeywordsByPriority Sample.coffee Sample.provider_up
             Sample.storage_lost_at_close 1 (Some "high") None w in
  fst r = Thrown "Connection terminated unexpectedly"
  /\ sl_status <$> sync_log (db (snd r)) = [running]
  /\ ~ sync_run_never_left_running w (snd r).
Proof.
  intros w r. split; [by vm_compute|]. split; [by vm_compute|].
  intros Hnever.
  assert (Hrun : exists run, sync_log (db (snd r)) = [run] /\ sl_status run = running).
  { eexists. vm_compute. split; reflexivity. }
  destruct Hrun as (run & Hlog & Hst).
  apply (Hnever run); [rewrite Hlog; by left| |done].
  assert (Hbefore : sync_log (db w) = []) by (vm_compute; reflexivity).
  rewrite Hbefore. apply not_elem_of_nil.
Qed.

(** Whatever the provider answers, a tracking run against a reachable
    database reports every due keyword as a success and none as a failure,
    in its result and in the SyncRun it closes. *)
Lemma every_due_keyword_reported_successful
    (config : Config) (http_post : nat -> SerpRequest -> HttpOutcome)
    (storage_ok : StorageOp -> nat -> bool)
    (fuel : nat) (priority projectId : option string) (w : World) :
  (forall op n, storage_ok op n = true) ->
  varchar_null 50 projectId = true ->
  0 < batchSize config ->
  length (tracked_keywords (db w)) <= fuel ->
  Forall (fun run => (sl_id run < sl_seq (db w))%Z) (sync_log (db w)) ->
  let due := select_keywords_to_track priority projectId (db w) in
  due <> [] ->
  exists w' run,
    trackKeywordsByPriority config http_post storage_ok fuel priority projectId w
    = (Returned {| success := length due; failed_count := 0; batch_errors := Some [] |}, w')
    /\ sync_log (db w') = sync_log (db w) ++ [run]
    /\ sl_keywords_processed run = Some (length due)
    /\ sl_keywords_success run = Some (length due)
    /\ sl_keywords_failed run = Some 0
    /\ sl_status run = completed.
Proof.
  intros Hok Hproject Hsize Hfuel Hfresh due Hdue.
  unfold trackKeywordsByPriority. rewrite try_catch_rethrow.
  erewrite bind_returned; cycle 1.
  { unfold getKeywordsToTrack, connect.
    rewrite (bind_returned _ _ _ _ _ (storage_call_up _ _ _ (Hok _ _))).
    rewrite (query_up _ _ _ _ (Hok _ _)). reflexivity. }
  change (db (count_storage_call w)) with (db w). fold due.
  assert (Hlen : length due <= fuel).
  { etrans; [apply select_keywords_to_track_length|done]. }
  destruct (length due =? 0) eqn:Hempty.
  { apply Nat.eqb_eq in Hempty. by destruct due. }
  match goal with
  | |- context [bind (createSyncLog _ _ _ _) _ ?w'] => set (w0 := w')
  end.
  assert (Hdb : db w0 = db w) by done.
  destruct (createSyncLog_cases storage_ok "dataforseo" projectId (length due) w0)
    as [[[e He] _]|(run & Hret & Hlog & Hid & _ & Hprocessed & _)].
  { exfalso. revert He. unfold createSyncLog, connect.
    rewrite (bind_returned _ _ _ _ _ (storage_call_up _ _ _ (Hok _ _))).
    rewrite bind_get, (query_up _ _ _ _ (Hok _ _)).
    unfold insert_sync_log. rewrite Hproject. done. }
  destruct (createSyncLog storage_ok "dataforseo" projectId (length due) w0)
    as [[id|e'|] w1] eqn:Hcreate; simpl in Hret, Hlog; try done.
  injection Hret as ->. rewrite (bind_returned _ _ _ _ _ Hcreate). clear Hcreate.
  destruct (batch_loop_sync config http_post storage_ok fuel due
              {| success := 0; failed_count := 0; batch_errors := Some [] |} w1
              Hsize Hlen) as (w2 & Hloop & Hlog2 & _).
  rewrite (bind_returned _ _ _ _ _ Hloop). clear Hloop.
  destruct (completeSyncLog_healthy storage_ok (sl_seq (db w0))
              (0 + length due) 0 [] w2 (Hok _))
    as (w3 & close & Hdone & Hlog3 & Hother & Hmine).
  cbn [success failed_count batch_errors default].
  rewrite (bind_returned _ _ _ _ _ Hdone). clear Hdone.
  destruct (generateAlerts_healthy config storage_ok (Hok _) (Hok _) (tk_id <$> due) w3)
    as (w4 & Halerts & _ & _ & _ & _ & Hlog4 & _).
  rewrite (bind_returned _ _ _ _ _ Halerts). clear Halerts.
  destruct (Hmine run Hid) as (_ & Hst & _ & Hsucc & Hfail & Hproc).
  exists w4, (close run). split; [reflexivity|].
  rewrite Hlog4, Hlog3, Hlog2, Hlog, ?Hdb, fmap_app. simpl.
  split; [|by rewrite Hproc].
  f_equal. rewrite <- (list_fmap_id (sync_log (db w))) at 2.
  apply list_fmap_ext. intros i old Hold. apply Hother.
  rewrite Forall_lookup in Hfresh. specialize (Hfresh i old Hold).
  unfold id. rewrite ?Hdb. simpl. lia.
Qed.

(** C1. At the failing input: ten keywords are due and the provider rejects
    three of them. The three errors reach [stats.errors] and only seven
    positions are saved, yet the run reports ten successes and no failure,
    and that is what the closed SyncRun records. *)
Theorem C1_failed_lookups_are_counted_as_successes :
  let w := Sample.imported_world Sample.config in
  let r := trackKeywordsByPriority Sample.config Sample.provider_flaky Sample.storage_up 10
             (Some "high") None w in
  length (select_keywords_to_track (Some "high") None (db w)) = 10
  /\ fst r = Returned {| success := 10; failed_count := 0; batch_errors := Some [] |}
  /\ (fun run => (sl_keywords_processed run, sl_keywords_success run,
                  sl_keywords_failed run, sl_status run)) <$> sync_log (db (snd r))
     = [(Some 10, Some 10, Some 0, completed)]
  /\ ke_keyword <$> errors (stats (snd r)) = ["k2"; "k5"; "k7"]
  /\ length (position_history (db (snd r))) = 7.
Proof. vm_compute. repeat split; reflexivity. Qed.

(** *** The position cache *)

#[global] Instance lookup_frame_preorder : PreOrder lookup_frame.
Proof.
  split.
  - by intros w.
  - intros w1 w2 w3 (?&?&?&?&?) (?&?&?&?&?). repeat split; congruence.
Qed.

Section Cache.

Context (config : Config) (http_post : nat -> SerpRequest -> HttpOutcome)
        (storage_ok : StorageOp -> nat -> bool).

Lemma savePosition_lookup_frame keywordId positionData w :
  lookup_frame w (snd (savePosition config storage_ok keywordId positionData w))
  /\ fst (savePosition config storage_ok keywordId positionData w) <> OutOfFuel.
Proof.
  apply (keeps_savePosition lookup_frame config storage_ok); try done.
  - intros id now w0. repeat split; try done. simpl.
    rewrite <- list_fmap_compose. apply list_fmap_ext. intros i r _. simpl.
    by destruct (bool_decide _).
  - intros k position url date features source raw now w0.
    rewrite upsert_position_appends. by destruct (position_row_checks _ _).
Qed.

(** Every call of [fetchPositionFromDataForSEO] is counted, whatever comes
    back. *)
Lemma fetchPosition_counts keyword locationCode device w :
  let r := fetchPositionFromDataForSEO config http_post keyword locationCode device w in
  apiCallsMade (stats (snd r)) = S (apiCallsMade (stats w))
  /\ cache (snd r) = cache w /\ clock (snd r) = clock w
  /\ cacheTimeout (snd r) = cacheTimeout w /\ db (snd r) = db w
  /\ fst r <> OutOfFuel.
Proof.
  unfold fetchPositionFromDataForSEO. rewrite bind_get, bind_modify.
  destruct (http_post _ _) as [e|[[|task tasks]|]]; try done.
  destruct (negb _); [done|].
  by destruct (task_result task) as [[|result results]|].
Qed.

(** The single lookup of a one-keyword batch, with the handler applied. *)
Lemma trackKeywordBatch_single keyword w :
  snd (trackKeywordBatch config http_post storage_ok [keyword] w)
  = match track_keyword config http_post storage_ok keyword w with
    | (Thrown e, w') =>
        push_keyword_error {| ke_keyword := tk_keyword keyword; ke_error := e |} w'
    | (_, w') => w'
    end.
Proof.
  simpl. unfold bind, try_catch.
  by destruct (track_keyword config http_post storage_ok keyword w) as [[[]| |] w'].
Qed.

Lemma fetch_and_save_counts keyword w :
  let r := fetch_and_save config http_post storage_ok keyword w in
  apiCallsMade (stats (snd r)) = S (apiCallsMade (stats w))
  /\ clock (snd r) = clock w /\ cacheTimeout (snd r) = cacheTimeout w
  /\ (forall data wf,
        fetchPositionFromDataForSEO config http_post (tk_keyword keyword)
          (tk_location_code keyword) (tk_device keyword) w = (Returned data, wf) ->
        cache (snd r)
        = <[cache_key keyword := {| ce_data := data; ce_timestamp := clock w |}]> (cache w)).
Proof.
  unfold fetch_and_save.
  destruct (fetchPosition_counts (tk_keyword keyword) (tk_location_code keyword)
              (tk_device keyword) w) as (Hapi & Hcache & Hclock & Htimeout & _ & Hfuel).
  destruct (fetchPositionFromDataForSEO config http_post _ _ _ w)
    as [[data|e|] wf] eqn:Hfetch; simpl in *; [| |done].
  2:{ rewrite (bind_thrown _ _ _ _ _ Hfetch). simpl. by repeat split. }
  rewrite (bind_returned _ _ _ _ _ Hfetch), bind_modify.
  set (wc := set_cache _ wf).
  destruct (savePosition_lookup_frame (tk_id keyword) data wc)
    as [(Hc & Hk & Ht & Ha & _) Hfuel'].
  destruct (savePosition config storage_ok (tk_id keyword) data wc)
    as [[res|e|] ws] eqn:Hsave; simpl in *; [| |done].
  - rewrite (bind_returned _ _ _ _ _ Hsave). simpl.
    rewrite Ha, Hk, Ht, Hc. repeat split; try done.
    intros data' wf' ?. simplify_eq. by rewrite Hcache, Hclock.
  - rewrite (bind_thrown _ _ _ _ _ Hsave). simpl.
    rewrite Ha, Hk, Ht, Hc. repeat split; try done.
    intros data' wf' ?. simplify_eq. by rewrite Hcache, Hclock.
Qed.

(** A lookup that finds no fresh entry and gets an answer from the provider
    leaves that answer in the cache, stamped with the current time. *)
Lemma first_lookup keyword data w wf :
  match cache w !! cache_key keyword with
  | Some c => (cacheTimeout w <= clock w - ce_timestamp c)%Z
  | None => True
  end ->
  fetchPositionFromDataForSEO config http_post (tk_keyword keyword)
    (tk_location_code keyword) (tk_device keyword) w = (Returned data, wf) ->
  let w1 := snd (trackKeywordBatch config http_post storage_ok [keyword] w) in
  cache w1 = <[cache_key keyword := {| ce_data := data; ce_timestamp := clock w |}]> (cache w)
  /\ clock w1 = clock w /\ cacheTimeout w1 = cacheTimeout w
  /\ apiCallsMade (stats w1) = S (apiCallsMade (stats w)).
Proof.
  intros Hmiss Hfetch w1. subst w1. rewrite trackKeywordBatch_single.
  assert (Htrack : track_keyword config http_post storage_ok keyword w
                   = fetch_and_save config http_post storage_ok keyword w).
  { unfold track_keyword. rewrite bind_get.
    destruct (cache w !! cache_key keyword) as [c|]; [|done].
    by rewrite (proj2 (Z.ltb_ge _ _) Hmiss). }
  rewrite Htrack.
  destruct (fetch_and_save_counts keyword w) as (Hapi & Hclock & Htimeout & Hcache).
  specialize (Hcache data wf Hfetch).
  destruct (fetch_and_save config http_post storage_ok keyword w) as [[[]|e|] w'];
    simpl in *; by repeat split.
Qed.

(** A lookup that finds a fresh entry does not call the provider, and saves
    the cached observation under today's date. *)
Lemma hit_lookup keyword entry w :
  cache w !! cache_key keyword = Some entry ->
  (clock w - ce_timestamp entry < cacheTimeout w)%Z ->
  let w2 := snd (trackKeywordBatch config http_post storage_ok [keyword] w) in
  apiCallsMade (stats w2) = apiCallsMade (stats w)
  /\ ((forall n, storage_ok OpSavePosition n = true) ->
      tk_id keyword ∈ tk_id <$> tracked_keywords (db w) ->
      String.length (ds_device config) <= 10 ->
      position_history (db w2)
      = position_history (db w)
          ++ [saved_row config (tk_id keyword) (ce_data entry) (ph_seq (db w)) (clock w)]).
Proof.
  intros Hentry Hfresh w2. subst w2. rewrite trackKeywordBatch_single.
  assert (Htrack : track_keyword config http_post storage_ok keyword w
                   = bind (savePosition config storage_ok (tk_id keyword) (ce_data entry))
                       (fun _ => ret tt) w).
  { unfold track_keyword. rewrite bind_get, Hentry.
    by rewrite (proj2 (Z.ltb_lt _ _) Hfresh). }
  rewrite Htrack.
  destruct (savePosition_lookup_frame (tk_id keyword) (ce_data entry) w)
    as [(_ & _ & _ & Hapi & _) Hfuel].
  split.
  - destruct (savePosition config storage_ok (tk_id keyword) (ce_data entry) w)
      as [[res|e|] ws] eqn:Hsave; simpl in *; [| |done].
    + by rewrite (bind_returned _ _ _ _ _ Hsave).
    + by rewrite (bind_thrown _ _ _ _ _ Hsave).
  - intros Hok Hfk Hlen.
    destruct (savePosition_healthy config storage_ok (tk_id keyword) (ce_data entry) w
                Hok Hfk Hlen) as (res & ws & Hsave).
    rewrite (bind_returned _ _ _ _ _ Hsave). simpl.
    by apply savePosition_returned in Hsave as (-> & _).
Qed.

(** A lookup that finds only an expired entry calls the provider again. *)
Lemma stale_lookup keyword entry w :
  cache w !! cache_key keyword = Some entry ->
  (cacheTimeout w <= clock w - ce_timestamp entry)%Z ->
  let w2 := snd (trackKeywordBatch config http_post storage_ok [keyword] w) in
  apiCallsMade (stats w2) = S (apiCallsMade (stats w)).
Proof.
  intros Hentry Hstale w2. subst w2. rewrite trackKeywordBatch_single.
  assert (Htrack : track_keyword config http_post storage_ok keyword w
                   = fetch_and_save config http_post storage_ok keyword w).
  { unfold track_keyword. rewrite bind_get, Hentry.
    by rewrite (proj2 (Z.ltb_ge _ _) Hstale). }
  rewrite Htrack.
  destruct (fetch_and_save_counts keyword w) as (Hapi & _).
  by destruct (fetch_and_save config http_post storage_ok keyword w) as [[[]|e|] w'].
Qed.

(** A lookup served from the cache leaves the cache as it was: the entry
    keeps the time of the provider call that made it. *)
Lemma hit_keeps_cache keyword entry w :
  cache w !! cache_key keyword = Some entry ->
  (clock w - ce_timestamp entry < cacheTimeout w)%Z ->
  cache (snd (trackKeywordBatch config http_post storage_ok [keyword] w)) = cache w.
Proof.
  intros Hentry Hfresh. rewrite trackKeywordBatch_single.
  assert (Htrack : track_keyword config http_post storage_ok keyword w
                   = bind (savePosition config storage_ok (tk_id keyword) (ce_data entry))
                       (fun _ => ret tt) w).
  { unfold track_keyword. rewrite bind_get, Hentry.
    by rewrite (proj2 (Z.ltb_lt _ _) Hfresh). }
  rewrite Htrack.
  destruct (savePosition_lookup_frame (tk_id keyword) (ce_data entry) w)
    as [(Hcache & _) Hfuel].
  destruct (savePosition config storage_ok (tk_id keyword) (ce_data entry) w)
    as [[res|e|] ws] eqn:Hsave; simpl in *; [| |done].
  - by rewrite (bind_returned _ _ _ _ _ Hsave).
  - by rewrite (bind_thrown _ _ _ _ _ Hsave).
Qed.

(** A lookup that finds no entry, or only one that has reached the
    time-to-live, calls the provider; the answer is cached under the current
    time, a failure is not cached. *)
Lemma miss_lookup keyword w :
  match cache w !! cache_key keyword with
  | Some c => (cacheTimeout w <= clock w - ce_timestamp c)%Z
  | None => True
  end ->
  let fetched := fetchPositionFromDataForSEO config http_post (tk_keyword keyword)
                   (tk_location_code keyword) (tk_device keyword) w in
  let w2 := snd (trackKeywordBatch config http_post storage_ok [keyword] w) in
  apiCallsMade (stats w2) = S (apiCallsMade (stats w))
  /\ (forall data,
        fst fetched = Returned data ->
        cache w2
        = <[cache_key keyword := {| ce_data := data; ce_timestamp := clock w |}]> (cache w))
  /\ (forall e, fst fetched = Thrown e -> cache w2 = cache w).
Proof.
  intros Hmiss fetched w2. subst fetched w2.
  destruct (fetchPositionFromDataForSEO config http_post (tk_keyword keyword)
              (tk_location_code keyword) (tk_device keyword) w)
    as [[data|e|] wf] eqn:Hfetch; cbn [fst].
  - destruct (first_lookup keyword data w wf Hmiss Hfetch) as (Hcache & _ & _ & Hapi).
    split; [exact Hapi|]. split; [|done]. intros data' ?. by simplify_eq.
  - rewrite trackKeywordBatch_single.
    assert (Htrack : track_keyword config http_post storage_ok keyword w
                     = fetch_and_save config http_post storage_ok keyword w).
    { unfold track_keyword. rewrite bind_get.
      destruct (cache w !! cache_key keyword) as [c|]; [|done].
      by rewrite (proj2 (Z.ltb_ge _ _) Hmiss). }
    rewrite Htrack.
    destruct (fetchPosition_counts (tk_keyword keyword) (tk_location_code keyword)
                (tk_device keyword) w) as (Hapi & Hcache & _).
    rewrite Hfetch in Hapi, Hcache. simpl in Hapi, Hcache.
    unfold fetch_and_save. rewrite (bind_thrown _ _ _ _ _ Hfetch). simpl.
    split; [exact Hapi|]. split; [done|]. intros _ _. exact Hcache.
  - destruct (fetchPosition_counts (tk_keyword keyword) (tk_location_code keyword)
                (tk_device keyword) w) as (_ & _ & _ & _ & _ & Hfuel).
    by rewrite Hfetch in Hfuel.
Qed.

End Cache.

(** C7. A lookup is served from the cache exactly while the cache holds an
    entry for its (keyword, location, device) that is younger than the
    time-to-live, counted from the provider call that made the entry. Such a
    lookup makes no provider call and leaves the entry and its age as they
    were, and (database reachable, keyword present) it still writes one
    history row: the cached observation, dated with the day of the lookup.
    A lookup that finds no entry, or one that has reached the time-to-live,
    calls the provider; its answer is cached under the current time, a
    failure is not cached. Hence, when a lookup went to the provider and was
    answered, a lookup of the same tuple [dt] milliseconds later makes no
    provider call if [dt] is below the time-to-live, and a new one if not. *)
Theorem C7_lookup_skips_provider_while_entry_is_fresh
    (config : Config) (http_post : nat -> SerpRequest -> HttpOutcome)
    (storage_ok : StorageOp -> nat -> bool) :
  (forall keyword entry w,
     cache w !! cache_key keyword = Some entry ->
     (clock w - ce_timestamp entry < cacheTimeout w)%Z ->
     let w2 := snd (trackKeywordBatch config http_post storage_ok [keyword] w) in
     apiCallsMade (stats w2) = apiCallsMade (stats w)
     /\ cache w2 = cache w
     /\ ((forall n, storage_ok OpSavePosition n = true) ->
         tk_id keyword ∈ tk_id <$> tracked_keywords (db w) ->
         String.length (ds_device config) <= 10 ->
         exists row,
           position_history (db w2) = position_history (db w) ++ [row]
           /\ ph_keyword_id row = tk_id keyword
           /\ ph_date row = date_of (clock w)
           /\ ph_position row = pd_position (ce_data entry)
           /\ ph_url row = pd_url (ce_data entry)))
  /\ (forall keyword w,
        match cache w !! cache_key keyword with
        | Some entry => (cacheTimeout w <= clock w - ce_timestamp entry)%Z
        | None => True
        end ->
        let fetched := fetchPositionFromDataForSEO config http_post (tk_keyword keyword)
                         (tk_location_code keyword) (tk_device keyword) w in
        let w2 := snd (trackKeywordBatch config http_post storage_ok [keyword] w) in
        apiCallsMade (stats w2) = S (apiCallsMade (stats w))
        /\ (forall data,
              fst fetched = Returned data ->
              cache w2
              = <[cache_key keyword := {| ce_data := data; ce_timestamp := clock w |}]>
                  (cache w))
        /\ (forall e, fst fetched = Thrown e -> cache w2 = cache w))
  /\ (forall (keyword keyword' : TrackedKeyword) (data : PositionData)
             (w0 wf : World) (dt : Z),
        tk_keyword keyword' = tk_keyword keyword ->
        tk_location_code keyword' = tk_location_code keyword ->
        tk_device keyword' = tk_device keyword ->
        match cache w0 !! cache_key keyword with
        | Some c => (cacheTimeout w0 <= clock w0 - ce_timestamp c)%Z
        | None => True
        end ->
        fetchPositionFromDataForSEO config http_post (tk_keyword keyword)
          (tk_location_code keyword) (tk_device keyword) w0 = (Returned data, wf) ->
        let w1 := snd (trackKeywordBatch config http_post storage_ok [keyword] w0) in
        let later := set_clock (clock w1 + dt) w1 in
        let w2 := snd (trackKeywordBatch config http_post storage_ok [keyword'] later) in
        apiCallsMade (stats w1) = S (apiCallsMade (stats w0))
        /\ ((dt < cacheTimeout w0)%Z ->
            apiCallsMade (stats w2) = apiCallsMade (stats w1)
            /\ ((forall n, storage_ok OpSavePosition n = true) ->
                tk_id keyword' ∈ tk_id <$> tracked_keywords (db w1) ->
                String.length (ds_device config) <= 10 ->
                exists row,
                  position_history (db w2) = position_history (db w1) ++ [row]
                  /\ ph_keyword_id row = tk_id keyword'
                  /\ ph_date row = date_of (clock w0 + dt)
                  /\ ph_position row = pd_position data
                  /\ ph_url row = pd_url data))
        /\ ((cacheTimeout w0 <= dt)%Z ->
            apiCallsMade (stats w2) = S (apiCallsMade (stats w1)))).
Proof.
  split; [|split].
  - intros keyword entry w Hentry Hfresh w2. subst w2.
    destruct (hit_lookup config http_post storage_ok keyword entry w Hentry Hfresh)
      as (Hsame & Hrow).
    split; [exact Hsame|]. split.
    { by apply hit_keeps_cache with entry. }
    intros Hok Hfk Hlen. eexists. split; [exact (Hrow Hok Hfk Hlen)|]. done.
  - intros keyword w Hmiss. by apply miss_lookup.
  - intros keyword keyword' data w0 wf dt Hk Hl Hd Hmiss Hfetch w1 later w2.
    destruct (first_lookup config http_post storage_ok keyword data w0 wf Hmiss Hfetch)
      as (Hcache & Hclock & Htimeout & Hapi).
    fold w1 in Hcache, Hclock, Htimeout, Hapi.
    assert (Hkey : cache_key keyword' = cache_key keyword).
    { unfold cache_key. by rewrite Hk, Hl, Hd. }
    assert (Hentry : cache later !! cache_key keyword'
                     = Some {| ce_data := data; ce_timestamp := clock w0 |}).
    { unfold later. simpl. rewrite Hcache, Hkey. apply lookup_insert_eq. }
    assert (Hage : (clock later - clock w0 = dt)%Z).
    { unfold later. simpl. lia. }
    split; [exact Hapi|]. split.
    + intros Hfresh.
      destruct (hit_lookup config http_post storage_ok keyword' _ later Hentry)
        as (Hsame & Hrow).
      { simpl. rewrite Htimeout. lia. }
      split; [exact Hsame|].
      intros Hok Hfk Hlen. eexists. split; [exact (Hrow Hok Hfk Hlen)|].
      simpl. rewrite Hclock. done.
    + intros Hstale.
      apply (stale_lookup config http_post storage_ok keyword' _ later Hentry).
      simpl. rewrite Htimeout. lia.
Qed.

(** C7, witness: the coffee keyword is looked up ten minutes before
    midnight and again half an hour later. The second lookup is served from
    the cache and its row is dated the next day; a lookup two hours later
    calls the provider again. *)
Lemma C7_witness :
  let w0 := set_clock Sample.late_evening (Sample.imported_world Sample.coffee) in
  let run := trackKeywordBatch Sample.coffee Sample.provider_up Sample.storage_up
               [Sample.coffee_row] in
  let w1 := snd (run w0) in
  let half_hour := set_clock (clock w1 + 1800000) w1 in
  let two_hours := set_clock (clock w1 + 7200000) w1 in
  tracked_keywords (db w0) = [Sample.coffee_row]
  /\ apiCallsMade (stats w1) = 1
  /\ apiCallsMade (stats (snd (run half_hour))) = 1
  /\ ph_date <$> position_history (db (snd (run half_hour))) = [19675%Z; 19676%Z]
  /\ apiCallsMade (stats (snd (run two_hours))) = 2.
Proof.
  intros w0 run w1 half_hour two_hours.
  assert (Hrows : tracked_keywords (db w0) = [Sample.coffee_row])
    by (vm_compute; reflexivity).
  assert (Hnone : cache w0 !! cache_key Sample.coffee_row = None)
    by (vm_compute; reflexivity).
  assert (Hfetch : fetchPositionFromDataForSEO Sample.coffee Sample.provider_up
                     "best coffee" (Some 2840%Z) (Some "desktop") w0
                   = (Returned (parse_result Sample.coffee "best coffee"
                                  {| sr_items :=
                                       Some [ {| it_type := "organic";
                                                 it_domain := Some "www.example.com";
                                                 it_rank_absolute := Some 7%Z;
                                                 it_url := Some "https://www.example.com/" |} ] |}),
                      snd (fetchPositionFromDataForSEO Sample.coffee Sample.provider_up
                             "best coffee" (Some 2840%Z) (Some "desktop") w0)))
    by (vm_compute; reflexivity).
  assert (Hmiss : match cache w0 !! cache_key Sample.coffee_row with
                  | Some c => (cacheTimeout w0 <= clock w0 - ce_timestamp c)%Z
                  | None => True
                  end) by (rewrite Hnone; exact I).
  assert (Hstart : apiCallsMade (stats w0) = 0) by (vm_compute; reflexivity).
  assert (Htimeout : cacheTimeout w0 = 3600000%Z) by (vm_compute; reflexivity).
  assert (Hhistory : ph_date <$> position_history (db w1) = [19675%Z])
    by (vm_compute; reflexivity).
  assert (Hids : tk_id <$> tracked_keywords (db w1) = [1%Z])
    by (vm_compute; reflexivity).
  assert (Hfk : tk_id Sample.coffee_row ∈ tk_id <$> tracked_keywords (db w1))
    by (rewrite Hids; apply list_elem_of_here).
  assert (Hlen : String.length (ds_device Sample.coffee) <= 10)
    by (vm_compute; repeat constructor).
  assert (Hday : date_of (clock w0 + 1800000) = 19676%Z) by (vm_compute; reflexivity).
  pose proof (proj2 (proj2 (C7_lookup_skips_provider_while_entry_is_fresh
                              Sample.coffee Sample.provider_up Sample.storage_up))
                Sample.coffee_row Sample.coffee_row _ w0 _ 1800000%Z
                eq_refl eq_refl eq_refl Hmiss Hfetch) as (Hfirst & Hhit & _).
  pose proof (proj2 (proj2 (C7_lookup_skips_provider_while_entry_is_fresh
                              Sample.coffee Sample.provider_up Sample.storage_up))
                Sample.coffee_row Sample.coffee_row _ w0 _ 7200000%Z
                eq_refl eq_refl eq_refl Hmiss Hfetch) as (_ & _ & Hexpired).
  cbn zeta in Hfirst, Hhit, Hexpired.
  subst half_hour two_hours w1 run. cbn beta in *.
  rewrite Htimeout in Hhit, Hexpired.
  destruct (Hhit ltac:(lia)) as (Hsame & Hsaved).
  destruct (Hsaved (fun _ => eq_refl) Hfk Hlen) as (row & Hrow & _ & Hdate & _).
  rewrite Hfirst, Hstart in Hsame, Hexpired.
  split; [exact Hrows|].
  split; [rewrite Hfirst, Hstart; reflexivity|]. split; [exact Hsame|]. split.
  - rewrite Hrow, fmap_app, Hhistory. cbn [fmap list_fmap app]. rewrite Hdate, Hday.
    reflexivity.
  - apply Hexpired. lia.
Defined.

(** C7, counterexample to "for every pair of lookups within the
    time-to-live the second makes no provider call". The coffee keyword is
    looked up and answered, looked up again 50 minutes later (served from
    the cache) and once more 20 minutes after that: the third lookup comes
    20 minutes after the second and calls the provider, the entry being 70
    minutes old. And with the provider down, a lookup one minute after a
    failed one calls the provider again, nothing having been cached. *)
Lemma C7_counterexample :
  let w0 := Sample.imported_world Sample.coffee in
  let lookup http := trackKeywordBatch Sample.coffee http Sample.storage_up
                       [Sample.coffee_row] in
  let later dt w := set_clock (clock w + dt) w in
  let w1 := snd (lookup Sample.provider_up w0) in
  let w2 := snd (lookup Sample.provider_up (later 3000000%Z w1)) in
  let w3 := snd (lookup Sample.provider_up (later 1200000%Z w2)) in
  let f1 := snd (lookup Sample.provider_down w0) in
  let f2 := snd (lookup Sample.provider_down (later 60000%Z f1)) in
  cacheTimeout w0 = 3600000%Z
  /\ (apiCallsMade (stats w1), apiCallsMade (stats w2), apiCallsMade (stats w3)) = (1, 1, 2)
  /\ (clock w3 - clock w2 = 1200000)%Z
  /\ (apiCallsMade (stats f1), apiCallsMade (stats f2)) = (1, 2)
  /\ (clock f2 - clock f1 = 60000)%Z.
Proof. vm_compute. repeat split; reflexivity. Qed.

(** *** Further checks of the model *)

(** A batch size of zero never advances the loop index: whatever the fuel,
    the loop over a non-empty due list does not end. *)
Lemma batch_loop_zero_size_diverges
    (config : Config) (http_post : nat -> SerpRequest -> HttpOutcome)
    (storage_ok : StorageOp -> nat -> bool)
    (fuel : nat) (keywords : list TrackedKeyword) (results : Results) (w : World) :
  batchSize config = 0 ->
  keywords <> [] ->
  fst (batch_loop config http_post storage_ok fuel keywords 0 results w) = OutOfFuel.
Proof.
  intros Hzero Hdue. revert results w.
  assert (Hlt : (0 <? length keywords) = true).
  { apply Nat.ltb_lt. destruct keywords; [done|simpl; lia]. }
  induction fuel as [|fuel IH]; intros results w; simpl; rewrite Hlt; [done|].
  rewrite Hzero. simpl. unfold bind, try_catch, ret. simpl. rewrite Hlt.
  unfold sleep, modify. simpl. apply IH.
Qed.

(** The scenario of the design: "best coffee" is imported, tracked at tier
    high with the provider answering rank 7; one history row with position 7
    for today results, and no alert, there being no earlier position. *)
Example best_coffee_scenario :
  let w := Sample.imported_world Sample.coffee in
  let r := trackKeywordsByPriority Sample.coffee Sample.provider_up Sample.storage_up 1
             (Some "high") None w in
  fst r = Returned {| success := 1; failed_count := 0; batch_errors := Some [] |}
  /\ (fun row => (ph_keyword_id row, ph_position row, ph_date row))
       <$> position_history (db (snd r))
     = [(1%Z, Some 7%Z, date_of Sample.t0)]
  /\ tracking_alerts (db (snd r)) = []
  /\ sl_status <$> sync_log (db (snd r)) = [completed].
Proof. vm_compute. repeat split; reflexivity. Qed.

(** Importing the same configuration twice: the second pass inserts nothing
    and reports every keyword as updated. *)
Example import_twice :
  let w := Sample.imported_world Sample.config in
  let r := importKeywordsFromConfig Sample.config Sample.storage_up None w in
  fst r = Returned {| imported := 0; skipped := 10 |}
  /\ length (tracked_keywords (db w)) = 10
  /\ length (tracked_keywords (db (snd r))) = 10
  /\ tk_created_at <$> tracked_keywords (db (snd r))
     = tk_created_at <$> tracked_keywords (db w).
Proof. vm_compute. repeat split; reflexivity. Qed.

(** Two tracking runs within the hour: the second is served from the cache
    and makes no provider call, yet writes its own history row. *)
Example second_run_served_from_cache :
  let w := Sample.imported_world Sample.coffee in
  let run := trackKeywordsByPriority Sample.coffee Sample.provider_up Sample.storage_up 1
               (Some "high") None in
  let w1 := snd (run w) in
  let w2 := snd (run (set_clock (clock w1 + 600000) w1)) in
  apiCallsMade (stats w1) = 1
  /\ apiCallsMade (stats w2) = 1
  /\ length (position_history (db w1)) = 1
  /\ length (position_history (db w2)) = 2.
Proof. vm_compute. repeat split; reflexivity. Qed.

(** *** The whole import *)

#[global] Instance frequencies_daily_or_weekly_preorder :
  PreOrder frequencies_daily_or_weekly.
Proof.
  split.
  - intros w row Hrow. by right.
  - intros w1 w2 w3 H12 H23 row Hrow.
    destruct (H23 row Hrow) as [?|Hrow2]; [by left|]. by apply H12.
Qed.

Lemma try_catch_returned_inv {A} (m : M A) (handler : string -> M A) w a w' :
  try_catch m handler w = (Returned a, w') ->
  m w = (Returned a, w')
  \/ exists e w1, m w = (Thrown e, w1) /\ handler e w1 = (Returned a, w').
Proof.
  unfold try_catch. destruct (m w) as [[a'|e|] w1]; intros H; try done; eauto.
Qed.

Section WholeImport.

Context (config : Config) (storage_ok : StorageOp -> nat -> bool).

Lemma tracking_frequency_param_values kw priority :
  tracking_frequency_param kw priority = "daily"
  \/ tracking_frequency_param kw priority = "weekly".
Proof. unfold tracking_frequency_param. destruct (_ || _); eauto. Qed.

Lemma import_keyword_frequencies pid projectData priority kw counts w counts' w' :
  import_keyword config storage_ok pid projectData priority kw counts w
  = (Returned counts', w') ->
  frequencies_daily_or_weekly w w'.
Proof.
  intros H. unfold import_keyword in H. rewrite bind_get in H.
  apply bind_returned_inv in H as (res & w1 & Hq & H).
  apply query_returned_inv in Hq as [_ (d & Hd & ->)].
  unfold ret in H. simplify_eq. intros row Hrow. simpl in Hrow.
  unfold upsert_tracked_keyword in Hd.
  set (proposed := proposed_keyword _ _ _) in Hd.
  destruct (tracked_keyword_checks proposed); simpl in Hd; [|done].
  destruct (update_first _ _ _) as [[rows updated]|] eqn:Hup; simplify_eq; simpl in Hrow.
  - apply update_first_some in Hup as (i & r & Hi & _ & -> & ->).
    apply list_elem_of_lookup in Hrow as [j Hj].
    destruct (decide (j = i)) as [->|Hne].
    + rewrite list_lookup_insert_eq in Hj by (by eapply lookup_lt_Some).
      injection Hj as <-. left. apply tracking_frequency_param_values.
    + rewrite list_lookup_insert_ne in Hj by done. right.
      apply list_elem_of_lookup. eauto.
  - apply elem_of_app in Hrow as [Hrow|Hrow]; [by right|].
    apply list_elem_of_singleton in Hrow as ->. left.
    apply tracking_frequency_param_values.
Qed.

Lemma import_keywords_frequencies pid projectData priority keywords counts w counts' w' :
  import_keywords config storage_ok pid projectData priority keywords counts w
  = (Returned counts', w') ->
  frequencies_daily_or_weekly w w'.
Proof.
  revert counts w. induction keywords as [|kw rest IH]; intros counts w H; simpl in H.
  - unfold ret in H. by simplify_eq.
  - apply bind_returned_inv in H as (c1 & w1 & Hstep & H).
    etrans; [by eapply import_keyword_frequencies|by eapply IH].
Qed.

Lemma import_tiers_frequencies pid projectData tiers counts w counts' w' :
  import_tiers config storage_ok pid projectData tiers counts w = (Returned counts', w') ->
  frequencies_daily_or_weekly w w'.
Proof.
  revert counts w. induction tiers as [|[priority keywords] rest IH];
    intros counts w H; simpl in H.
  - unfold ret in H. by simplify_eq.
  - apply bind_returned_inv in H as (c1 & w1 & Hstep & H).
    etrans; [by eapply import_keywords_frequencies|by eapply IH].
Qed.

Lemma import_projects_frequencies entries counts w counts' w' :
  import_projects config storage_ok entries counts w = (Returned counts', w') ->
  frequencies_daily_or_weekly w w'.
Proof.
  revert counts w. induction entries as [|[pid [projectData|]] rest IH];
    intros counts w H; simpl in H.
  - unfold ret in H. by simplify_eq.
  - apply bind_returned_inv in H as (c1 & w1 & Hstep & H).
    etrans; [by eapply import_tiers_frequencies|by eapply IH].
  - done.
Qed.

(** After a successful [importKeywordsFromConfig], every row of
    [tracked_keywords] that the import wrote has frequency daily or weekly;
    the other rows are the ones that were there before. *)
Lemma importKeywordsFromConfig_frequencies projectId w result w' :
  importKeywordsFromConfig config storage_ok projectId w = (Returned result, w') ->
  frequencies_daily_or_weekly w w'.
Proof.
  intros H. unfold importKeywordsFromConfig, connect in H.
  apply bind_returned_inv in H as (u & w1 & Hcall & H).
  apply storage_call_returned_inv in Hcall as [_ ->].
  rewrite bind_get in H.
  apply try_catch_returned_inv in H as [H|(e & w2 & _ & H)].
  - apply bind_returned_inv in H as (u1 & w2 & Hbegin & H).
    apply query_returned_inv in Hbegin as [_ (d & Hd & ->)].
    unfold control_statement in Hd. simplify_eq.
    apply bind_returned_inv in H as (counts & w3 & Hloop & H).
    apply import_projects_frequencies in Hloop.
    apply bind_returned_inv in H as (u2 & w4 & Hcommit & H).
    apply query_returned_inv in Hcommit as [_ (d & Hd & ->)].
    unfold control_statement in Hd. unfold ret in H. simplify_eq.
    intros row Hrow. by apply (Hloop row).
  - rewrite bind_modify in H.
    apply bind_returned_inv in H as (u1 & w3 & _ & H). done.
Qed.

End WholeImport.

(** The ids handed to [generateAlerts] by a tracking run are those of the due
    keywords; they are distinct because [id] is the primary key. *)
Lemma due_keyword_ids_distinct priority projectId d :
  NoDup (tk_id <$> tracked_keywords d) ->
  NoDup (tk_id <$> select_keywords_to_track priority projectId d).
Proof.
  intros Hkey. unfold select_keywords_to_track.
  rewrite (merge_sort_Permutation due_before _).
  eapply sublist_NoDup; [exact Hkey|apply fmap_sublist, sublist_filter].
Qed.

(** ** Further properties of the engine *)

(** *** The import as a sequence of upserts *)

Lemma import_steps_app ps qs c w c1 w1 c' w' :
  import_steps ps c w c1 w1 -> import_steps qs c1 w1 c' w' ->
  import_steps (ps ++ qs) c w c' w'.
Proof.
  revert c w. induction ps as [|p ps IH]; intros c w H1 H2; simpl in *.
  - by destruct H1 as [-> ->].
  - destruct H1 as (res & d & Hup & H1). exists res, d. split; [done|]. by apply IH.
Qed.

Section ImportSteps.

Context (config : Config) (storage_ok : StorageOp -> nat -> bool).

Lemma import_keyword_steps pid projectData priority kw counts w counts' w' :
  import_keyword config storage_ok pid projectData priority kw counts w
  = (Returned counts', w') ->
  import_steps [import_params config pid projectData priority kw] counts w counts' w'.
Proof.
  intros H. unfold import_keyword in H. rewrite bind_get in H.
  apply bind_returned_inv in H as (res & w1 & Hq & H).
  apply query_returned_inv in Hq as [_ (d & Hd & ->)].
  unfold ret in H. simplify_eq. simpl. by exists res, d.
Qed.

Lemma import_keywords_steps pid projectData priority keywords counts w counts' w' :
  import_keywords config storage_ok pid projectData priority keywords counts w
  = (Returned counts', w') ->
  import_steps (import_params config pid projectData priority <$> keywords)
    counts w counts' w'.
Proof.
  revert counts w. induction keywords as [|kw rest IH]; intros counts w H; simpl in H.
  - unfold ret in H. by simplify_eq.
  - apply bind_returned_inv in H as (c1 & w1 & Hstep & H).
    apply import_keyword_steps in Hstep. apply IH in H.
    exact (import_steps_app [_] _ _ _ _ _ _ _ Hstep H).
Qed.

Lemma import_tiers_steps pid projectData tiers counts w counts' w' :
  import_tiers config storage_ok pid projectData tiers counts w = (Returned counts', w') ->
  import_steps
    (flat_map (fun tier => import_params config pid projectData (fst tier) <$> snd tier) tiers)
    counts w counts' w'.
Proof.
  revert counts w. induction tiers as [|[priority keywords] rest IH];
    intros counts w H; simpl in H.
  - unfold ret in H. by simplify_eq.
  - apply bind_returned_inv in H as (c1 & w1 & Hstep & H).
    apply import_keywords_steps in Hstep. apply IH in H.
    simpl. by eapply import_steps_app.
Qed.

Lemma import_projects_steps entries counts w counts' w' :
  import_projects config storage_ok entries counts w = (Returned counts', w') ->
  import_steps
    (flat_map (fun entry =>
                 match snd entry with
                 | Some projectData => project_params config (fst entry) projectData
                 | None => []
                 end) entries)
    counts w counts' w'.
Proof.
  revert counts w. induction entries as [|[pid [projectData|]] rest IH];
    intros counts w H; simpl in H.
  - unfold ret in H. by simplify_eq.
  - apply bind_returned_inv in H as (c1 & w1 & Hstep & H).
    apply import_tiers_steps in Hstep. apply IH in H.
    simpl. by eapply import_steps_app.
  - done.
Qed.

(** A successful import is the run of upserts of its plan between BEGIN and
    COMMIT. *)
Lemma importKeywordsFromConfig_steps projectId w result w' :
  importKeywordsFromConfig config storage_ok projectId w = (Returned result, w') ->
  exists w1,
    import_steps (import_plan config projectId) {| imported := 0; skipped := 0 |}
      (count_storage_call (count_storage_call w)) result w1
    /\ w' = count_storage_call w1.
Proof.
  intros H. unfold importKeywordsFromConfig, connect in H.
  apply bind_returned_inv in H as (u & w1 & Hcall & H).
  apply storage_call_returned_inv in Hcall as [_ ->].
  rewrite bind_get in H.
  apply try_catch_returned_inv in H as [H|(e & w2 & _ & H)].
  - apply bind_returned_inv in H as (u1 & w2 & Hbegin & H).
    apply query_returned_inv in Hbegin as [_ (d & Hd & ->)].
    unfold control_statement in Hd. simplify_eq.
    apply bind_returned_inv in H as (counts & w3 & Hloop & H).
    apply import_projects_steps in Hloop.
    apply bind_returned_inv in H as (u2 & w4 & Hcommit & H).
    apply query_returned_inv in Hcommit as [_ (d & Hd & ->)].
    unfold control_statement in Hd. unfold ret in H. simplify_eq.
    exists w3. split; [|by destruct w3].
    replace (set_db _ _) with (count_storage_call (count_storage_call w)) in Hloop
      by (by destruct w).
    exact Hloop.
  - rewrite bind_modify in H.
    apply bind_returned_inv in H as (u1 & w3 & _ & H). done.
Qed.

End ImportSteps.

Lemma import_steps_counts params counts w counts' w' :
  import_steps params counts w counts' w' ->
  imported counts' + skipped counts' = imported counts + skipped counts + length params
  /\ length (tracked_keywords (db w')) + imported counts
     = length (tracked_keywords (db w)) + imported counts'
  /\ position_history (db w') = position_history (db w)
  /\ tracking_alerts (db w') = tracking_alerts (db w)
  /\ sync_log (db w') = sync_log (db w)
  /\ clock w' = clock w.
Proof.
  revert counts w. induction params as [|p rest IH]; intros counts w H; simpl in H.
  - destruct H as [-> ->]. simpl. repeat split; lia.
  - destruct H as (res & d & Hup & H). apply IH in H as (Hn & Hrows & Hh & Ha & Hs & Hc).
    unfold upsert_tracked_keyword in Hup.
    destruct (negb _); [done|].
    destruct (update_first _ _ _) as [[rows updated]|] eqn:Hfirst; simplify_eq;
      simpl in *; rewrite Hh, Ha, Hs, Hc; repeat split; try lia.
    apply update_first_some in Hfirst as (i & r & _ & _ & _ & ->).
    rewrite length_insert in Hrows. lia.
    rewrite length_app in Hrows. simpl in Hrows. lia.
Qed.

Lemma same_identity_iff (a b : TrackedKeyword) :
  same_identity a b = true
  <-> identity_of a = identity_of b
      /\ is_Some (tk_device a) /\ is_Some (tk_location_code a).
Proof.
  unfold same_identity, identity_of, unique_col_eq. split.
  - intros H. repeat (apply andb_true_iff in H as [H ?]).
    destruct (tk_device a), (tk_device b), (tk_location_code a), (tk_location_code b);
      try done.
    repeat match goal with H : bool_decide _ = true |- _ => apply bool_decide_eq_true in H end.
    split; [congruence|]. by eauto.
  - intros (H & [dv Hdv] & [lc Hlc]). injection H as Hk Hp Hd Hl.
    rewrite Hdv in Hd. rewrite Hlc in Hl. rewrite Hdv, Hlc, <- Hd, <- Hl.
    by rewrite !bool_decide_eq_true_2.
Qed.

(** The import statement either updates a row with the identity of its
    parameters, or finds none and appends one. *)
Lemma upsert_identities p now d res d' :
  upsert_tracked_keyword p now d = (inr res, d') ->
  is_Some (nk_device p) -> is_Some (nk_location_code p) ->
  let ids := identity_of <$> tracked_keywords d in
  (identity_of_params p ∈ ids /\ snd res = false
   /\ identity_of <$> tracked_keywords d' = ids)
  \/ ((identity_of_params p ∉ ids) /\ snd res = true
      /\ identity_of <$> tracked_keywords d' = ids ++ [identity_of_params p]).
Proof.
  intros Hup Hdv Hlc ids. unfold upsert_tracked_keyword in Hup.
  set (row := proposed_keyword p (tk_seq d) now) in Hup.
  assert (Hrow : identity_of row = identity_of_params p) by done.
  destruct (negb _); [done|].
  destruct (update_first _ _ _) as [[rows updated]|] eqn:Hfirst; simplify_eq; simpl.
  - left. apply update_first_some in Hfirst as (i & r & Hi & Hsame & _ & ->).
    apply same_identity_iff in Hsame as (Hid & _).
    split; [|split; [done|]].
    + rewrite <- Hrow, Hid. apply list_elem_of_fmap. exists r. split; [done|].
      by eapply list_elem_of_lookup_2.
    + rewrite list_fmap_insert. apply list_insert_id.
      subst ids. by rewrite list_lookup_fmap, Hi.
  - right. split; [|split; [done|]].
    + intros Hin. apply list_elem_of_fmap in Hin as (r & Hr & Hin).
      pose proof (update_first_none_inv _ _ _ Hfirst r Hin) as Hno.
      assert (same_identity row r = true); [|congruence].
      apply same_identity_iff. rewrite Hrow. by repeat split.
    + by rewrite fmap_app.
Qed.

Lemma import_plan_keyed config projectId :
  Forall params_keyed (import_plan config projectId).
Proof.
  unfold import_plan. apply Forall_flat_map, Forall_forall. intros [pid [projectData|]] _;
    simpl; [|by constructor].
  unfold project_params. apply Forall_flat_map, Forall_forall. intros [priority kws] _.
  simpl. apply Forall_fmap, Forall_forall. intros kw _. split; simpl; eauto.
Qed.

(** After a run of upserts every identity of the run is stored, and the
    identities stored before are still there. *)
Lemma import_steps_stores params counts w counts' w' :
  import_steps params counts w counts' w' ->
  Forall params_keyed params ->
  (forall x, x ∈ identity_of <$> tracked_keywords (db w) ->
             x ∈ identity_of <$> tracked_keywords (db w'))
  /\ (forall p, p ∈ params ->
                identity_of_params p ∈ identity_of <$> tracked_keywords (db w')).
Proof.
  revert counts w. induction params as [|p rest IH]; intros counts w H Hkeyed; simpl in H.
  - destruct H as [-> ->]. split; [done|]. intros p Hp. by apply elem_of_nil in Hp.
  - destruct H as (res & d & Hup & H).
    apply Forall_cons in Hkeyed as [[Hdv Hlc] Hkeyed].
    destruct (IH _ _ H Hkeyed) as [Hkeep Hrest]. simpl in Hkeep.
    assert (Hstep : (forall x, x ∈ identity_of <$> tracked_keywords (db w) ->
                               x ∈ identity_of <$> tracked_keywords d)
                    /\ identity_of_params p ∈ identity_of <$> tracked_keywords d).
    { destruct (upsert_identities _ _ _ _ _ Hup Hdv Hlc) as [(Hin & _ & ->)|(_ & _ & ->)].
      - done.
      - split; [intros x Hx|]; apply elem_of_app; [by left|right].
        apply list_elem_of_singleton. done. }
    destruct Hstep as [Hold Hnew]. split; [by eauto|].
    intros q Hq. apply elem_of_cons in Hq as [->|Hq]; by eauto.
Qed.

(** A run of upserts whose identities are all stored already inserts
    nothing. *)
Lemma import_steps_known params counts w counts' w' :
  import_steps params counts w counts' w' ->
  Forall params_keyed params ->
  (forall p, p ∈ params ->
             identity_of_params p ∈ identity_of <$> tracked_keywords (db w)) ->
  imported counts' = imported counts
  /\ skipped counts' = skipped counts + length params
  /\ identity_of <$> tracked_keywords (db w') = identity_of <$> tracked_keywords (db w).
Proof.
  revert counts w. induction params as [|p rest IH]; intros counts w H Hkeyed Hknown;
    simpl in H.
  - destruct H as [-> ->]. simpl. repeat split; lia.
  - destruct H as (res & d & Hup & H).
    apply Forall_cons in Hkeyed as [[Hdv Hlc] Hkeyed].
    destruct (upsert_identities _ _ _ _ _ Hup Hdv Hlc) as [(_ & Hres & Hids)|(Hnot & _)].
    2:{ exfalso. apply Hnot, Hknown. by left. }
    apply IH in H as (Hi & Hs & Hrows); [|done|].
    + rewrite Hres in Hi, Hs. simpl in *. rewrite Hi, Hs, Hrows, Hids.
      repeat split; lia.
    + intros q Hq. simpl. rewrite Hids. apply Hknown. by right.
Qed.

(** What a failed import leaves in the tables. *)
Lemma import_rollback
    (config : Config) (storage_ok : StorageOp -> nat -> bool)
    (projectId : option string) (w : World) (e : string) (w' : World) :
  importKeywordsFromConfig config storage_ok projectId w = (Thrown e, w') ->
  tracked_keywords (db w') = tracked_keywords (db w)
  /\ position_history (db w') = position_history (db w)
  /\ tracking_alerts (db w') = tracking_alerts (db w)
  /\ sync_log (db w') = sync_log (db w).
Proof.
  unfold importKeywordsFromConfig, connect, bind at 1, storage_call.
  destruct (storage_ok OpImport (storage_calls w)).
  2:{ intros H. by simplify_eq. }
  rewrite bind_get. unfold try_catch.
  match goal with
  | |- context [match ?m ?w0 with _ => _ end] => destruct (m w0) as [[r|e1|] w1]
  end; intros H; try done.
  rewrite bind_modify in H. unfold query, bind, storage_call, control_statement, throw in H.
  simpl in H. destruct (storage_ok OpImport _); simpl in H; by simplify_eq.
Qed.

(** X1. A failed import leaves no trace in the tables: whatever was upserted
    before the failure is rolled back. *)
Theorem X1_import_failure_rolls_back
    (config : Config) (storage_ok : StorageOp -> nat -> bool)
    (projectId : option string) (w : World) (e : string) (w' : World) :
  importKeywordsFromConfig config storage_ok projectId w = (Thrown e, w') ->
  tracked_keywords (db w') = tracked_keywords (db w)
  /\ position_history (db w') = position_history (db w)
  /\ tracking_alerts (db w') = tracking_alerts (db w)
  /\ sync_log (db w') = sync_log (db w).
Proof. apply import_rollback. Qed.

(** X1, witness: the second tier of the configuration violates the CHECK on
    [priority]; the keyword of the first tier, upserted before, is gone. *)
Lemma X1_witness :
  let w := new_tracker empty_db Sample.t0 in
  let r := importKeywordsFromConfig Sample.bad_tier Sample.storage_up None w in
  fst r = Thrown "violates check constraint"
  /\ tracked_keywords (db (snd r)) = [].
Proof.
  intros w r.
  assert (Hrun : importKeywordsFromConfig Sample.bad_tier Sample.storage_up None w
                 = (Thrown "violates check constraint", snd r))
    by (vm_compute; reflexivity).
  destruct (X1_import_failure_rolls_back _ _ _ _ _ _ Hrun) as (Hrows & _).
  split; [exact (f_equal fst Hrun)|exact Hrows].
Defined.

(** X2. Asked to import a project that the configuration does not list, the
    import fails and stores nothing. With the database reachable (for
    connecting, BEGIN and ROLLBACK) the error is a TypeError: that of reading
    [name] off [undefined], unless the id is the name of a member that every
    object inherits ([constructor], [toString], ...), in which case the value
    looked up is not [undefined] and the error is that of listing the entries
    of its missing [keywords]. *)
Theorem X2_import_of_unknown_project_fails
    (config : Config) (storage_ok : StorageOp -> nat -> bool)
    (pid : string) (w : World) :
  pid <> "" ->
  assoc pid (projects config) = None ->
  exists e w',
    importKeywordsFromConfig config storage_ok (Some pid) w = (Thrown e, w')
    /\ tracked_keywords (db w') = tracked_keywords (db w)
    /\ (storage_ok OpImport (storage_calls w) = true ->
        storage_ok OpImport (S (storage_calls w)) = true ->
        storage_ok OpImport (S (S (storage_calls w))) = true ->
        (pid ∉ object_prototype_keys ->
         e = "Cannot read properties of undefined (reading 'name')")
        /\ (pid ∈ object_prototype_keys ->
            e = "Cannot convert undefined or null to object")).
Proof.
  intros Hpid Hnone.
  assert (Herror : (pid ∉ object_prototype_keys ->
                    no_project_error pid
                    = "Cannot read properties of undefined (reading 'name')")
                   /\ (pid ∈ object_prototype_keys ->
                       no_project_error pid
                       = "Cannot convert undefined or null to object")).
  { unfold no_project_error. split; intros H.
    - by rewrite bool_decide_eq_false_2.
    - by rewrite bool_decide_eq_true_2. }
  unfold importKeywordsFromConfig, connect, query, bind, try_catch, storage_call,
    control_statement, get, modify, throw.
  simpl. rewrite (bool_decide_eq_false_2 _ Hpid), Hnone. simpl.
  destruct (storage_ok OpImport (storage_calls w)); simpl;
    [|eexists _, _; split; [reflexivity|split; [reflexivity|done]]].
  destruct (storage_ok OpImport (S (storage_calls w))); simpl;
    destruct (storage_ok OpImport _); simpl; eexists _, _;
    (split; [reflexivity|split; [reflexivity|done]]).
Qed.

(** X2, witnesses: a project id that names nothing, and one that names the
    constructor every object inherits. *)
Lemma X2_witness :
  (exists w',
     importKeywordsFromConfig Sample.config Sample.storage_up (Some "Q")
       (new_tracker empty_db Sample.t0)
     = (Thrown "Cannot read properties of undefined (reading 'name')", w')
     /\ tracked_keywords (db w') = [])
  /\ (exists w',
        importKeywordsFromConfig Sample.config Sample.storage_up (Some "constructor")
          (new_tracker empty_db Sample.t0)
        = (Thrown "Cannot convert undefined or null to object", w')
        /\ tracked_keywords (db w') = []).
Proof.
  split.
  - destruct (X2_import_of_unknown_project_fails Sample.config Sample.storage_up "Q"
                (new_tracker empty_db Sample.t0))
      as (e & w' & Hrun & Hrows & He); [done|vm_compute; reflexivity|].
    exists w'. rewrite Hrun.
    rewrite (proj1 (He eq_refl eq_refl eq_refl)); [by split|].
    apply (bool_decide_unpack _). vm_compute. exact I.
  - destruct (X2_import_of_unknown_project_fails Sample.config Sample.storage_up
                "constructor" (new_tracker empty_db Sample.t0))
      as (e & w' & Hrun & Hrows & He); [done|vm_compute; reflexivity|].
    exists w'. rewrite Hrun.
    rewrite (proj2 (He eq_refl eq_refl eq_refl)); [by split|].
    apply list_elem_of_here.
Defined.

(** X3. A successful import has upserted every keyword of the selected
    projects exactly once: [imported] and [skipped] add up to their number,
    the table has grown by [imported] rows, and no other table has changed. *)
Theorem X3_import_counts_every_keyword
    (config : Config) (storage_ok : StorageOp -> nat -> bool)
    (projectId : option string) (w : World) (result : ImportResult) (w' : World) :
  importKeywordsFromConfig config storage_ok projectId w = (Returned result, w') ->
  imported result + skipped result = length (import_plan config projectId)
  /\ length (tracked_keywords (db w'))
     = length (tracked_keywords (db w)) + imported result
  /\ position_history (db w') = position_history (db w)
  /\ tracking_alerts (db w') = tracking_alerts (db w)
  /\ sync_log (db w') = sync_log (db w).
Proof.
  intros H. apply importKeywordsFromConfig_steps in H as (w1 & Hsteps & ->).
  apply import_steps_counts in Hsteps as (Hn & Hrows & Hh & Ha & Hs & _).
  simpl in *. repeat split; try done; lia.
Qed.

Lemma X3_witness :
  let r := importKeywordsFromConfig Sample.config Sample.storage_up None
             (new_tracker empty_db Sample.t0) in
  fst r = Returned {| imported := 10; skipped := 0 |}
  /\ length (tracked_keywords (db (snd r))) = 10.
Proof.
  intros r.
  assert (Hrun : importKeywordsFromConfig Sample.config Sample.storage_up None
                   (new_tracker empty_db Sample.t0)
                 = (Returned {| imported := 10; skipped := 0 |}, snd r))
    by (vm_compute; reflexivity).
  destruct (X3_import_counts_every_keyword _ _ _ _ _ _ Hrun) as (_ & Hrows & _).
  split; [exact (f_equal fst Hrun)|exact Hrows].
Defined.

(** X4. Importing is idempotent: a second import of the same configuration,
    at any later time, inserts nothing; it reports every keyword as updated
    and leaves the number of tracked keywords as it was. *)
Theorem X4_reimport_inserts_nothing
    (config : Config) (storage_ok : StorageOp -> nat -> bool)
    (projectId : option string) (w w1 w2 : World) (first second : ImportResult) (t : Z) :
  importKeywordsFromConfig config storage_ok projectId w = (Returned first, w1) ->
  importKeywordsFromConfig config storage_ok projectId (set_clock t w1)
  = (Returned second, w2) ->
  imported second = 0
  /\ skipped second = imported first + skipped first
  /\ length (tracked_keywords (db w2)) = length (tracked_keywords (db w1)).
Proof.
  intros H1 H2.
  apply importKeywordsFromConfig_steps in H1 as (v1 & Hsteps1 & ->).
  apply importKeywordsFromConfig_steps in H2 as (v2 & Hsteps2 & ->).
  pose proof (import_plan_keyed config projectId) as Hkeyed.
  destruct (import_steps_stores _ _ _ _ _ Hsteps1 Hkeyed) as [_ Hstored].
  apply import_steps_counts in Hsteps1 as (Hn1 & _).
  destruct (import_steps_known _ _ _ _ _ Hsteps2 Hkeyed) as (Hi & Hs & Hids).
  { exact Hstored. }
  simpl in *. split; [done|]. split; [lia|].
  by rewrite <- (length_fmap identity_of), Hids, length_fmap.
Qed.

Lemma X4_witness :
  let w := new_tracker empty_db Sample.t0 in
  let r1 := importKeywordsFromConfig Sample.config Sample.storage_up None w in
  let r2 := importKeywordsFromConfig Sample.config Sample.storage_up None
              (set_clock (Sample.t0 + ms_per_day) (snd r1)) in
  fst r1 = Returned {| imported := 10; skipped := 0 |}
  /\ fst r2 = Returned {| imported := 0; skipped := 10 |}
  /\ length (tracked_keywords (db (snd r2))) = length (tracked_keywords (db (snd r1))).
Proof.
  intros w r1 r2.
  assert (H1 : importKeywordsFromConfig Sample.config Sample.storage_up None w
               = (Returned {| imported := 10; skipped := 0 |}, snd r1))
    by (vm_compute; reflexivity).
  assert (H2 : importKeywordsFromConfig Sample.config Sample.storage_up None
                 (set_clock (Sample.t0 + ms_per_day) (snd r1))
               = (Returned {| imported := 0; skipped := 10 |}, snd r2))
    by (vm_compute; reflexivity).
  destruct (X4_reimport_inserts_nothing _ _ _ _ _ _ _ _ _ H1 H2) as (_ & _ & Hrows).
  split; [exact (f_equal fst H1)|].
  split; [exact (f_equal fst H2)|exact Hrows].
Defined.

(** *** What an import leaves alone *)

Lemma import_steps_keep params counts w counts' w' :
  import_steps params counts w counts' w' ->
  kept_columns <$> tracked_keywords (db w)
  `prefix_of` kept_columns <$> tracked_keywords (db w').
Proof.
  revert counts w. induction params as [|p rest IH]; intros counts w H; simpl in H.
  - by destruct H as [-> ->].
  - destruct H as (res & d & Hup & H). apply IH in H. simpl in H.
    etrans; [|exact H]. clear H IH.
    unfold upsert_tracked_keyword in Hup. destruct (negb _); [done|].
    destruct (update_first _ _ _) as [[rows updated]|] eqn:Hfirst; simplify_eq; simpl.
    + apply update_first_some in Hfirst as (i & r & Hi & _ & _ & ->).
      rewrite list_fmap_insert, list_insert_id; [done|].
      by rewrite list_lookup_fmap, Hi.
    + rewrite fmap_app. by apply prefix_app_r.
Qed.

(** X5. A successful import never removes a tracked keyword and never
    changes its id, keyword, project, location, device or creation time; in
    particular it neither activates nor deactivates a keyword: a keyword
    that was switched off stays off when it is imported again. Rows are only
    added after the existing ones. *)
Theorem X5_import_keeps_existing_keywords
    (config : Config) (storage_ok : StorageOp -> nat -> bool)
    (projectId : option string) (w : World) (result : ImportResult) (w' : World) :
  importKeywordsFromConfig config storage_ok projectId w = (Returned result, w') ->
  kept_columns <$> tracked_keywords (db w)
  `prefix_of` kept_columns <$> tracked_keywords (db w').
Proof.
  intros H. apply importKeywordsFromConfig_steps in H as (w1 & Hsteps & ->).
  by apply import_steps_keep in Hsteps.
Qed.

Lemma X5_witness :
  let w := Sample.imported_world Sample.coffee in
  let r := importKeywordsFromConfig Sample.config Sample.storage_up None
             (set_clock (Sample.t0 + 5000) w) in
  kept_columns <$> tracked_keywords (db w)
  `prefix_of` kept_columns <$> tracked_keywords (db (snd r))
  /\ length (tracked_keywords (db w)) = 1
  /\ length (tracked_keywords (db (snd r))) = 11.
Proof.
  intros w r.
  assert (Hrun : importKeywordsFromConfig Sample.config Sample.storage_up None
                   (set_clock (Sample.t0 + 5000) w)
                 = (Returned {| imported := 10; skipped := 0 |}, snd r))
    by (vm_compute; reflexivity).
  split; [exact (X5_import_keeps_existing_keywords _ _ _ _ _ _ Hrun)|].
  split; vm_compute; reflexivity.
Defined.

(** *** What a tracking run can change *)

(** The state changes a tracking run is made of: if [R] holds across each of
    them, it holds across the run. *)
Section Relates.

Context (R : relation World) `{!PreOrder R}.
Context (config : Config) (http_post : nat -> SerpRequest -> HttpOutcome)
        (storage_ok : StorageOp -> nat -> bool).

Lemma relates_ret {A} (a : A) : relates R (ret a).
Proof. by intros w. Qed.

Lemma relates_throw {A} (e : string) : relates R (@throw A e).
Proof. by intros w. Qed.

Lemma relates_bind {A B} (m : M A) (k : A -> M B) :
  relates R m -> (forall a, relates R (k a)) -> relates R (bind m k).
Proof.
  intros Hm Hk w. unfold bind. specialize (Hm w).
  destruct (m w) as [[a|e|] w1]; simpl in *; [|done..].
  etrans; [exact Hm|apply Hk].
Qed.

Lemma relates_get {B} (k : World -> M B) :
  (forall w0, relates R (k w0)) -> relates R (bind get k).
Proof. intros Hk w. rewrite bind_get. apply Hk. Qed.

(** A continuation that has read the state sees the state it runs in. *)
Lemma relates_get_here {B} (k : World -> M B) :
  (forall w, R w (snd (k w w))) -> relates R (bind get k).
Proof. intros Hk w. rewrite bind_get. apply Hk. Qed.

Lemma relates_try_catch {A} (m : M A) (handler : string -> M A) :
  relates R m -> (forall e, relates R (handler e)) -> relates R (try_catch m handler).
Proof.
  intros Hm Hh w. unfold try_catch. specialize (Hm w).
  destruct (m w) as [[a|e|] w1]; simpl in *; [done| |done].
  etrans; [exact Hm|apply Hh].
Qed.

Hypothesis R_count : forall w, R w (count_storage_call w).
Hypothesis R_same_db : forall w, R w (set_db (db w) w).

Lemma relates_storage_call op : relates R (storage_call storage_ok op).
Proof. intros w. unfold storage_call. destruct (storage_ok _ _); apply R_count. Qed.

(** One statement, run in state [w]. *)
Lemma query_relates {A} op (stmt : Sql A) w :
  R w (set_db (snd (stmt (db w))) w) ->
  R w (snd (query storage_ok op stmt w)).
Proof.
  intros Hstmt. unfold query, bind, storage_call.
  destruct (storage_ok op (storage_calls w)); simpl; [|done].
  destruct (stmt (db w)) as [[e|a] d] eqn:Hd; simpl in *;
    (etrans; [exact Hstmt|]); apply (R_count (set_db d w)).
Qed.

Lemma relates_read {A} op (f : Db -> A) :
  relates R (query storage_ok op (fun d => (inr (f d), d))).
Proof. intros w. apply query_relates, R_same_db. Qed.

Section Ledger.

Hypothesis R_api : forall w, R w (count_api_call w).
Hypothesis R_cached : forall key entry w,
  R w (set_cache (<[key := entry]> (cache w)) w).
Hypothesis R_updated : forall w, R w (bump_positionsUpdated w).
Hypothesis R_error : forall e w, R w (push_keyword_error e w).
Hypothesis R_position : forall k position url features raw w,
  R w (set_db (snd (upsert_position k position url (date_of (clock w))
                      (Some (ds_device config)) features "dataforseo" raw
                      (clock w) (db w))) w).
Hypothesis R_touch : forall id w,
  R w (set_db (snd (touch_tracked_keyword id (clock w) (db w))) w).

Lemma relates_savePosition keywordId positionData :
  relates R (savePosition config storage_ok keywordId positionData).
Proof.
  unfold savePosition, connect.
  apply relates_bind; [apply relates_storage_call|intros _].
  apply relates_bind; [apply relates_read|intros prev].
  apply relates_get_here. intros w. unfold bind at 1.
  pose proof (query_relates OpSavePosition
                (upsert_position keywordId (pd_position positionData) (pd_url positionData)
                   (date_of (clock w)) (Some (ds_device config))
                   (pd_serpFeatures positionData) "dataforseo"
                   (Some (pd_rawData positionData)) (clock w)) w (R_position _ _ _ _ _ _))
    as Hsaved.
  destruct (query storage_ok OpSavePosition _ w) as [[[]|e|] w1] eqn:Hq;
    simpl in Hsaved; simpl; [|done..].
  etrans; [exact Hsaved|].
  assert (Hclock : clock w1 = clock w).
  { unfold query, bind, storage_call in Hq.
    destruct (storage_ok _ _); simpl in Hq; [|done].
    destruct (upsert_position _ _ _ _ _ _ _ _ _ _) as [[?|?] ?]; by simplify_eq. }
  rewrite <- Hclock.
  pose proof (query_relates OpSavePosition (touch_tracked_keyword keywordId (clock w1)) w1
                (R_touch _ _)) as Htouched.
  unfold bind at 1.
  by destruct (query storage_ok OpSavePosition _ w1) as [[[]|e|] w2].
Qed.

Lemma relates_fetchPosition keyword locationCode device :
  relates R (fetchPositionFromDataForSEO config http_post keyword locationCode device).
Proof.
  unfold fetchPositionFromDataForSEO.
  apply relates_get_here. intros w. rewrite bind_modify.
  etrans; [apply (R_api w)|].
  destruct (http_post _ _) as [e|[[|task tasks]|]]; try done.
  destruct (negb _); [done|].
  by destruct (task_result task) as [[|result results]|].
Qed.

Lemma relates_fetch_and_save keyword :
  relates R (fetch_and_save config http_post storage_ok keyword).
Proof.
  unfold fetch_and_save.
  apply relates_bind; [apply relates_fetchPosition|intros position].
  intros w. rewrite bind_modify. etrans; [apply R_cached|].
  apply relates_bind; [apply relates_savePosition|intros _].
  intros w1. apply R_updated.
Qed.

Lemma relates_track_keyword keyword :
  relates R (track_keyword config http_post storage_ok keyword).
Proof.
  unfold track_keyword. apply relates_get. intros w0.
  destruct (cache w0 !! _) as [cached|]; [|apply relates_fetch_and_save].
  destruct (_ <? _)%Z; [|apply relates_fetch_and_save].
  apply relates_bind; [apply relates_savePosition|intros _]. apply relates_ret.
Qed.

Lemma relates_trackKeywordBatch keywords :
  relates R (trackKeywordBatch config http_post storage_ok keywords).
Proof.
  induction keywords as [|keyword rest IH]; simpl; [apply relates_ret|].
  apply relates_bind; [|by intros _].
  apply relates_try_catch; [apply relates_track_keyword|].
  intros e w. apply R_error.
Qed.

End Ledger.

(** The rest of a run, around its batches. *)
Section RunFrame.

Hypothesis R_batch : forall keywords,
  relates R (trackKeywordBatch config http_post storage_ok keywords).
Hypothesis R_alerts : forall n w, R w (add_alertsGenerated n w).
Hypothesis R_sleep : forall w,
  R w (set_clock (clock w + delayBetweenBatches config) w).
Hypothesis R_alert : forall k ty change old new message w,
  R w (set_db (snd (insert_alert k ty change old new message (clock w) (db w))) w).
Hypothesis R_opened : forall projectId n w,
  R w (set_db (snd (insert_sync_log "dataforseo" projectId n (clock w) running (db w))) w).
Hypothesis R_closed : forall succeeded failed_n errs id w,
  R w (set_db (snd (update_sync_log succeeded failed_n errs (clock w) completed id (db w))) w).

Lemma relates_batch_loop fuel keywords i results :
  relates R (batch_loop config http_post storage_ok fuel keywords i results).
Proof.
  revert i results. induction fuel as [|fuel IH]; intros i results; simpl.
  - destruct (i <? length keywords); by intros w.
  - destruct (i <? length keywords); [|apply relates_ret].
    apply relates_bind.
    { apply relates_try_catch; [|intros e; apply relates_ret].
      apply relates_bind; [apply R_batch|intros _; apply relates_ret]. }
    intros results'. apply relates_bind; [|intros _; apply IH].
    destruct (_ <? _); [|apply relates_ret]. intros w. apply R_sleep.
Qed.

Lemma relates_createSyncLog projectId n :
  relates R (createSyncLog storage_ok "dataforseo" projectId n).
Proof.
  unfold createSyncLog, connect.
  apply relates_bind; [apply relates_storage_call|intros _].
  apply relates_get_here. intros w. apply query_relates, R_opened.
Qed.

Lemma relates_completeSyncLog logId succeeded failed_n errs :
  relates R (completeSyncLog storage_ok logId succeeded failed_n errs).
Proof.
  unfold completeSyncLog, connect.
  apply relates_bind; [apply relates_storage_call|intros _].
  apply relates_get_here. intros w. apply query_relates.
  destruct (0 <? length errs); apply R_closed.
Qed.

Lemma relates_createAlert keywordId alertType positionChange changeData :
  relates R (createAlert config storage_ok keywordId alertType positionChange changeData).
Proof.
  unfold createAlert, connect.
  apply relates_bind; [apply relates_storage_call|intros _].
  apply relates_get_here. intros w. apply query_relates, R_alert.
Qed.

Lemma relates_evaluate_keywords keywordIds alertsCreated :
  relates R (evaluate_keywords config storage_ok keywordIds alertsCreated).
Proof.
  revert alertsCreated.
  induction keywordIds as [|k rest IH]; intros n; simpl; [apply relates_ret|].
  apply relates_bind; [|by intros n'].
  unfold evaluate_keyword.
  apply relates_bind; [apply relates_read|intros [|change rows]]; [apply relates_ret|].
  repeat (match goal with |- relates R (if ?b then _ else _) => destruct b end;
          [apply relates_bind; [apply relates_createAlert|intros _; apply relates_ret]|]).
  apply relates_ret.
Qed.

Lemma relates_generateAlerts keywordIds :
  relates R (generateAlerts config storage_ok keywordIds).
Proof.
  unfold generateAlerts, connect.
  apply relates_bind; [apply relates_storage_call|intros _].
  apply relates_bind; [apply relates_evaluate_keywords|intros n].
  apply relates_bind; [|intros _; apply relates_ret].
  destruct (0 <? n); [|apply relates_ret]. intros w. apply R_alerts.
Qed.

Lemma relates_getKeywordsToTrack priority projectId :
  relates R (getKeywordsToTrack storage_ok priority projectId).
Proof.
  unfold getKeywordsToTrack, connect.
  apply relates_bind; [apply relates_storage_call|intros _]. apply relates_read.
Qed.

(** The whole run. *)
Lemma relates_trackKeywordsByPriority fuel priority projectId :
  relates R (trackKeywordsByPriority config http_post storage_ok fuel priority projectId).
Proof.
  unfold trackKeywordsByPriority.
  apply relates_try_catch; [|intros e; apply relates_throw].
  apply relates_bind; [apply relates_getKeywordsToTrack|intros keywords].
  destruct (length keywords =? 0); [apply relates_ret|].
  apply relates_bind; [apply relates_createSyncLog|intros syncLogId].
  apply relates_bind; [apply relates_batch_loop|intros results].
  apply relates_bind; [apply relates_completeSyncLog|intros _].
  apply relates_bind; [apply relates_generateAlerts|intros _].
  apply relates_ret.
Qed.

End RunFrame.

End Relates.

(** *** Accounting for the lookups of a batch *)

Lemma accounted_none w : accounted 0 w w.
Proof. exists [], []. rewrite !app_nil_r. simpl. repeat split; lia. Qed.

Lemma accounted_more n m w w1 w2 :
  accounted n w w1 -> accounted m w1 w2 -> accounted (n + m) w w2.
Proof.
  intros (rows1 & errs1 & Hh1 & He1 & ? & ? & ? & ? & ? & ? & ? & ? & Hc1)
         (rows2 & errs2 & Hh2 & He2 & ? & ? & ? & ? & ? & ? & ? & ? & Hc2).
  exists (rows1 ++ rows2), (errs1 ++ errs2).
  rewrite Hh2, Hh1, He2, He1, Hc2, Hc1, !length_app, !app_assoc.
  repeat split; lia.
Qed.

Section Accounting.

Context (config : Config) (http_post : nat -> SerpRequest -> HttpOutcome)
        (storage_ok : StorageOp -> nat -> bool).

(** Whatever its outcome, [savePosition] writes at most one history row and
    leaves the tracker's own state alone; when it returns, the row is there. *)
Lemma savePosition_outcomes keywordId positionData w :
  let r := savePosition config storage_ok keywordId positionData w in
  stats (snd r) = stats w /\ cache (snd r) = cache w /\ clock (snd r) = clock w
  /\ (exists rows,
        position_history (db (snd r)) = position_history (db w) ++ rows
        /\ length rows <= 1
        /\ (forall res, fst r = Returned res -> length rows = 1))
  /\ fst r <> OutOfFuel.
Proof.
  unfold savePosition, connect, query, bind, storage_call, get, ret. simpl.
  destruct (storage_ok OpSavePosition (storage_calls w)); simpl.
  2:{ repeat split; try done. exists []. rewrite app_nil_r.
      split; [done|]. split; [simpl; lia|done]. }
  destruct (storage_ok OpSavePosition (S (storage_calls w))); simpl.
  2:{ repeat split; try done. exists []. rewrite app_nil_r.
      split; [done|]. split; [simpl; lia|done]. }
  destruct (storage_ok OpSavePosition (S (S (storage_calls w)))); simpl.
  2:{ repeat split; try done. exists []. rewrite app_nil_r.
      split; [done|]. split; [simpl; lia|done]. }
  rewrite upsert_position_appends.
  destruct (position_row_checks _ _); simpl.
  2:{ repeat split; try done. exists []. rewrite app_nil_r.
      split; [done|]. split; [simpl; lia|done]. }
  destruct (storage_ok OpSavePosition (S (S (S (storage_calls w))))); simpl;
    (repeat split; try done); eexists [_]; (split; [done|]); by split.
Qed.

(** A provider call is counted and changes nothing else, whatever comes
    back. *)
Lemma fetchPosition_state keyword locationCode device w :
  let r := fetchPositionFromDataForSEO config http_post keyword locationCode device w in
  snd r = count_api_call w /\ fst r <> OutOfFuel.
Proof.
  unfold fetchPositionFromDataForSEO. rewrite bind_get, bind_modify.
  destruct (http_post _ _) as [e|[[|task tasks]|]]; try done.
  destruct (negb _); [done|].
  by destruct (task_result task) as [[|result results]|].
Qed.

Lemma size_insert_le (key : string) (entry : CacheEntry) (c : gmap string CacheEntry) :
  size (<[key := entry]> c) <= S (size c).
Proof.
  rewrite map_size_insert. destruct (c !! key); unfold id; lia.
Qed.

(** One keyword of a batch: the handler turns every failure into an error
    entry, so the step returns. *)
Lemma track_keyword_accounted (keyword : TrackedKeyword) w :
  exists w',
    try_catch (track_keyword config http_post storage_ok keyword)
      (fun error =>
         modify (push_keyword_error
                   {| ke_keyword := tk_keyword keyword; ke_error := error |})) w
    = (Returned tt, w')
    /\ accounted 1 w w'.
Proof.
  assert (Hsave : forall data w0,
            exists w',
              try_catch (bind (savePosition config storage_ok (tk_id keyword) data)
                           (fun _ => ret tt))
                (fun error =>
                   modify (push_keyword_error
                             {| ke_keyword := tk_keyword keyword; ke_error := error |})) w0
              = (Returned tt, w')
              /\ accounted 1 w0 w').
  { intros data w0.
    destruct (savePosition_outcomes (tk_id keyword) data w0)
      as (Hstats & Hcache & Hclock & (rows & Hrows & Hle & Hone) & Hfuel).
    unfold try_catch, bind.
    destruct (savePosition config storage_ok (tk_id keyword) data w0)
      as [[res|e|] ws]; simpl in *; [| |done].
    - eexists. split; [reflexivity|].
      exists rows, []. rewrite app_nil_r, Hstats, Hcache, Hclock, (Hone res eq_refl).
      simpl. repeat split; try done; lia.
    - eexists. split; [reflexivity|].
      exists rows, [{| ke_keyword := tk_keyword keyword; ke_error := e |}].
      simpl. rewrite Hstats, Hcache, Hclock. repeat split; try done; lia. }
  assert (Hmiss : exists w',
            try_catch (fetch_and_save config http_post storage_ok keyword)
              (fun error =>
                 modify (push_keyword_error
                           {| ke_keyword := tk_keyword keyword; ke_error := error |})) w
            = (Returned tt, w')
            /\ accounted 1 w w').
  { unfold fetch_and_save, try_catch.
    destruct (fetchPosition_state (tk_keyword keyword) (tk_location_code keyword)
                (tk_device keyword) w) as [Hstate Hfuel].
    destruct (fetchPositionFromDataForSEO config http_post _ _ _ w)
      as [[data|e|] wf] eqn:Hfetch; simpl in Hstate, Hfuel; [| |done]; subst wf.
    2:{ rewrite (bind_thrown _ _ _ _ _ Hfetch). eexists. split; [reflexivity|].
        exists [], [{| ke_keyword := tk_keyword keyword; ke_error := e |}].
        simpl. rewrite app_nil_r. repeat split; try done; lia. }
    rewrite (bind_returned _ _ _ _ _ Hfetch), bind_modify.
    set (wc := set_cache _ (count_api_call w)).
    assert (Hsize : size (cache wc) <= S (size (cache w))) by apply size_insert_le.
    destruct (savePosition_outcomes (tk_id keyword) data wc)
      as (Hstats & Hcache & Hclock & (rows & Hrows & Hle & Hone) & Hfuel').
    unfold bind.
    destruct (savePosition config storage_ok (tk_id keyword) data wc)
      as [[res|e|] ws]; simpl in *; [| |done].
    - eexists. split; [reflexivity|].
      exists rows, []. simpl. rewrite app_nil_r, Hstats, Hcache, Hclock, Hrows.
      rewrite (Hone res eq_refl). simpl. repeat split; try done; lia.
    - eexists. split; [reflexivity|].
      exists rows, [{| ke_keyword := tk_keyword keyword; ke_error := e |}].
      simpl. rewrite Hstats, Hcache, Hclock, Hrows. simpl. repeat split; try done; lia. }
  unfold track_keyword.
  assert (Hread : forall (k : World -> M unit) handler,
            try_catch (bind get k) handler w = try_catch (k w) handler w).
  { intros k handler. unfold try_catch. by rewrite bind_get. }
  rewrite Hread.
  destruct (cache w !! cache_key keyword) as [cached|]; [|exact Hmiss].
  destruct (_ <? _)%Z; [|exact Hmiss].
  apply Hsave.
Qed.

Lemma trackKeywordBatch_accounted keywords w :
  exists w',
    trackKeywordBatch config http_post storage_ok keywords w = (Returned tt, w')
    /\ accounted (length keywords) w w'.
Proof.
  revert w. induction keywords as [|keyword rest IH]; intros w; simpl.
  { exists w. split; [done|apply accounted_none]. }
  destruct (track_keyword_accounted keyword w) as (w1 & Hstep & Hacc1).
  destruct (IH w1) as (w' & Hrest & Hacc').
  exists w'. rewrite (bind_returned _ _ _ _ _ Hstep). split; [done|].
  exact (accounted_more 1 _ _ _ _ Hacc1 Hacc').
Qed.

End Accounting.

(** X6. Every batch runs to its end, and each of its keywords leaves a history
    row or an error entry behind (at most one of each): with [n] keywords,
    at most [n] rows and at most [n] errors are added, at least [n] together,
    nothing already there is dropped, at most [n] provider calls are made,
    and [positionsUpdated] grows by no more than the number of provider
    calls and by no more than the number of rows written. *)
Theorem X6_batch_accounts_for_every_keyword
    (config : Config) (http_post : nat -> SerpRequest -> HttpOutcome)
    (storage_ok : StorageOp -> nat -> bool)
    (keywords : list TrackedKeyword) (w : World) :
  exists w' rows errs,
    trackKeywordBatch config http_post storage_ok keywords w = (Returned tt, w')
    /\ position_history (db w') = position_history (db w) ++ rows
    /\ errors (stats w') = errors (stats w) ++ errs
    /\ length rows <= length keywords
    /\ length errs <= length keywords
    /\ length keywords <= length rows + length errs
    /\ apiCallsMade (stats w') <= apiCallsMade (stats w) + length keywords
    /\ positionsUpdated (stats w') - positionsUpdated (stats w)
       <= apiCallsMade (stats w') - apiCallsMade (stats w)
    /\ positionsUpdated (stats w') - positionsUpdated (stats w) <= length rows.
Proof.
  destruct (trackKeywordBatch_accounted config http_post storage_ok keywords w)
    as (w' & Hrun & rows & errs & Hh & He & ? & ? & ? & ? & ? & ? & ? & ? & ?).
  exists w', rows, errs. repeat split; try done; lia.
Qed.

(** *** The due list *)

#[global] Instance due_before_total : Total due_before.
Proof.
  intros a b. unfold due_before, due_leb.
  rewrite (String.compare_antisym (tk_priority a) (tk_priority b)).
  destruct (String.compare (tk_priority b) (tk_priority a)); simpl; eauto.
  destruct (tk_search_volume a) as [x|], (tk_search_volume b) as [y|]; eauto.
  destruct (Z.leb_spec y x), (Z.leb_spec x y); eauto; lia.
Qed.

Lemma due_before_rank a b :
  known_priority a -> known_priority b -> due_before a b ->
  priority_rank (tk_priority a) <= priority_rank (tk_priority b).
Proof.
  unfold known_priority, due_before, due_leb. intros Ha Hb.
  repeat (apply elem_of_cons in Ha as [Ha|Ha]); [| | |by apply elem_of_nil in Ha];
    repeat (apply elem_of_cons in Hb as [Hb|Hb]); try (by apply elem_of_nil in Hb);
    rewrite Ha, Hb; vm_compute; first [discriminate | lia | intros _; lia].
Qed.

Lemma sorted_by_rank (l : list TrackedKeyword) :
  Sorted due_before l -> Forall known_priority l ->
  forall i j a b,
    l !! i = Some a -> l !! j = Some b -> i < j ->
    priority_rank (tk_priority a) <= priority_rank (tk_priority b).
Proof.
  intros Hsorted Hknown.
  assert (Hhead : forall x l0,
            Sorted due_before (x :: l0) -> Forall known_priority (x :: l0) ->
            Forall (fun b => priority_rank (tk_priority x) <= priority_rank (tk_priority b)) l0).
  { intros x l0. revert x. induction l0 as [|y l0 IH]; intros x Hs Hk; [constructor|].
    apply Sorted_inv in Hs as [Hs Hhd]. apply HdRel_inv in Hhd.
    apply Forall_cons in Hk as [Hx Hk]. pose proof Hk as Hk'.
    apply Forall_cons in Hk' as [Hy _].
    pose proof (due_before_rank x y Hx Hy Hhd) as Hxy.
    constructor; [done|].
    eapply Forall_impl; [exact (IH y Hs Hk)|]. simpl. intros b Hb. lia. }
  induction l as [|x l IH]; intros i j a b Hi Hj Hlt.
  { by rewrite lookup_nil in Hi. }
  pose proof (Hhead x l Hsorted Hknown) as Hx.
  apply Sorted_inv in Hsorted as [Hsorted _].
  apply Forall_cons in Hknown as [_ Hknown].
  destruct j as [|j]; [lia|]. simpl in Hj.
  destruct i as [|i]; simpl in Hi.
  - injection Hi as <-. rewrite Forall_lookup in Hx. by apply (Hx j b).
  - apply (IH Hsorted Hknown i j a b Hi Hj). lia.
Qed.


(** X8. Descending order on the priority column is an order on text: in the
    due list every medium-priority keyword comes before every low-priority
    one, and the high-priority keywords come last. *)
Theorem X8_high_priority_keywords_come_last
    (priority projectId : option string) (d : Db)
    (i j : nat) (a b : TrackedKeyword) :
  Forall (fun r => tk_priority r ∈ ["high"; "medium"; "low"]) (tracked_keywords d) ->
  select_keywords_to_track priority projectId d !! i = Some a ->
  select_keywords_to_track priority projectId d !! j = Some b ->
  i < j ->
  (tk_priority a, tk_priority b)
  ∈ [ ("medium", "medium"); ("medium", "low"); ("medium", "high");
      ("low", "low"); ("low", "high"); ("high", "high") ].
Proof.
  intros Hcheck Hi Hj Hlt.
  set (due := select_keywords_to_track priority projectId d) in *.
  assert (Hknown : Forall known_priority due).
  { apply Forall_forall. intros r Hr. unfold due, select_keywords_to_track in Hr.
    rewrite (merge_sort_Permutation due_before _) in Hr.
    apply list_elem_of_filter in Hr as [_ Hr].
    rewrite Forall_forall in Hcheck. by apply Hcheck. }
  assert (Hsorted : Sorted due_before due) by apply Sorted_merge_sort, _.
  pose proof (sorted_by_rank due Hsorted Hknown i j a b Hi Hj Hlt) as Hrank.
  rewrite Forall_lookup in Hknown.
  pose proof (Hknown i a Hi) as Ha. pose proof (Hknown j b Hj) as Hb.
  unfold known_priority in Ha, Hb.
  repeat (apply elem_of_cons in Ha as [Ha|Ha]); [| | |by apply elem_of_nil in Ha];
    repeat (apply elem_of_cons in Hb as [Hb|Hb]); try (by apply elem_of_nil in Hb);
    rewrite Ha, Hb in *; vm_compute in Hrank;
    first [lia | by repeat first [apply list_elem_of_here | apply list_elem_of_further]].
Qed.


Lemma X8_witness :
  let d := db (Sample.imported_world Sample.mixed_tiers) in
  let due := select_keywords_to_track None None d in
  tk_priority <$> tracked_keywords d = ["high"; "medium"; "low"]
  /\ exists a b,
       due !! 0 = Some a /\ due !! 2 = Some b
       /\ (tk_priority a, tk_priority b)
          ∈ [ ("medium", "medium"); ("medium", "low"); ("medium", "high");
              ("low", "low"); ("low", "high"); ("high", "high") ].
Proof.
  intros d due.
  assert (Hrows : tk_priority <$> tracked_keywords d = ["high"; "medium"; "low"])
    by (vm_compute; reflexivity).
  split; [exact Hrows|].
  assert (Hcheck : Forall (fun r => tk_priority r ∈ ["high"; "medium"; "low"])
                     (tracked_keywords d)).
  { apply (Forall_fmap tk_priority (fun p => p ∈ ["high"; "medium"; "low"])).
    rewrite Hrows.
    repeat constructor; by repeat first [apply list_elem_of_here | apply list_elem_of_further]. }
  exists (default Sample.coffee_row (due !! 0)), (default Sample.coffee_row (due !! 2)).
  assert (H0 : due !! 0 = Some (default Sample.coffee_row (due !! 0)))
    by (vm_compute; reflexivity).
  assert (H2 : due !! 2 = Some (default Sample.coffee_row (due !! 2)))
    by (vm_compute; reflexivity).
  split; [exact H0|]. split; [exact H2|].
  apply (X8_high_priority_keywords_come_last None None d 0 2 _ _ Hcheck H0 H2). lia.
Defined.

(** *** SERP features *)

Lemma dedupe_spec (seen xs : list string) :
  NoDup (dedupe seen xs)
  /\ forall x, x ∈ dedupe seen xs <-> x ∈ xs /\ x ∉ seen.
Proof.
  revert seen. induction xs as [|y xs IH]; intros seen; simpl.
  { split; [constructor|]. intros x. split; [by intros H%elem_of_nil|].
    by intros [H%elem_of_nil _]. }
  case_bool_decide as Hy.
  - destruct (IH seen) as [Hnd Hin]. split; [done|]. intros x.
    rewrite Hin, elem_of_cons. split.
    + intros [Hx Hnew]. split; [by right|done].
    + intros [[->|Hx] Hnew]; done.
  - destruct (IH (y :: seen)) as [Hnd Hin]. split.
    + constructor; [|done]. rewrite Hin. intros [_ Hnew]. apply Hnew. by left.
    + intros x. rewrite !elem_of_cons, Hin. split.
      * intros [->|[Hx Hnew]]; [by split; [left|]|].
        split; [by right|]. intros Hseen. apply Hnew. by right.
      * intros [[->|Hx] Hnew]; [by left|].
        destruct (decide (x = y)) as [->|Hne]; [by left|right].
        split; [done|]. by intros [?|?]%elem_of_cons.
Qed.

Lemma feature_tags_spec (item : Item) (f : string) :
  f ∈ feature_tags item <-> (it_type item, f) ∈ feature_labels.
Proof.
  assert (Htag : forall (P : Prop) `{Decision P} (label : string),
            f ∈ (if bool_decide P then [label] else []) <-> P /\ f = label).
  { intros P ? label. case_bool_decide as HP.
    - rewrite list_elem_of_singleton. split; [by intros ->|by intros [_ ->]].
    - split; [by intros ?%elem_of_nil|by intros [? _]]. }
  unfold feature_tags, feature_labels.
  rewrite !elem_of_app, !Htag, !elem_of_cons, elem_of_nil, !pair_equal_spec.
  tauto.
Qed.

(** X9. The SERP features stored with an observation are free of duplicates
    and are exactly the labels of the item types present in the provider's
    result; an item type without a label contributes nothing. *)
Theorem X9_serp_features_are_the_distinct_labels
    (config : Config) (keyword : string) (result : SerpResult) :
  let features := pd_serpFeatures (parse_result config keyword result) in
  NoDup features
  /\ (forall f,
        f ∈ features
        <-> exists items item,
              sr_items result = Some items /\ item ∈ items
              /\ (it_type item, f) ∈ feature_labels)
  /\ (forall f, f ∈ features -> f ∈ snd <$> feature_labels).
Proof.
  intros features.
  assert (Hin : forall f,
            f ∈ features
            <-> exists items item,
                  sr_items result = Some items /\ item ∈ items
                  /\ (it_type item, f) ∈ feature_labels).
  { intros f. unfold features, parse_result. cbn [pd_serpFeatures].
    rewrite (proj2 (dedupe_spec [] _)).
    destruct (sr_items result) as [items|].
    - rewrite list_elem_of_In, in_flat_map. split.
      + intros [(item & Hitem & Hf) _]. exists items, item.
        apply list_elem_of_In in Hitem. apply list_elem_of_In in Hf.
        by rewrite <- feature_tags_spec.
      + intros (items' & item & Heq & Hitem & Hf). injection Heq as <-.
        split; [|by intros ?%elem_of_nil]. exists item.
        split; apply list_elem_of_In; [done|]. by apply feature_tags_spec.
    - split; [by intros [?%elem_of_nil _]|]. by intros (? & ? & ? & _). }
  split; [apply dedupe_spec|]. split; [exact Hin|].
  intros f Hf. apply Hin in Hf as (items & item & _ & _ & Hf).
  apply list_elem_of_fmap. by exists (it_type item, f).
Qed.

(** *** What a run never does *)

#[global] Instance keywords_kept_preorder : PreOrder keywords_kept.
Proof.
  split.
  - by intros w.
  - intros w1 w2 w3 (?&?&?&?) (?&?&?&?). repeat split; congruence.
Qed.

#[global] Instance only_appended_preorder : PreOrder only_appended.
Proof.
  split.
  - intros w. repeat split; done.
  - intros w1 w2 w3 (?&?&?&?&?&?&?&?) (?&?&?&?&?&?&?&?).
    repeat split; try (by etrans); lia.
Qed.

(** X10. A tracking run never adds, removes or edits a tracked keyword: it
    only refreshes [updated_at]. It changes neither the time-to-live of the
    cache nor the [keywordsTracked] counter. This holds for every outcome of
    the run. *)
Theorem X10_run_keeps_the_tracked_keywords
    (config : Config) (http_post : nat -> SerpRequest -> HttpOutcome)
    (storage_ok : StorageOp -> nat -> bool)
    (fuel : nat) (priority projectId : option string) (w : World) :
  let w' := snd (trackKeywordsByPriority config http_post storage_ok fuel
                   priority projectId w) in
  forget_updated_at <$> tracked_keywords (db w')
  = forget_updated_at <$> tracked_keywords (db w)
  /\ tk_seq (db w') = tk_seq (db w)
  /\ cacheTimeout w' = cacheTimeout w
  /\ keywordsTracked (stats w') = keywordsTracked (stats w).
Proof.
  assert (Hposition : forall k position url date device features source raw now d,
            tracked_keywords
              (snd (upsert_position k position url date device features source raw now d))
            = tracked_keywords d
            /\ tk_seq (snd (upsert_position k position url date device
                              features source raw now d)) = tk_seq d).
  { intros. rewrite upsert_position_appends. by destruct (position_row_checks _ _). }
  apply (relates_trackKeywordsByPriority keywords_kept config http_post storage_ok);
    try done.
  - intros keywords.
    apply (relates_trackKeywordBatch keywords_kept config http_post storage_ok);
      try done.
    + intros k position url features raw w0. unfold keywords_kept. simpl.
      destruct (Hposition k position url (date_of (clock w0)) (Some (ds_device config))
                  features "dataforseo" raw (clock w0) (db w0)) as [-> ->].
      done.
    + intros id w0. repeat split; try done. simpl.
      rewrite <- list_fmap_compose. apply list_fmap_ext. intros i r _. simpl.
      by destruct (bool_decide _).
  - intros k ty change old new message w0. unfold keywords_kept, insert_alert. simpl.
    by destruct (bool_decide _).
  - intros projectId0 n w0. unfold keywords_kept, insert_sync_log.
    by destruct (_ && _).
Qed.

(** X11. A tracking run only appends: the history rows, alerts and recorded
    errors that were there are still there, unchanged and in place, the runs
    of the sync log keep their ids, the counters do not go down, and nothing
    is evicted from the cache. This holds for every outcome of the run. *)
Theorem X11_run_only_appends
    (config : Config) (http_post : nat -> SerpRequest -> HttpOutcome)
    (storage_ok : StorageOp -> nat -> bool)
    (fuel : nat) (priority projectId : option string) (w : World) :
  let w' := snd (trackKeywordsByPriority config http_post storage_ok fuel
                   priority projectId w) in
  position_history (db w) `prefix_of` position_history (db w')
  /\ tracking_alerts (db w) `prefix_of` tracking_alerts (db w')
  /\ sl_id <$> sync_log (db w) `prefix_of` sl_id <$> sync_log (db w')
  /\ errors (stats w) `prefix_of` errors (stats w')
  /\ apiCallsMade (stats w) <= apiCallsMade (stats w')
  /\ positionsUpdated (stats w) <= positionsUpdated (stats w')
  /\ alertsGenerated (stats w) <= alertsGenerated (stats w')
  /\ dom (cache w) ⊆ dom (cache w').
Proof.
  assert (Hsame : forall w0 w1 : World,
            position_history (db w1) = position_history (db w0) ->
            tracking_alerts (db w1) = tracking_alerts (db w0) ->
            sl_id <$> sync_log (db w1) = sl_id <$> sync_log (db w0) ->
            stats w1 = stats w0 -> cache w1 = cache w0 ->
            only_appended w0 w1).
  { intros w0 w1 Hh Ha Hs Hst Hc. unfold only_appended.
    by rewrite Hh, Ha, Hs, Hst, Hc. }
  apply (relates_trackKeywordsByPriority only_appended config http_post storage_ok).
  - intros w0. by apply Hsame.
  - intros w0. by apply Hsame.
  - intros keywords.
    apply (relates_trackKeywordBatch only_appended config http_post storage_ok).
    + intros w0. by apply Hsame.
    + intros w0. by apply Hsame.
    + intros w0. unfold only_appended. simpl. repeat split; try done. lia.
    + intros key entry w0. unfold only_appended. simpl. repeat split; try done.
      rewrite dom_insert. apply union_subseteq_r.
    + intros w0. unfold only_appended. simpl. repeat split; try done. lia.
    + intros e w0. unfold only_appended. simpl. repeat split; try done.
      by apply prefix_app_r.
    + intros k position url features raw w0. unfold only_appended. simpl.
      rewrite upsert_position_appends.
      destruct (position_row_checks _ _); simpl; repeat split; try done.
      by apply prefix_app_r.
    + intros id w0. by apply Hsame.
  - intros n w0. unfold only_appended. simpl. repeat split; try done. lia.
  - intros w0. by apply Hsame.
  - intros k ty change old new message w0. unfold only_appended, insert_alert. simpl.
    destruct (bool_decide _); simpl; repeat split; try done.
    by apply prefix_app_r.
  - intros projectId0 n w0. unfold only_appended, insert_sync_log.
    destruct (_ && _); simpl; repeat split; try done.
    rewrite fmap_app. by apply prefix_app_r.
  - intros succeeded failed_n errs id w0. apply Hsame; try done. simpl.
    rewrite <- list_fmap_compose. apply list_fmap_ext. intros i r _. simpl.
    by destruct (bool_decide _).
Qed.

(** *** Statistics *)

#[global] Instance within_calls_preorder : PreOrder within_calls.
Proof.
  split.
  - intros w. split; lia.
  - intros w1 w2 w3 [? ?] [? ?]. split; lia.
Qed.

Lemma within_calls_run
    (config : Config) (http_post : nat -> SerpRequest -> HttpOutcome)
    (storage_ok : StorageOp -> nat -> bool)
    (fuel : nat) (priority projectId : option string) (w : World) :
  within_calls w
    (snd (trackKeywordsByPriority config http_post storage_ok fuel priority projectId w)).
Proof.
  assert (Hsame : forall w0 w1 : World,
            stats w1 = stats w0 -> cache w1 = cache w0 -> within_calls w0 w1).
  { intros w0 w1 Hst Hc. unfold within_calls. rewrite Hst, Hc. split; lia. }
  apply (relates_trackKeywordsByPriority within_calls config http_post storage_ok).
  - intros w0. by apply Hsame.
  - intros w0. by apply Hsame.
  - intros keywords w0.
    destruct (trackKeywordBatch_accounted config http_post storage_ok keywords w0)
      as (w1 & -> & rows & errs & _ & _ & _ & _ & _ & _ & _ & Hupd & _ & Hsize & _).
    by split.
  - intros n w0. split; simpl; lia.
  - intros w0. by apply Hsame.
  - intros k ty change old new message w0. by apply Hsame.
  - intros projectId0 n w0. by apply Hsame.
  - intros succeeded failed_n errs id w0. by apply Hsame.
Qed.

(** X12. What [getStats] reports after a tracking run: no more positions
    updated than provider calls made, and no more cache entries than
    provider calls made, provided this was so before the run (as it is for a
    new tracker). *)
Theorem X12_stats_stay_within_provider_calls
    (config : Config) (http_post : nat -> SerpRequest -> HttpOutcome)
    (storage_ok : StorageOp -> nat -> bool)
    (fuel : nat) (priority projectId : option string) (w : World) :
  positionsUpdated (stats w) <= apiCallsMade (stats w) ->
  size (cache w) <= apiCallsMade (stats w) ->
  let w' := snd (trackKeywordsByPriority config http_post storage_ok fuel
                   priority projectId w) in
  exists report,
    getStats w' = (Returned report, w')
    /\ positionsUpdated (report_stats report) <= apiCallsMade (report_stats report)
    /\ cacheSize report <= apiCallsMade (report_stats report).
Proof.
  intros Hupd Hsize w'.
  destruct (within_calls_run config http_post storage_ok fuel priority projectId w)
    as [Hupd' Hsize'].
  fold w' in Hupd', Hsize'.
  eexists. split; [reflexivity|]. simpl. split; lia.
Qed.

Lemma X12_witness :
  let w := Sample.imported_world Sample.config in
  let w' := snd (trackKeywordsByPriority Sample.config Sample.provider_flaky
                   Sample.storage_up 1 (Some "high") None w) in
  exists report,
    getStats w' = (Returned report, w')
    /\ positionsUpdated (report_stats report) <= apiCallsMade (report_stats report)
    /\ cacheSize report <= apiCallsMade (report_stats report).
Proof.
  intros w.
  apply (X12_stats_stay_within_provider_calls Sample.config Sample.provider_flaky
           Sample.storage_up 1 (Some "high") None w).
  - vm_compute. lia.
  - vm_compute. lia.
Defined.

(** *** A lookup that fails *)

(** X13. A lookup for which no fresh cache entry exists and which the
    provider fails leaves one error entry and one counted provider call
    behind, and nothing else: no history row, no cache entry, no round trip
    to the database. The failure is not remembered: the next lookup of the
    keyword calls the provider again. *)
Theorem X13_failed_lookup_leaves_only_an_error
    (config : Config) (http_post : nat -> SerpRequest -> HttpOutcome)
    (storage_ok : StorageOp -> nat -> bool)
    (keyword : TrackedKeyword) (w wf : World) (e : string) (t : Z) :
  match cache w !! cache_key keyword with
  | Some c => (cacheTimeout w <= clock w - ce_timestamp c)%Z
  | None => True
  end ->
  fetchPositionFromDataForSEO config http_post (tk_keyword keyword)
    (tk_location_code keyword) (tk_device keyword) w = (Thrown e, wf) ->
  (clock w <= t)%Z ->
  let w1 := snd (trackKeywordBatch config http_post storage_ok [keyword] w) in
  let w2 := snd (trackKeywordBatch config http_post storage_ok [keyword]
                   (set_clock t w1)) in
  db w1 = db w /\ cache w1 = cache w /\ storage_calls w1 = storage_calls w
  /\ errors (stats w1)
     = errors (stats w) ++ [{| ke_keyword := tk_keyword keyword; ke_error := e |}]
  /\ apiCallsMade (stats w1) = S (apiCallsMade (stats w))
  /\ positionsUpdated (stats w1) = positionsUpdated (stats w)
  /\ apiCallsMade (stats w2) = S (S (apiCallsMade (stats w))).
Proof.
  intros Hmiss Hfetch Hlater w1 w2.
  assert (Hmisses : forall w0 : World,
            match cache w0 !! cache_key keyword with
            | Some c => (cacheTimeout w0 <= clock w0 - ce_timestamp c)%Z
            | None => True
            end ->
            track_keyword config http_post storage_ok keyword w0
            = fetch_and_save config http_post storage_ok keyword w0).
  { intros w0 H0. unfold track_keyword. rewrite bind_get.
    destruct (cache w0 !! cache_key keyword) as [c|]; [|done].
    by rewrite (proj2 (Z.ltb_ge _ _) H0). }
  assert (Hw1 : w1 = push_keyword_error
                       {| ke_keyword := tk_keyword keyword; ke_error := e |}
                       (count_api_call w)).
  { unfold w1. rewrite trackKeywordBatch_single, (Hmisses w Hmiss).
    unfold fetch_and_save. rewrite (bind_thrown _ _ _ _ _ Hfetch).
    destruct (fetchPosition_state config http_post (tk_keyword keyword)
                (tk_location_code keyword) (tk_device keyword) w) as [Hstate _].
    rewrite Hfetch in Hstate. simpl in Hstate. by rewrite Hstate. }
  assert (Hagain : apiCallsMade (stats w2) = S (apiCallsMade (stats (set_clock t w1)))).
  { unfold w2. rewrite trackKeywordBatch_single, Hmisses.
    - destruct (fetch_and_save_counts config http_post storage_ok keyword (set_clock t w1))
        as (Hapi & _).
      by destruct (fetch_and_save config http_post storage_ok keyword (set_clock t w1))
        as [[[]|e'|] w'].
    - rewrite Hw1. simpl.
      destruct (cache w !! cache_key keyword) as [c|]; [lia|done]. }
  rewrite Hagain, Hw1. simpl. by repeat split.
Qed.

Lemma X13_witness :
  let w := Sample.imported_world Sample.coffee in
  let w1 := snd (trackKeywordBatch Sample.coffee Sample.provider_down Sample.storage_up
                   [Sample.coffee_row] w) in
  position_history (db w1) = []
  /\ errors (stats w1)
     = [{| ke_keyword := "best coffee"; ke_error := "timeout of 30000ms exceeded" |}]
  /\ apiCallsMade (stats w1) = 1
  /\ size (cache w1) = 0.
Proof.
  intros w w1.
  assert (Hfetch : fetchPositionFromDataForSEO Sample.coffee Sample.provider_down
                     (tk_keyword Sample.coffee_row) (tk_location_code Sample.coffee_row)
                     (tk_device Sample.coffee_row) w
                   = (Thrown "timeout of 30000ms exceeded", count_api_call w))
    by (vm_compute; reflexivity).
  assert (Hmiss : match cache w !! cache_key Sample.coffee_row with
                  | Some c => (cacheTimeout w <= clock w - ce_timestamp c)%Z
                  | None => True
                  end) by (vm_compute; exact I).
  destruct (X13_failed_lookup_leaves_only_an_error Sample.coffee Sample.provider_down
              Sample.storage_up Sample.coffee_row w _ _ (clock w) Hmiss Hfetch)
    as (Hdb & Hcache & _ & Herr & Hapi & _); [lia|].
  fold w1 in Hdb, Hcache, Herr, Hapi.
  rewrite Hdb, Hcache, Herr, Hapi. vm_compute. by repeat split.
Defined.

(** *** A keyword that does not rank *)

Lemma find_nowhere {A} (f : A -> bool) (l : list A) :
  (forall x, x ∈ l -> f x = false) -> List.find f l = None.
Proof.
  induction l as [|x l IH]; intros Hall; simpl; [done|].
  rewrite (Hall x) by (by left). apply IH. intros y Hy. apply Hall. by right.
Qed.

(** X14. When the provider answers but the project's domain is nowhere in
    the results, the lookup is no failure: a history row with a NULL
    position and a NULL url is written for today, no error is recorded, and
    the lookup counts as an updated position. *)
Theorem X14_unranked_keyword_is_saved_with_null_position
    (config : Config) (http_post : nat -> SerpRequest -> HttpOutcome)
    (storage_ok : StorageOp -> nat -> bool)
    (keyword : TrackedKeyword) (w : World)
    (task : Task) (tasks : list Task) (result : SerpResult) (results : list SerpResult) :
  match cache w !! cache_key keyword with
  | Some c => (cacheTimeout w <= clock w - ce_timestamp c)%Z
  | None => True
  end ->
  http_post (apiCallsMade (stats w))
    (serp_request (tk_keyword keyword) (tk_location_code keyword) (tk_device keyword))
  = HttpResponse (Some (task :: tasks)) ->
  task_status_code task = 20000%Z ->
  task_result task = Some (result :: results) ->
  (forall items item,
     sr_items result = Some items -> item ∈ items ->
     domain_matches (getProjectDomain config (tk_keyword keyword)) item = false) ->
  (forall n, storage_ok OpSavePosition n = true) ->
  tk_id keyword ∈ tk_id <$> tracked_keywords (db w) ->
  String.length (ds_device config) <= 10 ->
  let w1 := snd (trackKeywordBatch config http_post storage_ok [keyword] w) in
  exists row,
    position_history (db w1) = position_history (db w) ++ [row]
    /\ ph_keyword_id row = tk_id keyword
    /\ ph_position row = None
    /\ ph_url row = None
    /\ ph_date row = date_of (clock w)
    /\ errors (stats w1) = errors (stats w)
    /\ positionsUpdated (stats w1) = S (positionsUpdated (stats w)).
Proof.
  intros Hmiss Hpost Hcode Hresult Habsent Hok Hfk Hlen w1.
  set (data := parse_result config (tk_keyword keyword) result).
  assert (Hnull : pd_position data = None /\ pd_url data = None).
  { unfold data, parse_result. simpl.
    destruct (sr_items result) as [items|] eqn:Hitems; simpl; [|done].
    rewrite find_nowhere; [done|]. intros item Hitem. by apply (Habsent items). }
  assert (Hfetch : fetchPositionFromDataForSEO config http_post (tk_keyword keyword)
                     (tk_location_code keyword) (tk_device keyword) w
                   = (Returned data, count_api_call w)).
  { unfold fetchPositionFromDataForSEO. rewrite bind_get, bind_modify, Hpost, Hcode, Hresult.
    reflexivity. }
  clearbody data. destruct Hnull as [Hposition Hurl].
  assert (Htrack : track_keyword config http_post storage_ok keyword w
                   = fetch_and_save config http_post storage_ok keyword w).
  { unfold track_keyword. rewrite bind_get.
    destruct (cache w !! cache_key keyword) as [c|]; [|done].
    by rewrite (proj2 (Z.ltb_ge _ _) Hmiss). }
  unfold w1. rewrite trackKeywordBatch_single, Htrack. unfold fetch_and_save.
  rewrite (bind_returned _ _ _ _ _ Hfetch), bind_modify.
  set (wc := set_cache _ (count_api_call w)).
  destruct (savePosition_healthy config storage_ok (tk_id keyword) data wc Hok Hfk Hlen)
    as (res & ws & Hsave).
  rewrite (bind_returned _ _ _ _ _ Hsave). simpl.
  apply savePosition_returned in Hsave as (Hrows & Hstats & _).
  eexists. split; [exact Hrows|]. simpl. by rewrite Hstats, Hposition, Hurl.
Qed.

Lemma X14_witness :
  let w := Sample.imported_world Sample.coffee in
  let w1 := snd (trackKeywordBatch Sample.coffee Sample.provider_elsewhere
                   Sample.storage_up [Sample.coffee_row] w) in
  exists row,
    position_history (db w1) = [row]
    /\ ph_position row = None
    /\ errors (stats w1) = []
    /\ positionsUpdated (stats w1) = 1.
Proof.
  intros w w1.
  destruct (X14_unranked_keyword_is_saved_with_null_position Sample.coffee
              Sample.provider_elsewhere Sample.storage_up Sample.coffee_row w
              _ _ _ _
              ltac:(vm_compute; exact I) eq_refl eq_refl eq_refl)
    as (row & Hrows & _ & Hposition & _ & _ & Herrors & Hupdated).
  - intros items item Hitems Hitem. injection Hitems as <-.
    apply list_elem_of_singleton in Hitem as ->. vm_compute. reflexivity.
  - done.
  - vm_compute. by left.
  - vm_compute. lia.
  - fold w1 in Hrows, Herrors, Hupdated. exists row.
    rewrite Hrows, Herrors, Hupdated. by repeat split.
Defined.

(** *** Saving for a keyword that is not there *)

(** X15. [savePosition] for an id that is not the id of a tracked keyword
    fails and writes nothing: the foreign key of [position_history] rejects
    the row. *)
Theorem X15_saving_for_an_unknown_keyword_fails
    (config : Config) (storage_ok : StorageOp -> nat -> bool)
    (keywordId : Z) (positionData : PositionData) (w : World) :
  keywordId ∉ tk_id <$> tracked_keywords (db w) ->
  let r := savePosition config storage_ok keywordId positionData w in
  (exists e, fst r = Thrown e)
  /\ position_history (db (snd r)) = position_history (db w)
  /\ tracked_keywords (db (snd r)) = tracked_keywords (db w).
Proof.
  intros Hunknown r. subst r.
  unfold savePosition, connect, query, bind, storage_call, get, ret. simpl.
  destruct (storage_ok OpSavePosition (storage_calls w)); simpl; [|by eauto].
  destruct (storage_ok OpSavePosition (S (storage_calls w))); simpl; [|by eauto].
  destruct (storage_ok OpSavePosition (S (S (storage_calls w)))); simpl; [|by eauto].
  rewrite upsert_position_appends. unfold position_row_checks. simpl.
  rewrite (bool_decide_eq_false_2 _ Hunknown). simpl. by eauto.
Qed.

Lemma X15_witness :
  let w := Sample.imported_world Sample.coffee in
  let r := savePosition Sample.coffee Sample.storage_up 99 (Sample.observation 7) w in
  fst r = Thrown "violates constraint" /\ position_history (db (snd r)) = [].
Proof.
  intros w r.
  destruct (X15_saving_for_an_unknown_keyword_fails Sample.coffee Sample.storage_up 99
              (Sample.observation 7) w) as (_ & Hrows & _).
  { vm_compute. intros Hin. apply list_elem_of_singleton in Hin. discriminate Hin. }
  split; [vm_compute; reflexivity|exact Hrows].
Defined.

(** *** The pauses of a run *)

#[global] Instance same_clock_preorder : PreOrder same_clock.
Proof.
  split.
  - by intros w.
  - intros w1 w2 w3 H12 H23. unfold same_clock in *. congruence.
Qed.




(** *** More on alerts *)

Lemma latest_of_none rows :
  (forall r, r ∉ rows) -> latest rows = None.
Proof.
  intros Hnone. destruct (latest rows) as [r|] eqn:Hlatest; [|done].
  apply latest_some in Hlatest as [Hr _]. by apply Hnone in Hr.
Qed.

(** Every alert of a pass is the alert of a row of the view. *)
Lemma expected_alerts_rows config d now seq ids a :
  a ∈ expected_alerts config d now seq ids ->
  exists k change rest ty id,
    k ∈ ids /\ v_position_changes_7d k d = change :: rest
    /\ expected_alert config change = Some ty
    /\ a = alert_row config id k ty change now.
Proof.
  revert seq. induction ids as [|k ids IH]; intros seq Ha; simpl in Ha.
  { by apply elem_of_nil in Ha. }
  assert (Hrest : forall seq', a ∈ expected_alerts config d now seq' ids ->
            exists k0 change rest ty id,
              k0 ∈ k :: ids /\ v_position_changes_7d k0 d = change :: rest
              /\ expected_alert config change = Some ty
              /\ a = alert_row config id k0 ty change now).
  { intros seq' Hin. destruct (IH seq' Hin) as (k0 & change & rest & ty & id & Hk0 & H).
    exists k0, change, rest, ty, id. split; [by right|done]. }
  destruct (v_position_changes_7d k d) as [|change rest] eqn:Hview; [by eauto|].
  destruct (expected_alert config change) as [ty|] eqn:Hty; [|by eauto].
  apply elem_of_cons in Ha as [->|Ha]; [|by eauto].
  exists k, change, rest, ty, seq. split; [by left|done].
Qed.

Lemma expected_alerts_none config d now seq ids :
  (forall k change rest,
     k ∈ ids -> v_position_changes_7d k d = change :: rest ->
     expected_alert config change = None) ->
  expected_alerts config d now seq ids = [].
Proof.
  intros Hnone. destruct (expected_alerts config d now seq ids) as [|a l] eqn:Hl; [done|].
  assert (Ha : a ∈ expected_alerts config d now seq ids) by (rewrite Hl; by left).
  apply expected_alerts_rows in Ha as (k & change & rest & ty & id & Hk & Hview & Hty & _).
  by rewrite (Hnone k change rest Hk Hview) in Hty.
Qed.

Lemma expected_alerts_content config d now now' seq seq' ids :
  alert_content <$> expected_alerts config d now seq ids
  = alert_content <$> expected_alerts config d now' seq' ids.
Proof.
  revert seq seq'. induction ids as [|k ids IH]; intros seq seq'; simpl; [done|].
  destruct (v_position_changes_7d k d) as [|change rest]; [apply IH|].
  destruct (expected_alert config change) as [ty|]; [|apply IH].
  rewrite !fmap_cons. f_equal. apply IH.
Qed.

(** X17. A keyword whose observations all lie within less than seven days of
    each other has no previous position in the weekly view, and no alert is
    raised for it (thresholds being positive): a pass over such keywords,
    over keywords without history and over ids that are not tracked creates
    nothing. *)
Theorem X17_no_alert_before_a_week_of_history
    (config : Config) (storage_ok : StorageOp -> nat -> bool)
    (ids : list Z) (w : World) :
  (forall n, storage_ok OpGenerateAlerts n = true) ->
  (forall n, storage_ok OpCreateAlert n = true) ->
  (0 < critical_positionDrop config)%Z ->
  (0 < warning_positionDrop config)%Z ->
  (0 <= opportunity_enterTopN config)%Z ->
  (forall r1 r2,
     r1 ∈ position_history (db w) -> r2 ∈ position_history (db w) ->
     ph_keyword_id r1 ∈ ids -> ph_keyword_id r2 = ph_keyword_id r1 ->
     (ph_date r1 - ph_date r2 < 7)%Z) ->
  exists w',
    generateAlerts config storage_ok ids w = (Returned 0, w')
    /\ tracking_alerts (db w') = tracking_alerts (db w).
Proof.
  intros Hview Halert Hcrit Hwarn Htop Hweek.
  destruct (generateAlerts_healthy config storage_ok Hview Halert ids w)
    as (w' & Hrun & Hadded & _).
  assert (Hnone : expected_alerts config (db w) (clock w) (al_seq (db w)) ids = []).
  2:{ rewrite Hnone in Hrun, Hadded. exists w'. split; [exact Hrun|].
      by rewrite Hadded, app_nil_r. }
  apply expected_alerts_none. intros k change rest Hk Hrow.
  assert (Hin : change ∈ v_position_changes_7d k (db w)) by (rewrite Hrow; by left).
  apply v_position_changes_7d_row in Hin as (tk & _ & Hid & _ & ->).
  assert (Hprev : previous_row (tk_id tk) (select_latest_position (tk_id tk) (db w)) (db w)
                  = None).
  { destruct (select_latest_position (tk_id tk) (db w)) as [cur|] eqn:Hcur; [|done].
    apply latest_some in Hcur as [Hcur _].
    apply elem_of_history_of in Hcur as [Hcur Hcur_id].
    simpl. apply latest_of_none. intros r Hr.
    apply list_elem_of_filter in Hr as [Hdate Hr].
    apply elem_of_history_of in Hr as [Hr Hr_id].
    pose proof (Hweek cur r Hcur Hr) as Hclose.
    rewrite Hcur_id, Hid, Hr_id, Hid in Hclose. specialize (Hclose Hk eq_refl). lia. }
  unfold expected_alert, position_change_row. simpl. rewrite Hprev. simpl.
  assert (Hnull : forall cur, sql_sub cur None = None) by (by intros [?|]).
  rewrite Hnull. unfold js_ge, js_gt, js_num. simpl.
  rewrite (proj2 (Z.leb_gt _ _) Hcrit), (proj2 (Z.leb_gt _ _) Hwarn).
  rewrite (proj2 (Z.ltb_ge _ _) Htop). by rewrite andb_false_r.
Qed.

Lemma X17_witness :
  let w := Sample.world_with_one_observation 40 in
  exists w',
    generateAlerts Sample.coffee Sample.storage_up [1%Z] w = (Returned 0, w')
    /\ tracking_alerts (db w') = tracking_alerts (db w).
Proof.
  intros w.
  apply (X17_no_alert_before_a_week_of_history Sample.coffee Sample.storage_up [1%Z] w);
    try done.
  assert (Hrows : position_history (db w) = [Sample.history_row 1 40 (date_of Sample.t0)])
    by (vm_compute; reflexivity).
  rewrite Hrows. intros r1 r2 Hr1 Hr2 _ _.
  apply list_elem_of_singleton in Hr1 as ->. apply list_elem_of_singleton in Hr2 as ->.
  lia.
Defined.

(** X18. A keyword that is no longer found in the results (current position
    NULL) after having ranked outside the top N is reported as having
    entered the top N: the comparison reads the missing position as 0. *)
Theorem X18_lost_keyword_raises_an_opportunity
    (config : Config) (storage_ok : StorageOp -> nat -> bool)
    (k : Z) (w : World) (change : PositionChange) (rest : list PositionChange) (p : Z) :
  (forall n, storage_ok OpGenerateAlerts n = true) ->
  (forall n, storage_ok OpCreateAlert n = true) ->
  (0 < critical_positionDrop config)%Z ->
  (0 < warning_positionDrop config)%Z ->
  (0 <= opportunity_enterTopN config)%Z ->
  v_position_changes_7d k (db w) = change :: rest ->
  current_position change = None ->
  previous_position change = Some p ->
  (opportunity_enterTopN config < p)%Z ->
  exists w' alert,
    generateAlerts config storage_ok [k] w = (Returned 1, w')
    /\ tracking_alerts (db w') = tracking_alerts (db w) ++ [alert]
    /\ al_keyword_id alert = k
    /\ al_alert_type alert = opportunity
    /\ al_old_position alert = Some p
    /\ al_new_position alert = None
    /\ al_position_change alert = None.
Proof.
  intros Hview Halert Hcrit Hwarn Htop Hrow Hcur Hprev Hout.
  destruct (generateAlerts_healthy config storage_ok Hview Halert [k] w)
    as (w' & Hrun & Hadded & _).
  assert (Hin : change ∈ v_position_changes_7d k (db w)) by (rewrite Hrow; by left).
  apply v_position_changes_7d_row in Hin as (tk & _ & _ & _ & Hchange).
  assert (Hnull : position_change change = None).
  { rewrite Hchange, (proj1 (position_change_row_change tk (db w))), <- Hchange.
    by rewrite Hcur. }
  assert (Hty : expected_alert config change = Some opportunity).
  { unfold expected_alert, js_ge, js_le, js_gt, js_num. rewrite Hnull, Hcur, Hprev. simpl.
    rewrite (proj2 (Z.leb_gt _ _) Hcrit), (proj2 (Z.leb_gt _ _) Hwarn).
    by rewrite (proj2 (Z.leb_le _ _) Htop), (proj2 (Z.ltb_lt _ _) Hout). }
  simpl in Hrun, Hadded. rewrite Hrow, Hty in Hrun, Hadded.
  eexists w', _. split; [exact Hrun|]. split; [exact Hadded|].
  simpl. by rewrite Hcur, Hprev, Hnull.
Qed.

Lemma X18_witness :
  let w := Sample.world_with_lost_keyword 25 in
  exists w' alert,
    generateAlerts Sample.coffee Sample.storage_up [1%Z] w = (Returned 1, w')
    /\ tracking_alerts (db w') = tracking_alerts (db w) ++ [alert]
    /\ al_alert_type alert = opportunity
    /\ al_new_position alert = None.
Proof.
  intros w.
  assert (Hrow : v_position_changes_7d 1 (db w)
                 = [position_change_row Sample.coffee_row (db w)])
    by (vm_compute; reflexivity).
  destruct (X18_lost_keyword_raises_an_opportunity Sample.coffee Sample.storage_up 1 w
              _ _ 25 (fun _ => eq_refl) (fun _ => eq_refl)
              ltac:(vm_compute; reflexivity) ltac:(vm_compute; reflexivity)
              ltac:(vm_compute; discriminate) Hrow
              ltac:(vm_compute; reflexivity) ltac:(vm_compute; reflexivity)
              ltac:(vm_compute; reflexivity))
    as (w' & alert & Hrun & Hadded & _ & Hty & _ & Hnew & _).
  by exists w', alert.
Defined.

(** X19. Alerts are not de-duplicated: a second pass over the same keywords,
    at any later time and with the history unchanged, raises the alerts of
    the first pass once more. *)
Theorem X19_second_pass_raises_the_same_alerts_again
    (config : Config) (storage_ok : StorageOp -> nat -> bool)
    (ids : list Z) (w : World) (t : Z) :
  (forall n, storage_ok OpGenerateAlerts n = true) ->
  (forall n, storage_ok OpCreateAlert n = true) ->
  exists first second w1 w2,
    generateAlerts config storage_ok ids w = (Returned (length first), w1)
    /\ tracking_alerts (db w1) = tracking_alerts (db w) ++ first
    /\ generateAlerts config storage_ok ids (set_clock t w1)
       = (Returned (length second), w2)
    /\ tracking_alerts (db w2) = tracking_alerts (db w) ++ first ++ second
    /\ alert_content <$> second = alert_content <$> first.
Proof.
  intros Hview Halert.
  destruct (generateAlerts_healthy config storage_ok Hview Halert ids w)
    as (w1 & Hrun1 & Hadded1 & _ & Hkeywords & Hhistory & _).
  destruct (generateAlerts_healthy config storage_ok Hview Halert ids (set_clock t w1))
    as (w2 & Hrun2 & Hadded2 & _).
  simpl in Hrun2, Hadded2.
  rewrite (expected_alerts_ext config (db w) (db w1)) in Hrun2, Hadded2 by done.
  eexists _, _, w1, w2. split; [exact Hrun1|]. split; [exact Hadded1|].
  split; [exact Hrun2|]. split; [by rewrite Hadded2, Hadded1, app_assoc|].
  apply expected_alerts_content.
Qed.

Lemma X19_witness :
  let w := Sample.world_with_history 5 16 in
  exists w1 w2,
    fst (generateAlerts Sample.coffee Sample.storage_up [1%Z] w) = Returned 1
    /\ w1 = snd (generateAlerts Sample.coffee Sample.storage_up [1%Z] w)
    /\ generateAlerts Sample.coffee Sample.storage_up [1%Z]
         (set_clock (Sample.t0 + 3600000) w1) = (Returned 1, w2)
    /\ al_alert_type <$> tracking_alerts (db w2) = [critical; critical].
Proof.
  intros w.
  destruct (X19_second_pass_raises_the_same_alerts_again Sample.coffee Sample.storage_up
              [1%Z] w (Sample.t0 + 3600000) (fun _ => eq_refl) (fun _ => eq_refl))
    as (first & second & w1 & w2 & Hrun1 & Hadded1 & Hrun2 & Hadded2 & Hsame).
  assert (Hfirst : snd (generateAlerts Sample.coffee Sample.storage_up [1%Z] w) = w1)
    by (by rewrite Hrun1).
  assert (Htypes : al_alert_type <$> tracking_alerts (db w1) = [critical]).
  { rewrite <- Hfirst. vm_compute. reflexivity. }
  assert (Hnone : tracking_alerts (db w) = []) by (vm_compute; reflexivity).
  rewrite Hnone in Hadded1, Hadded2. simpl in Hadded1, Hadded2.
  rewrite Hadded1 in Htypes.
  assert (Hone : length first = 1) by (by rewrite <- (length_fmap al_alert_type), Htypes).
  assert (Htwo : length second = 1).
  { by rewrite <- (length_fmap alert_content), Hsame, length_fmap. }
  assert (Htypes2 : al_alert_type <$> second = al_alert_type <$> first).
  { apply (f_equal (fmap (fun c => c.1.1.1.1.2))) in Hsame.
    by rewrite <- !list_fmap_compose in Hsame. }
  exists w1, w2. rewrite Hrun1, Hone. split; [done|]. split; [done|].
  rewrite Hrun2, Htwo. split; [done|].
  by rewrite Hadded2, fmap_app, Htypes2, Htypes.
Defined.

(** X20. Every alert a pass stores is unread, stamped with the time of the
    pass, belongs to one of the keywords passed in, and has
    [position_change = new_position - old_position] (NULL if either is).
    Its kind is justified by its own columns, and is never [competitor]. *)
Theorem X20_stored_alerts_are_consistent
    (config : Config) (storage_ok : StorageOp -> nat -> bool)
    (ids : list Z) (w : World) :
  (forall n, storage_ok OpGenerateAlerts n = true) ->
  (forall n, storage_ok OpCreateAlert n = true) ->
  exists added w',
    generateAlerts config storage_ok ids w = (Returned (length added), w')
    /\ tracking_alerts (db w') = tracking_alerts (db w) ++ added
    /\ forall a,
         a ∈ added ->
         al_keyword_id a ∈ ids
         /\ al_is_read a = false
         /\ al_triggered_at a = clock w
         /\ al_position_change a = sql_sub (al_new_position a) (al_old_position a)
         /\ match al_alert_type a with
            | critical =>
                (critical_positionDrop config <= js_num (al_position_change a))%Z
            | warning =>
                (warning_positionDrop config <= js_num (al_position_change a)
                 < critical_positionDrop config)%Z
            | opportunity =>
                (js_num (al_new_position a) <= opportunity_enterTopN config
                 < js_num (al_old_position a))%Z
                /\ (js_num (al_position_change a) < warning_positionDrop config)%Z
                /\ (js_num (al_position_change a) < critical_positionDrop config)%Z
            | competitor => False
            end.
Proof.
  intros Hview Halert.
  destruct (generateAlerts_healthy config storage_ok Hview Halert ids w)
    as (w' & Hrun & Hadded & _).
  eexists _, w'. split; [exact Hrun|]. split; [exact Hadded|].
  intros a Ha.
  apply expected_alerts_rows in Ha as (k & change & rest & ty & id & Hk & Hrow & Hty & ->).
  assert (Hin : change ∈ v_position_changes_7d k (db w)) by (rewrite Hrow; by left).
  apply v_position_changes_7d_row in Hin as (tk & _ & _ & _ & Hchange).
  assert (Hdiff : position_change change
                  = sql_sub (current_position change) (previous_position change)).
  { rewrite Hchange. apply position_change_row_change. }
  simpl. split; [done|]. split; [done|]. split; [done|]. split; [done|].
  unfold expected_alert, js_ge, js_le, js_gt in Hty.
  destruct (critical_positionDrop config <=? js_num (position_change change))%Z eqn:Hc.
  { injection Hty as <-. by apply Z.leb_le. }
  destruct (warning_positionDrop config <=? js_num (position_change change))%Z eqn:Hw.
  { injection Hty as <-. apply Z.leb_le in Hw. apply Z.leb_gt in Hc. lia. }
  destruct ((js_num (current_position change) <=? opportunity_enterTopN config)%Z
            && (opportunity_enterTopN config <? js_num (previous_position change))%Z)
    eqn:Ho; [|done].
  injection Hty as <-. apply andb_true_iff in Ho as [Hle Hlt].
  apply Z.leb_le in Hle. apply Z.ltb_lt in Hlt. apply Z.leb_gt in Hc, Hw. lia.
Qed.

Lemma X20_witness :
  let w := Sample.world_with_history 5 16 in
  exists added w',
    generateAlerts Sample.coffee Sample.storage_up [1%Z] w = (Returned (length added), w')
    /\ tracking_alerts (db w') = tracking_alerts (db w) ++ added
    /\ forall a, a ∈ added ->
         al_is_read a = false
         /\ al_position_change a = sql_sub (al_new_position a) (al_old_position a).
Proof.
  intros w.
  destruct (X20_stored_alerts_are_consistent Sample.coffee Sample.storage_up [1%Z] w
              (fun _ => eq_refl) (fun _ => eq_refl))
    as (added & w' & Hrun & Hadded & Hall).
  exists added, w'. split; [exact Hrun|]. split; [exact Hadded|].
  intros a Ha. destruct (Hall a Ha) as (_ & Hread & _ & Hdiff & _). by split.
Defined.

#[global] Instance same_alerts_preorder : PreOrder same_alerts.
Proof.
  split.
  - by intros w.
  - intros w1 w2 w3 H12 H23. unfold same_alerts in *. congruence.
Qed.

(** Nothing before the alert pass touches the alerts. *)
Lemma batch_loop_alerts
    (config : Config) (http_post : nat -> SerpRequest -> HttpOutcome)
    (storage_ok : StorageOp -> nat -> bool)
    (fuel : nat) (keywords : list TrackedKeyword) (i : nat) (results : Results)
    (w : World) :
  same_alerts w (snd (batch_loop config http_post storage_ok fuel keywords i results w)).
Proof.
  apply (relates_batch_loop same_alerts config http_post storage_ok); try done.
  intros batch.
  apply (relates_trackKeywordBatch same_alerts config http_post storage_ok); try done.
  intros k position url features raw w0. unfold same_alerts. simpl.
  rewrite upsert_position_appends. by destruct (position_row_checks _ _).
Qed.

(** X21. The alert pass runs after the SyncRun has been closed, outside any
    handler: if it fails, the whole invocation fails, although every due
    keyword has been looked up and the sync log already shows the run as
    completed with all keywords successful. *)
Theorem X21_failed_alert_pass_fails_a_completed_run
    (config : Config) (http_post : nat -> SerpRequest -> HttpOutcome)
    (storage_ok : StorageOp -> nat -> bool)
    (fuel : nat) (priority projectId : option string) (w : World) :
  (forall op n, op <> OpGenerateAlerts -> storage_ok op n = true) ->
  (forall n, storage_ok OpGenerateAlerts n = false) ->
  varchar_null 50 projectId = true ->
  0 < batchSize config ->
  length (tracked_keywords (db w)) <= fuel ->
  Forall (fun run => (sl_id run < sl_seq (db w))%Z) (sync_log (db w)) ->
  let due := select_keywords_to_track priority projectId (db w) in
  due <> [] ->
  exists w' run,
    trackKeywordsByPriority config http_post storage_ok fuel priority projectId w
    = (Thrown "Connection terminated unexpectedly", w')
    /\ sync_log (db w') = sync_log (db w) ++ [run]
    /\ sl_status run = completed
    /\ sl_keywords_success run = Some (length due)
    /\ sl_keywords_failed run = Some 0
    /\ tracking_alerts (db w') = tracking_alerts (db w).
Proof.
  intros Hok Hdown Hproject Hsize Hfuel Hfresh due Hdue.
  assert (Hget : forall n, storage_ok OpGetKeywords n = true) by (by intros n; apply Hok).
  assert (Hopen : forall n, storage_ok OpCreateSyncLog n = true) by (by intros n; apply Hok).
  assert (Hclose : forall n, storage_ok OpCompleteSyncLog n = true)
    by (by intros n; apply Hok).
  unfold trackKeywordsByPriority. rewrite try_catch_rethrow.
  erewrite bind_returned; cycle 1.
  { unfold getKeywordsToTrack, connect.
    rewrite (bind_returned _ _ _ _ _ (storage_call_up _ _ _ (Hget _))).
    rewrite (query_up _ _ _ _ (Hget _)). reflexivity. }
  change (db (count_storage_call w)) with (db w). fold due.
  assert (Hlen : length due <= fuel).
  { etrans; [apply select_keywords_to_track_length|done]. }
  destruct (length due =? 0) eqn:Hempty.
  { apply Nat.eqb_eq in Hempty. by destruct due. }
  match goal with
  | |- context [bind (createSyncLog _ _ _ _) _ ?w'] => set (w0 := w')
  end.
  assert (Hdb : db w0 = db w) by done.
  destruct (createSyncLog_cases storage_ok "dataforseo" projectId (length due) w0)
    as [[[e He] _]|(run & Hret & Hlog & Hid & _ & Hprocessed & _)].
  { exfalso. revert He. unfold createSyncLog, connect.
    rewrite (bind_returned _ _ _ _ _ (storage_call_up _ _ _ (Hopen _))).
    rewrite bind_get, (query_up _ _ _ _ (Hopen _)).
    unfold insert_sync_log. rewrite Hproject. done. }
  destruct (createSyncLog storage_ok "dataforseo" projectId (length due) w0)
    as [[id|e'|] w1] eqn:Hcreate; simpl in Hret, Hlog; try done.
  injection Hret as ->. rewrite (bind_returned _ _ _ _ _ Hcreate).
  assert (Halerts1 : tracking_alerts (db w1) = tracking_alerts (db w)).
  { pose proof (relates_createSyncLog same_alerts storage_ok) as H.
    specialize (H ltac:(done) ltac:(by intros ? ? ?; unfold same_alerts, insert_sync_log;
                                      destruct (_ && _))
                  projectId (length due) w0).
    by rewrite Hcreate in H. }
  clear Hcreate.
  destruct (batch_loop_sync config http_post storage_ok fuel due
              {| success := 0; failed_count := 0; batch_errors := Some [] |} w1
              Hsize Hlen) as (w2 & Hloop & Hlog2 & _).
  pose proof (batch_loop_alerts config http_post storage_ok fuel due 0
                {| success := 0; failed_count := 0; batch_errors := Some [] |} w1)
    as Halerts2.
  rewrite Hloop in Halerts2. unfold same_alerts in Halerts2. simpl in Halerts2.
  rewrite (bind_returned _ _ _ _ _ Hloop). clear Hloop.
  destruct (completeSyncLog_healthy storage_ok (sl_seq (db w0))
              (0 + length due) 0 [] w2 Hclose)
    as (w3 & close & Hdone & Hlog3 & Hother & Hmine).
  pose proof (relates_completeSyncLog same_alerts storage_ok) as Halerts3.
  specialize (Halerts3 ltac:(done) ltac:(done)
                (sl_seq (db w0)) (0 + length due) 0 [] w2).
  cbn [success failed_count batch_errors default].
  rewrite Hdone in Halerts3. unfold same_alerts in Halerts3. simpl in Halerts3.
  rewrite (bind_returned _ _ _ _ _ Hdone). clear Hdone.
  erewrite bind_thrown; cycle 1.
  { unfold generateAlerts, connect.
    rewrite (bind_thrown _ _ _ _ _ (storage_call_down _ _ _ (Hdown _))). reflexivity. }
  destruct (Hmine run Hid) as (_ & Hst & _ & Hsucc & Hfail & Hproc).
  exists (count_storage_call w3), (close run). split; [reflexivity|].
  simpl. rewrite Hlog3, Hlog2, Hlog, ?Hdb, fmap_app. simpl.
  split; [|by rewrite Halerts3, Halerts2, Halerts1].
  f_equal. rewrite <- (list_fmap_id (sync_log (db w))) at 2.
  apply list_fmap_ext. intros i old Hold. apply Hother.
  rewrite Forall_lookup in Hfresh. specialize (Hfresh i old Hold).
  unfold id. rewrite ?Hdb. simpl. lia.
Qed.

Lemma X21_witness :
  let w := Sample.imported_world Sample.coffee in
  exists w' run,
    trackKeywordsByPriority Sample.coffee Sample.provider_up Sample.storage_lost_at_alerts
      1 (Some "high") None w
    = (Thrown "Connection terminated unexpectedly", w')
    /\ sync_log (db w') = [run]
    /\ sl_status run = completed
    /\ sl_keywords_success run = Some 1.
Proof.
  intros w.
  destruct (X21_failed_alert_pass_fails_a_completed_run Sample.coffee Sample.provider_up
              Sample.storage_lost_at_alerts 1 (Some "high") None w)
    as (w' & run & Hrun & Hlog & Hst & Hsucc & _).
  - intros op n Hop. by destruct op.
  - done.
  - done.
  - vm_compute. lia.
  - vm_compute. lia.
  - vm_compute. constructor.
  - vm_compute. discriminate.
  - exists w', run. split; [exact Hrun|]. split; [exact Hlog|]. split; [exact Hst|].
    rewrite Hsucc. vm_compute. reflexivity.
Defined.

(** *** Closing a run that is not there *)

(** X22. [completeSyncLog] with an id that no row of the sync log carries
    updates nothing and is no error: the log is left as it was, and with the
    database reachable the call returns. *)
Theorem X22_closing_an_unknown_run_changes_nothing
    (storage_ok : StorageOp -> nat -> bool)
    (logId : Z) (succeeded failed_n : nat) (errs : list BatchError) (w : World) :
  logId ∉ sl_id <$> sync_log (db w) ->
  let r := completeSyncLog storage_ok logId succeeded failed_n errs w in
  sync_log (db (snd r)) = sync_log (db w)
  /\ ((forall n, storage_ok OpCompleteSyncLog n = true) -> fst r = Returned tt).
Proof.
  intros Hunknown r. subst r.
  unfold completeSyncLog, connect, query, bind, storage_call, get. simpl.
  destruct (storage_ok OpCompleteSyncLog (storage_calls w)) eqn:H1; simpl.
  2:{ split; [done|]. intros Hok. by rewrite Hok in H1. }
  destruct (storage_ok OpCompleteSyncLog (S (storage_calls w))) eqn:H2; simpl.
  2:{ split; [done|]. intros Hok. by rewrite Hok in H2. }
  split; [|done].
  rewrite <- (list_fmap_id (sync_log (db w))) at 2.
  apply list_fmap_ext. intros i run Hrun. unfold id.
  rewrite bool_decide_eq_false_2; [done|].
  intros Hid. apply Hunknown. apply list_elem_of_fmap. exists run.
  split; [done|]. by eapply list_elem_of_lookup_2.
Qed.

Lemma X22_witness :
  let w := Sample.imported_world Sample.coffee in
  let r := completeSyncLog Sample.storage_up 99 1 0 [] w in
  sync_log (db (snd r)) = [] /\ fst r = Returned tt.
Proof.
  intros w r.
  destruct (X22_closing_an_unknown_run_changes_nothing Sample.storage_up 99 1 0 [] w)
    as [Hlog Hret].
  { vm_compute. by intros ?%elem_of_nil. }
  split; [exact Hlog|]. by apply Hret.
Defined.

(** *** The tracking script *)

#[global] Instance same_tracker_preorder : PreOrder same_tracker.
Proof.
  split.
  - by intros w.
  - intros w1 w2 w3 (?&?&?) (?&?&?). repeat split; congruence.
Qed.

(** The import works on the database only. *)
Lemma import_same_tracker
    (config : Config) (storage_ok : StorageOp -> nat -> bool)
    (projectId : option string) (w : World) :
  same_tracker w (snd (importKeywordsFromConfig config storage_ok projectId w)).
Proof.
  assert (Hcount : forall w0, same_tracker w0 (count_storage_call w0)) by done.
  assert (Hdb : forall w0, same_tracker w0 (set_db (db w0) w0)) by done.
  assert (Hquery : forall {A} (stmt : Sql A),
            relates same_tracker (query storage_ok OpImport stmt)).
  { intros A stmt w0. by apply (query_relates same_tracker storage_ok). }
  assert (Hkeywords : forall pid pd priority kws counts,
            relates same_tracker
              (import_keywords config storage_ok pid pd priority kws counts)).
  { intros pid pd priority kws. induction kws as [|kw kws IH]; intros counts; simpl.
    - apply (relates_ret same_tracker).
    - apply (relates_bind same_tracker); [|by intros c].
      unfold import_keyword. apply (relates_get same_tracker). intros w0.
      apply (relates_bind same_tracker); [apply Hquery|intros res].
      apply (relates_ret same_tracker). }
  assert (Htiers : forall pid pd tiers counts,
            relates same_tracker (import_tiers config storage_ok pid pd tiers counts)).
  { intros pid pd tiers. induction tiers as [|[priority kws] tiers IH]; intros counts; simpl.
    - apply (relates_ret same_tracker).
    - apply (relates_bind same_tracker); [apply Hkeywords|by intros c]. }
  assert (Hprojects : forall entries counts,
            relates same_tracker (import_projects config storage_ok entries counts)).
  { intros entries. induction entries as [|[pid [pd|]] entries IH]; intros counts; simpl.
    - apply (relates_ret same_tracker).
    - apply (relates_bind same_tracker); [apply Htiers|by intros c].
    - apply (relates_throw same_tracker). }
  revert w. change (relates same_tracker
                      (importKeywordsFromConfig config storage_ok projectId)).
  unfold importKeywordsFromConfig, connect.
  apply (relates_bind same_tracker);
    [by apply (relates_storage_call same_tracker)|intros _].
  apply (relates_get same_tracker). intros before.
  apply (relates_try_catch same_tracker).
  - apply (relates_bind same_tracker); [apply Hquery|intros _].
    apply (relates_bind same_tracker); [apply Hprojects|intros counts].
    apply (relates_bind same_tracker); [apply Hquery|intros _].
    apply (relates_ret same_tracker).
  - intros e. apply (relates_bind same_tracker); [by intros w0|intros _].
    apply (relates_bind same_tracker); [apply Hquery|intros _].
    apply (relates_throw same_tracker).
Qed.

Section ScriptProperties.

Context (config : Config) (http_post : nat -> SerpRequest -> HttpOutcome)
        (storage_ok : StorageOp -> nat -> bool).

(** X23. With the database reachable, the exit status of a live run says only
    whether any keyword was due: 0 if so, whatever the provider answered,
    and 1 if the due list was empty. *)
Theorem X23_live_run_exit_status
    (fuel : nat) (options : Options) (p : string) (w : World) :
  (forall op n, storage_ok op n = true) ->
  opt_priority options = Some p ->
  opt_dryRun options = false ->
  opt_import options = false ->
  varchar_null 50 (opt_project options) = true ->
  0 < batchSize config ->
  length (tracked_keywords (db w)) <= fuel ->
  Forall (fun run => (sl_id run < sl_seq (db w))%Z) (sync_log (db w)) ->
  exists w',
    main config http_post storage_ok None fuel options w
    = (Returned (if bool_decide (select_keywords_to_track (Some p) (opt_project options)
                                   (db w) = [])
                 then 1%Z else 0%Z), w').
Proof.
  intros Hok Hpriority Hdry Himport Hproject Hsize Hfuel Hfresh.
  unfold main, init, live_tracking, getStats, close. rewrite Hpriority, Hdry, Himport.
  set (due := select_keywords_to_track (Some p) (opt_project options) (db w)).
  case_bool_decide as Hdue.
  - assert (Hrun : trackKeywordsByPriority config http_post storage_ok fuel (Some p)
                     (opt_project options) w
                   = (Returned {| success := 0; failed_count := 0; batch_errors := None |},
                      count_storage_call (count_storage_call w))).
    { unfold trackKeywordsByPriority. rewrite try_catch_rethrow.
      erewrite bind_returned; cycle 1.
      { unfold getKeywordsToTrack, connect.
        rewrite (bind_returned _ _ _ _ _ (storage_call_up _ _ _ (Hok _ _))).
        rewrite (query_up _ _ _ _ (Hok _ _)). reflexivity. }
      change (db (count_storage_call w)) with (db w). fold due. rewrite Hdue. simpl.
      reflexivity. }
    eexists. unfold try_catch, bind, ret, get, modify. rewrite Hrun. simpl. reflexivity.
  - destruct (every_due_keyword_reported_successful config http_post storage_ok fuel
                (Some p) (opt_project options) w Hok Hproject Hsize Hfuel Hfresh Hdue)
      as (w1 & run & Hrun & _).
    fold due in Hrun.
    assert (Hpos : (0 <? length due) = true).
    { apply Nat.ltb_lt. destruct due; [done|simpl; lia]. }
    eexists. unfold try_catch, bind, ret, get, modify. rewrite Hrun. simpl.
    rewrite Hpos. reflexivity.
Qed.

(** X24. A dry run without [--import] is read-only: whatever the database and
    the initialisation do, it makes no provider call, changes no table and
    no counter, and ends with status 0 or 1. *)
Theorem X24_dry_run_is_read_only
    (init_error : option string) (fuel : nat) (options : Options) (w : World) :
  opt_dryRun options = true ->
  opt_import options = false ->
  let r := main config http_post storage_ok init_error fuel options w in
  db (snd r) = db w
  /\ stats (snd r) = stats w
  /\ (fst r = Returned 0%Z \/ fst r = Returned 1%Z).
Proof.
  intros Hdry Himport r. subst r.
  unfold main, init, dry_run, close. rewrite Hdry, Himport.
  destruct (opt_priority options) as [p|]; [|by eauto].
  destruct init_error as [e|].
  { unfold try_catch, bind, throw, ret. simpl. by eauto. }
  destruct (getKeywordsToTrack_cases storage_ok (Some p) (opt_project options) w)
    as (Hdb & Hstats & _ & _ & Hcase).
  unfold try_catch, bind, ret, modify. simpl.
  destruct (getKeywordsToTrack storage_ok (Some p) (opt_project options) w)
    as [[due|e|] w1]; simpl in *.
  - by eauto.
  - by eauto.
  - by destruct Hcase as [[? ?]|?].
Qed.

(** X25. When [--import] is given and the import fails, the script stops with
    status 1 before any tracking: nothing the import did is left in the
    tables, and no provider call is made. *)
Theorem X25_failed_import_stops_the_script
    (fuel : nat) (options : Options) (p e : string) (w wi : World) :
  opt_priority options = Some p ->
  opt_import options = true ->
  importKeywordsFromConfig config storage_ok (opt_project options) w = (Thrown e, wi) ->
  exists w',
    main config http_post storage_ok None fuel options w = (Returned 1%Z, w')
    /\ tracked_keywords (db w') = tracked_keywords (db w)
    /\ position_history (db w') = position_history (db w)
    /\ tracking_alerts (db w') = tracking_alerts (db w)
    /\ sync_log (db w') = sync_log (db w)
    /\ stats w' = stats w.
Proof.
  intros Hpriority Himport Hfail.
  destruct (import_rollback config storage_ok _ _ _ _ Hfail) as (Hk & Hh & Ha & Hs).
  pose proof (import_same_tracker config storage_ok (opt_project options) w) as Hsame.
  rewrite Hfail in Hsame. destruct Hsame as (Hstats & _).
  exists wi. unfold main, init. rewrite Hpriority, Himport.
  erewrite bind_returned; cycle 1.
  { unfold try_catch. rewrite bind_ret.
    erewrite bind_thrown; [reflexivity|]. by apply bind_thrown. }
  done.
Qed.

End ScriptProperties.

Lemma X23_witness :
  (exists w',
     main Sample.coffee Sample.provider_down Sample.storage_up None 1 default_options
       (Sample.imported_world Sample.coffee) = (Returned 0%Z, w'))
  /\ (exists w',
        main Sample.coffee Sample.provider_up Sample.storage_up None 1 default_options
          (new_tracker empty_db Sample.t0) = (Returned 1%Z, w')).
Proof.
  split.
  - destruct (X23_live_run_exit_status Sample.coffee Sample.provider_down Sample.storage_up
                1 default_options "high" (Sample.imported_world Sample.coffee)
                (fun _ _ => eq_refl) eq_refl eq_refl eq_refl eq_refl
                ltac:(vm_compute; lia) ltac:(vm_compute; lia)
                ltac:(vm_compute; constructor))
      as (w' & Hrun).
    exists w'. rewrite Hrun. f_equal.
  - destruct (X23_live_run_exit_status Sample.coffee Sample.provider_up Sample.storage_up
                1 default_options "high" (new_tracker empty_db Sample.t0)
                (fun _ _ => eq_refl) eq_refl eq_refl eq_refl eq_refl
                ltac:(vm_compute; lia) ltac:(vm_compute; lia)
                ltac:(vm_compute; constructor))
      as (w' & Hrun).
    exists w'. rewrite Hrun. f_equal.
Defined.

Lemma X24_witness :
  let options := {| opt_priority := Some "high"; opt_project := None;
                    opt_dryRun := true; opt_import := false |} in
  let w := Sample.imported_world Sample.coffee in
  let r := main Sample.coffee Sample.provider_up Sample.storage_up None 1 options w in
  db (snd r) = db w /\ stats (snd r) = stats w /\ fst r = Returned 0%Z.
Proof.
  intros options w r.
  destruct (X24_dry_run_is_read_only Sample.coffee Sample.provider_up Sample.storage_up
              None 1 options w eq_refl eq_refl) as (Hdb & Hstats & _).
  split; [exact Hdb|]. split; [exact Hstats|]. vm_compute. reflexivity.
Defined.

Lemma X25_witness :
  let options := {| opt_priority := Some "high"; opt_project := None;
                    opt_dryRun := false; opt_import := true |} in
  let w := new_tracker empty_db Sample.t0 in
  exists w',
    main Sample.bad_tier Sample.provider_up Sample.storage_up None 1 options w
    = (Returned 1%Z, w')
    /\ tracked_keywords (db w') = []
    /\ apiCallsMade (stats w') = 0.
Proof.
  intros options w.
  assert (Hfail : importKeywordsFromConfig Sample.bad_tier Sample.storage_up
                    (opt_project options) w
                  = (Thrown "violates check constraint",
                     snd (importKeywordsFromConfig Sample.bad_tier Sample.storage_up
                            None w)))
    by (vm_compute; reflexivity).
  destruct (X25_failed_import_stops_the_script Sample.bad_tier Sample.provider_up
              Sample.storage_up 1 options "high" _ w _ eq_refl eq_refl Hfail)
    as (w' & Hrun & Hrows & _ & _ & _ & Hstats).
  exists w'. split; [exact Hrun|]. by rewrite Hrows, Hstats.
Defined.

(** *** The views *)

